(** * Movie-Recs: item-based collaborative filtering

    A shallow embedding of [movie_recommendations.py] (classes
    [Movie_Recommendations] and [Movie]) together with the properties of
    its prediction engine.

    Modelling choices.
    - Ids are Python ints, modelled as [Z].
    - Ratings and similarities are Python floats.  The first part of the
      development models them by exact rationals [Q]; it carries the
      statements about control flow, the caches, the invariants and the
      exceptions, none of which depends on how a sum is rounded.  Module
      [F64] repeats the methods with binary64 floats ([PrimFloat]) and
      carries the statements about the numbers a call returns.
    - The files are modelled twice as well: as parsed rows (a header or the
      fields after [int(...)] and [float(...)]), and as the lists of strings
      [csv.reader] yields, with every subscript and conversion that can
      raise.
    - [movie_dict], [user_dict] and each movie's [similarities] are only ever
      accessed by key, so they are finite maps ([gmap]).
    - The inner dictionary of one user's ratings is iterated by
      [predict_rating] (in insertion order), so it is an insertion-ordered
      association list ([PyDict]).
    - [Movie.users] is a Python list filled with [append]; it stays a list
      (duplicates and order are kept).
    - Exceptions are values of [exn]; a method that mutates the movie objects
      is a function from the store [movie_dict] to an outcome and a store.
    - What [print] writes is not modelled. *)

From Stdlib Require Import Uint63 PrimFloat.
From Stdlib Require Import QArith Qabs Lqa.
From stdpp Require Import base option list gmap strings.

(** ** Insertion-ordered dictionaries (the inner rating dictionaries) *)

Module PyDict.
Section Defs.
Context {V : Type}.

Definition t : Type := list (Z * V).

Definition empty : t := [].

(** [d[k]] as an option. *)
Fixpoint get (d : t) (k : Z) : option V :=
  match d with
  | [] => None
  | (k', v) :: d' => if decide (k' = k) then Some v else get d' k
  end.

(** [d[k] = v]: an existing key keeps its position, a new key goes last. *)
Fixpoint set (d : t) (k : Z) (v : V) : t :=
  match d with
  | [] => [(k, v)]
  | (k', v') :: d' =>
      if decide (k' = k) then (k', v) :: d' else (k', v') :: set d' k v
  end.

(** [list(d)]: the keys in iteration order. *)
Definition keys (d : t) : list Z := fst <$> d.

End Defs.
Arguments t : clear implicits.
End PyDict.

(** ** Exceptions and outcomes *)

Inductive exn : Type :=
| BadInputError      (* the program's own exception *)
| KeyError           (* d[k] with k absent *)
| IndexError         (* l[i] out of range *)
| TypeError          (* float(None) *)
| ZeroDivisionError  (* x / 0 *)
| ValueError.        (* int(x) or float(x) on a string that is no number *)

Inductive outcome (A : Type) : Type :=
| Return (a : A)
| Raise (e : exn).
Arguments Return {A} a.
Arguments Raise {A} e.

Definition obind {A B} (m : outcome A) (k : A -> outcome B) : outcome B :=
  match m with
  | Return a => k a
  | Raise e => Raise e
  end.

Notation "'let?' x ':=' m 'in' k" := (obind m (fun x => k))
  (at level 10, x pattern, m at level 100, k at level 200).

(** [d[k]] on a key-accessed dictionary. *)
Definition subscript {V} (d : gmap Z V) (k : Z) : outcome V :=
  match d !! k with
  | Some v => Return v
  | None => Raise KeyError
  end.

(** [d[k]] on an insertion-ordered dictionary. *)
Definition subscript_od {V} (d : PyDict.t V) (k : Z) : outcome V :=
  match PyDict.get d k with
  | Some v => Return v
  | None => Raise KeyError
  end.

(** ** The data model *)

(** [class Movie]: [id], [title], [users], [similarities]. *)
Record Movie : Type := mkMovie {
  id : Z;
  title : string;
  users : list Z;
  similarities : gmap Z Q
}.

(** [Movie(id, title)] *)
Definition new_Movie (i : Z) (t : string) : Movie :=
  {| id := i; title := t; users := []; similarities := ∅ |}.

(** [m.users.append(u)] *)
Definition append_user (m : Movie) (u : Z) : Movie :=
  {| id := id m; title := title m; users := users m ++ [u];
     similarities := similarities m |}.

(** [m.similarities[k] = v] *)
Definition set_similarity (m : Movie) (k : Z) (v : Q) : Movie :=
  {| id := id m; title := title m; users := users m;
     similarities := <[k := v]> (similarities m) |}.

Abbreviation movie_store := (gmap Z Movie).
Abbreviation rating_matrix := (gmap Z (PyDict.t Q)).

(** [class Movie_Recommendations]: [movie_dict] and [user_dict]. *)
Record Movie_Recommendations : Type := mkRecs {
  movie_dict : movie_store;
  user_dict : rating_matrix
}.

(** The parsed rows of the three CSV files.  A row whose first field is the
    column name ([line[0] == "movieId"], [line[0] == "userId"]) is a header
    and is skipped by every reader; the other rows carry the fields after
    [int(...)] and [float(...)]. *)
Inductive movie_row : Type :=
| MovieHeader
| MovieRow (movieId : Z) (movie_title : string).

Inductive rating_row : Type :=
| RatingHeader
| RatingRow (userId movieId : Z) (rating : Q).

(** ** Methods that mutate movie objects

    The movie objects live in the store [movie_dict]; a [Movie] object is
    referred to by the key under which the store holds it. *)

Definition M (A : Type) : Type := movie_store -> outcome A * movie_store.

Definition lift {A} (o : outcome A) : M A := fun st => (o, st).

Definition sbind {A B} (m : M A) (k : A -> M B) : M B :=
  fun st =>
    match m st with
    | (Return a, st') => k a st'
    | (Raise e, st') => (Raise e, st')
    end.

Notation "'let!' x ':=' m 'in' k" := (sbind m (fun x => k))
  (at level 10, x pattern, m at level 100, k at level 200).

(** ** class Movie *)

Local Open Scope Q_scope.

(** The builtin [sum]: starts from 0 and adds from left to right. *)
Definition sum (l : list Q) : Q := fold_left Qplus l 0.

(** [len(l)] as a number. *)
Definition len {A} (l : list A) : Q := inject_Z (Z.of_nat (length l)).

(** [a / b] on numbers. *)
Definition true_div (a b : Q) : outcome Q :=
  if Qeq_bool b 0 then Raise ZeroDivisionError else Return (a / b).

(** Lines 246-249: the users of the first list that are in the second. *)
Definition users_who_viewed_both (init_movie_users other_movie_users : list Z)
  : list Z :=
  filter (fun user => user ∈ other_movie_users) init_movie_users.

(** Lines 257-264: the loop that fills [init_movie_ratings] and
    [other_movie_ratings]. *)
Fixpoint collect_ratings (user_dict : rating_matrix) (self_id other_movie_id : Z)
    (viewed_both : list Z) (init_movie_ratings other_movie_ratings : list Q)
  : outcome (list Q * list Q) :=
  match viewed_both with
  | [] => Return (init_movie_ratings, other_movie_ratings)
  | user :: rest =>
      let? init_rating := subscript user_dict user in
      let? init_rating := subscript_od init_rating self_id in
      let? other_rating := subscript user_dict user in
      let? other_rating := subscript_od other_rating other_movie_id in
      collect_ratings user_dict self_id other_movie_id rest
        (init_movie_ratings ++ [init_rating])
        (other_movie_ratings ++ [other_rating])
  end.

(** Lines 268-269: the [enumerate] loop, [i] being the current index. *)
Fixpoint abs_differences (i : nat) (init_movie_ratings other_movie_ratings : list Q)
    (absolute_difference : list Q) : outcome (list Q) :=
  match init_movie_ratings with
  | [] => Return absolute_difference
  | init_rating :: rest =>
      match other_movie_ratings !! i with
      | None => Raise IndexError
      | Some other_rating =>
          abs_differences (S i) rest other_movie_ratings
            (absolute_difference ++ [Qabs (init_rating - other_rating)])
      end
  end.

(** [Movie.compute_similarity] (it reads, and mutates nothing). *)
Definition compute_similarity (self : Movie) (other_movie_id : Z)
    (movie_dict : movie_store) (user_dict : rating_matrix) : outcome Q :=
  let? init_movie := subscript movie_dict (id self) in
  let init_movie_users := users init_movie in
  let? other_movie := subscript movie_dict other_movie_id in
  let other_movie_users := users other_movie in
  let viewed_both := users_who_viewed_both init_movie_users other_movie_users in
  if decide (length viewed_both = 0%nat) then Return 0
  else
    let? ratings :=
      collect_ratings user_dict (id self) other_movie_id viewed_both [] [] in
    let init_movie_ratings := fst ratings in
    let other_movie_ratings := snd ratings in
    let? absolute_difference :=
      abs_differences 0 init_movie_ratings other_movie_ratings [] in
    let absolute_difference_total := sum absolute_difference in
    let? average_difference :=
      true_div absolute_difference_total (len init_movie_ratings) in
    Return (1 - average_difference / (9 # 2)).

(** The body of the [try] block of [Movie.get_similarity].  [self_ref] is the
    key of the object the method is called on. *)
Definition get_similarity_try (self_ref other_movie_id : Z)
    (user_dict : rating_matrix) : M Q :=
  fun movie_dict =>
    match movie_dict !! self_ref with
    | None => (Raise KeyError, movie_dict)
    | Some self =>
        if decide (is_Some (movie_dict !! other_movie_id)) then
          match similarities self !! other_movie_id with
          | Some similarity => (Return similarity, movie_dict)
          | None =>
              match compute_similarity self other_movie_id movie_dict user_dict with
              | Raise e => (Raise e, movie_dict)
              | Return similarity =>
                  let movie_dict1 :=
                    <[self_ref := set_similarity self other_movie_id similarity]>
                      movie_dict in
                  match movie_dict1 !! other_movie_id with
                  | None => (Raise KeyError, movie_dict1)
                  | Some other =>
                      (Return similarity,
                       <[other_movie_id :=
                           set_similarity other (id self) similarity]> movie_dict1)
                  end
              end
          end
        else (Raise BadInputError, movie_dict)
    end.

(** [Movie.get_similarity]: the [try] block under [except BadInputError],
    whose handler prints a message and falls off the end of the method, so
    the call returns [None]. *)
Definition get_similarity (self_ref other_movie_id : Z)
    (user_dict : rating_matrix) : M (option Q) :=
  fun movie_dict =>
    match get_similarity_try self_ref other_movie_id user_dict movie_dict with
    | (Return similarity, movie_dict') => (Return (Some similarity), movie_dict')
    | (Raise BadInputError, movie_dict') => (Return None, movie_dict')
    | (Raise e, movie_dict') => (Raise e, movie_dict')
    end.

(** [float(x)] where [x] is a float or [None]. *)
Definition float (x : option Q) : outcome Q :=
  match x with
  | Some q => Return q
  | None => Raise TypeError
  end.

(** ** class Movie_Recommendations *)

(** Lines 43-45: reading the movie file. *)
Fixpoint load_movies (rows : list movie_row) (movie_dict : movie_store)
  : movie_store :=
  match rows with
  | [] => movie_dict
  | MovieHeader :: rest => load_movies rest movie_dict
  | MovieRow movieId t :: rest =>
      load_movies rest (<[movieId := new_Movie movieId t]> movie_dict)
  end.

(** Lines 54-63: reading the training ratings.  The movie's [users] list is
    appended to first (a [KeyError] for a movie that is not in the catalog
    ends the constructor), then the user's dictionary is updated in place or
    created. *)
Fixpoint load_ratings (rows : list rating_row) (movie_dict : movie_store)
    (user_dict : rating_matrix) : outcome (movie_store * rating_matrix) :=
  match rows with
  | [] => Return (movie_dict, user_dict)
  | RatingHeader :: rest => load_ratings rest movie_dict user_dict
  | RatingRow userId movieId rating :: rest =>
      let? movie := subscript movie_dict movieId in
      let movie_dict' := <[movieId := append_user movie userId]> movie_dict in
      match user_dict !! userId with
      | Some rating_placeholder =>
          load_ratings rest movie_dict'
            (<[userId := PyDict.set rating_placeholder movieId rating]> user_dict)
      | None =>
          load_ratings rest movie_dict'
            (<[userId := PyDict.set PyDict.empty movieId rating]> user_dict)
      end
  end.

(** [Movie_Recommendations.__init__] on the parsed rows of the two files. *)
Definition init (movie_rows : list movie_row) (training_rows : list rating_row)
  : outcome Movie_Recommendations :=
  let movie_dict := load_movies movie_rows ∅ in
  let? dicts := load_ratings training_rows movie_dict ∅ in
  Return {| movie_dict := fst dicts; user_dict := snd dicts |}.

(** Lines 92-100: the loop over the movies the user rated, with the two
    running totals. *)
Fixpoint predict_loop (user_id movie_id : Z) (user_dict : rating_matrix)
    (user_rated_movies : list Z) (sim_x_rate_total sim_total : Q)
  : M (Q * Q) :=
  match user_rated_movies with
  | [] => lift (Return (sim_x_rate_total, sim_total))
  | movie :: rest =>
      let! rating := lift (subscript user_dict user_id) in
      let! rating := lift (subscript_od rating movie) in
      let! similarity := get_similarity movie movie_id user_dict in
      let! similarity := lift (float similarity) in
      predict_loop user_id movie_id user_dict rest
        (sim_x_rate_total + similarity * rating) (sim_total + similarity)
  end.

(** [Movie_Recommendations.predict_rating].  The result is the outcome of the
    call and the object after it. *)
Definition predict_rating (self : Movie_Recommendations) (user_id movie_id : Z)
  : outcome Q * Movie_Recommendations :=
  if decide (user_dict self !! user_id = None \/ movie_dict self !! movie_id = None)
  then (Raise BadInputError, self)
  else
    match movie_dict self !! movie_id with
    | None => (Raise KeyError, self)
    | Some movie =>
        if decide (user_id ∈ users movie) then
          (let? rating := subscript (user_dict self) user_id in
           subscript_od rating movie_id, self)
        else
          match user_dict self !! user_id with
          | None => (Raise KeyError, self)
          | Some rated =>
              let user_rated_movies := PyDict.keys rated in
              match predict_loop user_id movie_id (user_dict self)
                      user_rated_movies 0 0 (movie_dict self) with
              | (Raise e, movie_dict') =>
                  (Raise e,
                   {| movie_dict := movie_dict'; user_dict := user_dict self |})
              | (Return (sim_x_rate_total, sim_total), movie_dict') =>
                  (Return (if Qeq_bool sim_total 0 then 5 # 2
                           else sim_x_rate_total / sim_total),
                   {| movie_dict := movie_dict'; user_dict := user_dict self |})
              end
          end
    end.

(** One element of the list [predict_ratings] returns:
    (user id, movie title, predicted rating, actual rating). *)
Definition prediction : Type := Z * string * Q * Q.

(** Lines 126-135: the loop over the rows of the test file. *)
Fixpoint predict_rows (self : Movie_Recommendations) (rows : list rating_row)
    (tuple_list : list prediction)
  : outcome (list prediction) * Movie_Recommendations :=
  match rows with
  | [] => (Return tuple_list, self)
  | RatingHeader :: rest => predict_rows self rest tuple_list
  | RatingRow userId movieId rating :: rest =>
      match subscript (movie_dict self) movieId with
      | Raise e => (Raise e, self)
      | Return movie =>
          match predict_rating self userId movieId with
          | (Raise e, self') => (Raise e, self')
          | (Return predicted, self') =>
              predict_rows self' rest
                (tuple_list ++ [(userId, title movie, predicted, rating)])
          end
      end
  end.

(** [Movie_Recommendations.predict_ratings]: the loop, then
    [print(type(tuple_list[0]))], then [return tuple_list]. *)
Definition predict_ratings (self : Movie_Recommendations) (rows : list rating_row)
  : outcome (list prediction) * Movie_Recommendations :=
  match predict_rows self rows [] with
  | (Raise e, self') => (Raise e, self')
  | (Return tuple_list, self') =>
      match tuple_list !! 0%nat with
      | None => (Raise IndexError, self')
      | Some _ => (Return tuple_list, self')
      end
  end.

(** [Movie_Recommendations.correlation] hands both lists to
    [scipy.stats.pearsonr] and returns component 0 of its result; [pearsonr]
    belongs to a library outside the program and is a parameter here. *)
Definition correlation (pearsonr : list Q -> list Q -> outcome (Q * Q))
    (predicted_ratings actual_ratings : list Q) : outcome Q :=
  let? result := pearsonr predicted_ratings actual_ratings in
  Return (fst result).

(** ** The files as [csv.reader] yields them

    [csv.reader] yields each row of a file as a list of strings (the empty
    list for a blank line).  [int(x)] and [float(x)] on a string are the
    interpreter's; they are the parameters [str_to_int] and [str_to_float]
    here, [None] standing for the [ValueError] of a string that is no
    number.  The methods below are the two file-reading methods on such rows,
    with every subscript and conversion in the order the code evaluates
    them. *)

Section Lines.
Variables (str_to_int : string -> option Z) (str_to_float : string -> option Q).

(** [line[i]] *)
Definition item (line : list string) (i : nat) : outcome string :=
  match line !! i with
  | Some x => Return x
  | None => Raise IndexError
  end.

(** [int(x)] on a field. *)
Definition int_of (x : string) : outcome Z :=
  match str_to_int x with
  | Some n => Return n
  | None => Raise ValueError
  end.

(** [float(x)] on a field. *)
Definition float_of (x : string) : outcome Q :=
  match str_to_float x with
  | Some r => Return r
  | None => Raise ValueError
  end.

(** Lines 43-45: [Movie(int(line[0]), line[1])] is evaluated before the
    subscript it is assigned to. *)
Fixpoint load_movie_lines (lines : list (list string)) (movie_dict : movie_store)
  : outcome movie_store :=
  match lines with
  | [] => Return movie_dict
  | line :: rest =>
      let? line0 := item line 0 in
      if decide (line0 = "movieId") then load_movie_lines rest movie_dict
      else
        let? movieId := int_of line0 in
        let? movie_title := item line 1 in
        load_movie_lines rest (<[movieId := new_Movie movieId movie_title]> movie_dict)
  end.

(** Lines 54-63: [self.movie_dict[int(line[1])]] comes first, then the
    argument [int(line[0])] of [append], then [float(line[2])]. *)
Fixpoint load_rating_lines (lines : list (list string)) (movie_dict : movie_store)
    (user_dict : rating_matrix) : outcome (movie_store * rating_matrix) :=
  match lines with
  | [] => Return (movie_dict, user_dict)
  | line :: rest =>
      let? line0 := item line 0 in
      if decide (line0 = "userId") then load_rating_lines rest movie_dict user_dict
      else
        let? line1 := item line 1 in
        let? movieId := int_of line1 in
        let? movie := subscript movie_dict movieId in
        let? userId := int_of line0 in
        let movie_dict' := <[movieId := append_user movie userId]> movie_dict in
        let? line2 := item line 2 in
        let? rating := float_of line2 in
        match user_dict !! userId with
        | Some rating_placeholder =>
            load_rating_lines rest movie_dict'
              (<[userId := PyDict.set rating_placeholder movieId rating]> user_dict)
        | None =>
            load_rating_lines rest movie_dict'
              (<[userId := PyDict.set PyDict.empty movieId rating]> user_dict)
        end
  end.

(** [Movie_Recommendations.__init__] on the rows of the two files. *)
Definition init_lines (movie_lines training_lines : list (list string))
  : outcome Movie_Recommendations :=
  let? movie_dict := load_movie_lines movie_lines ∅ in
  let? dicts := load_rating_lines training_lines movie_dict ∅ in
  Return {| movie_dict := fst dicts; user_dict := snd dicts |}.

(** The first two components of the tuple of lines 128-133 and the movie
    whose title is the second: [int(line[0])], then
    [self.movie_dict[int(line[1])]]. *)
Definition tuple_head (self : Movie_Recommendations) (line : list string)
    (line0 : string) : outcome (Z * Z * Movie) :=
  let? userId := int_of line0 in
  let? line1 := item line 1 in
  let? movieId := int_of line1 in
  let? movie := subscript (movie_dict self) movieId in
  Return (userId, movieId, movie).

(** Lines 126-135 on the rows of the test file: [float(line[2])] is
    evaluated after [predict_rating] has returned. *)
Fixpoint predict_lines (self : Movie_Recommendations) (lines : list (list string))
    (tuple_list : list prediction)
  : outcome (list prediction) * Movie_Recommendations :=
  match lines with
  | [] => (Return tuple_list, self)
  | line :: rest =>
      match item line 0 with
      | Raise e => (Raise e, self)
      | Return line0 =>
          if decide (line0 = "userId") then predict_lines self rest tuple_list
          else
            match tuple_head self line line0 with
            | Raise e => (Raise e, self)
            | Return head =>
                let userId := fst (fst head) in
                let movieId := snd (fst head) in
                let movie := snd head in
                match predict_rating self userId movieId with
                | (Raise e, self') => (Raise e, self')
                | (Return predicted, self') =>
                    match (let? line2 := item line 2 in float_of line2) with
                    | Raise e => (Raise e, self')
                    | Return rating =>
                        predict_lines self' rest
                          (tuple_list ++ [(userId, title movie, predicted, rating)])
                    end
                end
            end
      end
  end.

(** [Movie_Recommendations.predict_ratings] on the rows of the test file. *)
Definition predict_ratings_lines (self : Movie_Recommendations)
    (lines : list (list string))
  : outcome (list prediction) * Movie_Recommendations :=
  match predict_lines self lines [] with
  | (Raise e, self') => (Raise e, self')
  | (Return tuple_list, self') =>
      match tuple_list !! 0%nat with
      | None => (Raise IndexError, self')
      | Some _ => (Return tuple_list, self')
      end
  end.

(** A row of the movie file with all its fields in order. *)
Definition parse_movie_line (line : list string) : option movie_row :=
  match line !! 0%nat with
  | None => None
  | Some line0 =>
      if decide (line0 = "movieId") then Some MovieHeader
      else
        match str_to_int line0, line !! 1%nat with
        | Some movieId, Some movie_title => Some (MovieRow movieId movie_title)
        | _, _ => None
        end
  end.

(** A row of a ratings file with all its fields in order. *)
Definition parse_rating_line (line : list string) : option rating_row :=
  match line !! 0%nat with
  | None => None
  | Some line0 =>
      if decide (line0 = "userId") then Some RatingHeader
      else
        match str_to_int line0, line !! 1%nat with
        | Some userId, Some line1 =>
            match str_to_int line1, line !! 2%nat with
            | Some movieId, Some line2 =>
                match str_to_float line2 with
                | Some rating => Some (RatingRow userId movieId rating)
                | None => None
                end
            | _, _ => None
            end
        | _, _ => None
        end
  end.

End Lines.

(** ** Observations, invariants and reachable states *)

(** The stored rating of a user for a movie, if any (the rating matrix). *)
Definition rating_of (user_dict : rating_matrix) (user movie : Z) : option Q :=
  match user_dict !! user with
  | Some rated => PyDict.get rated movie
  | None => None
  end.

(** The stored rating as a number (0 where there is none). *)
Definition stored_rating (user_dict : rating_matrix) (user movie : Z) : Q :=
  default 0 (rating_of user_dict user movie).

(** The raters collection of every movie of the catalog. *)
Definition raters (movie_dict : movie_store) : gmap Z (list Z) :=
  users <$> movie_dict.

(** The similarity cache of a movie (empty for a movie that does not exist). *)
Definition cache_of (movie_dict : movie_store) (movie : Z) : gmap Z Q :=
  match movie_dict !! movie with
  | Some m => similarities m
  | None => ∅
  end.

(** Every movie object is stored under its own [id]. *)
Definition keys_are_ids (movie_dict : movie_store) : Prop :=
  forall k m, movie_dict !! k = Some m -> id m = k.

(** The rating matrix and the raters collections are in lockstep. *)
Definition lockstep (movie_dict : movie_store) (user_dict : rating_matrix) : Prop :=
  forall user movie,
    is_Some (rating_of user_dict user movie) <->
    exists m, movie_dict !! movie = Some m /\ user ∈ users m.

(** A Python dictionary holds each key once. *)
Definition dicts_ok (user_dict : rating_matrix) : Prop :=
  forall user rated, user_dict !! user = Some rated -> NoDup (PyDict.keys rated).

(** A cached similarity is cached on both sides, with one value. *)
Definition cache_symmetric (movie_dict : movie_store) : Prop :=
  forall a b ma v,
    movie_dict !! a = Some ma -> similarities ma !! b = Some v ->
    exists mb, movie_dict !! b = Some mb /\ similarities mb !! a = Some v.

Record wf (s : Movie_Recommendations) : Prop := mkWf {
  wf_ids : keys_are_ids (movie_dict s);
  wf_lockstep : lockstep (movie_dict s) (user_dict s);
  wf_dicts : dicts_ok (user_dict s);
  wf_cache : cache_symmetric (movie_dict s)
}.

(** The calls a client can make on a constructed object. *)
Inductive call : Type :=
| call_predict_rating (user_id movie_id : Z)
| call_predict_ratings (rows : list rating_row)
| call_get_similarity (self_ref other_movie_id : Z)
| call_compute_similarity (self_ref other_movie_id : Z)
| call_correlation (predicted_ratings actual_ratings : list Q).

(** The object after a call (whether the call returned or raised). *)
Definition after (s : Movie_Recommendations) (c : call) : Movie_Recommendations :=
  match c with
  | call_predict_rating user_id movie_id => snd (predict_rating s user_id movie_id)
  | call_predict_ratings rows => snd (predict_ratings s rows)
  | call_get_similarity self_ref other_movie_id =>
      {| movie_dict :=
           snd (get_similarity self_ref other_movie_id (user_dict s) (movie_dict s));
         user_dict := user_dict s |}
  | call_compute_similarity _ _ => s
  | call_correlation _ _ => s
  end.

(** The states a program can be in: a constructed object, then any calls. *)
Inductive reachable : Movie_Recommendations -> Prop :=
| reachable_init movie_rows training_rows s :
    init movie_rows training_rows = Return s -> reachable s
| reachable_call s c :
    reachable s -> reachable (after s c).

(** What the similarity operation answers in a state: the value returned by
    [get_similarity], [None] when it returns [None] or raises. *)
Definition similarity (s : Movie_Recommendations) (a b : Z) : option Q :=
  match fst (get_similarity a b (user_dict s) (movie_dict s)) with
  | Return v => v
  | Raise _ => None
  end.

(** *** The similarity formula, as the specification words it *)

(** The users who rated both movies: the entries of the first movie's raters
    list that are raters of the second. *)
Definition common_raters (s : Movie_Recommendations) (a b : Z) : list Z :=
  filter (fun u => u ∈ default [] (raters (movie_dict s) !! b))
         (default [] (raters (movie_dict s) !! a)).

(** The absolute difference between a user's ratings of the two movies. *)
Definition abs_diff (s : Movie_Recommendations) (a b : Z) (u : Z) : Q :=
  Qabs (stored_rating (user_dict s) u a - stored_rating (user_dict s) u b).

(** The average of the absolute differences over the common raters. *)
Definition mean_abs_diff (s : Movie_Recommendations) (a b : Z) : Q :=
  sum (abs_diff s a b <$> common_raters s a b) / len (common_raters s a b).

(** 0.0 without common raters, else [1 - meanAbsDiff / 4.5]. *)
Definition similarity_formula (s : Movie_Recommendations) (a b : Z) : Q :=
  match common_raters s a b with
  | [] => 0
  | _ :: _ => 1 - mean_abs_diff s a b / (9 # 2)
  end.

(** *** The prediction formula, as the specification words it *)

(** The weight of a rated movie towards a target movie. *)
Definition weight (s : Movie_Recommendations) (target rated_movie : Z) : Q :=
  default 0 (similarity s rated_movie target).

Definition weightedSum (s : Movie_Recommendations) (target : Z)
    (rated : PyDict.t Q) : Q :=
  sum ((fun entry => weight s target (fst entry) * snd entry) <$> rated).

Definition weightTotal (s : Movie_Recommendations) (target : Z)
    (rated : PyDict.t Q) : Q :=
  sum ((fun entry => weight s target (fst entry)) <$> rated).

Definition prediction_formula (s : Movie_Recommendations) (target : Z)
    (rated : PyDict.t Q) : Q :=
  if Qeq_bool (weightTotal s target rated) 0 then 5 # 2
  else weightedSum s target rated / weightTotal s target rated.

(** ** Example data (the catalog and ratings of the end-to-end example) *)

Definition ex_movies : list movie_row :=
  [MovieHeader; MovieRow 1 "A"; MovieRow 2 "B"; MovieRow 3 "C"].

Definition ex_training : list rating_row :=
  [RatingHeader; RatingRow 1 1 5; RatingRow 1 2 1;
   RatingRow 2 1 4; RatingRow 2 2 2; RatingRow 2 3 3].

Definition ex_state : Movie_Recommendations :=
  match init ex_movies ex_training with
  | Return s => s
  | Raise _ => {| movie_dict := ∅; user_dict := ∅ |}
  end.

(** Two movies on which the one common rater disagrees by 5 points. *)
Definition far_state : Movie_Recommendations :=
  match init [MovieRow 1 "A"; MovieRow 2 "B"]
             [RatingRow 7 1 0; RatingRow 7 2 5] with
  | Return s => s
  | Raise _ => {| movie_dict := ∅; user_dict := ∅ |}
  end.

(** A training file in which user 1 rates movie 1 twice. *)
Definition dup_state : Movie_Recommendations :=
  match init [MovieRow 1 "A"; MovieRow 2 "B"]
             [RatingRow 1 1 5; RatingRow 1 1 4; RatingRow 1 2 3;
              RatingRow 2 1 1; RatingRow 2 2 1] with
  | Return s => s
  | Raise _ => {| movie_dict := ∅; user_dict := ∅ |}
  end.

(** A catalog with a movie nobody has rated. *)
Definition cold_state : Movie_Recommendations :=
  match init [MovieRow 1 "A"; MovieRow 2 "B"] [RatingRow 1 1 4] with
  | Return s => s
  | Raise _ => {| movie_dict := ∅; user_dict := ∅ |}
  end.

(** [int] and [float] on the fields of the example files. *)
Definition ex_int (x : string) : option Z :=
  if decide (x = "1") then Some 1%Z
  else if decide (x = "2") then Some 2%Z
  else if decide (x = "3") then Some 3%Z
  else None.

Definition ex_float (x : string) : option Q :=
  if decide (x = "4.0") then Some 4 else None.

(** ** Auxiliary descriptions used in the proofs *)

(** The (user, movie) pairs of the data rows of a ratings file. *)
Definition rated_pairs (rows : list rating_row) : list (Z * Z) :=
  omap (fun row => match row with
                   | RatingHeader => None
                   | RatingRow userId movieId _ => Some (userId, movieId)
                   end) rows.

(** A catalog right after the movie file was read: no raters, empty caches. *)
Definition fresh (movie_dict : movie_store) : Prop :=
  forall k m, movie_dict !! k = Some m -> users m = [] /\ similarities m = ∅.


(** The outcome of [get_similarity] as a function of the store it is called
    on ([fst_get_similarity] proves that it is). *)
Definition similarity_outcome (a b : Z) (user_dict : rating_matrix)
    (movie_dict : movie_store) : outcome (option Q) :=
  match movie_dict !! a with
  | None => Raise KeyError
  | Some ma =>
      if decide (is_Some (movie_dict !! b)) then
        match similarities ma !! b with
        | Some v => Return (Some v)
        | None =>
            match compute_similarity ma b movie_dict user_dict with
            | Return v => Return (Some v)
            | Raise BadInputError => Return None
            | Raise e => Raise e
            end
        end
      else Return None
  end.

(** The store after [a] and [b] cached [v] for each other. *)
Definition cached_both (movie_dict : movie_store) (a b : Z) (ma mb : Movie)
    (v : Q) : movie_store :=
  <[b := set_similarity mb (id ma) v]> (<[a := set_similarity ma b v]> movie_dict).

(** ** What the input files say *)

(** The title of the last row of the movie file with a given id. *)
Fixpoint last_title (rows : list movie_row) (k : Z) : option string :=
  match rows with
  | [] => None
  | row :: rest =>
      match last_title rest k with
      | Some t => Some t
      | None =>
          match row with
          | MovieHeader => None
          | MovieRow movieId t => if decide (movieId = k) then Some t else None
          end
      end
  end.

(** The rating of the last row of a ratings file for a (user, movie) pair. *)
Fixpoint last_rating (rows : list rating_row) (u m : Z) : option Q :=
  match rows with
  | [] => None
  | row :: rest =>
      match last_rating rest u m with
      | Some r => Some r
      | None =>
          match row with
          | RatingHeader => None
          | RatingRow userId movieId rating =>
              if decide (userId = u /\ movieId = m) then Some rating else None
          end
      end
  end.

(** The users of the rows of a ratings file for one movie, in file order. *)
Definition file_raters (rows : list rating_row) (m : Z) : list Z :=
  omap (fun row => match row with
                   | RatingHeader => None
                   | RatingRow userId movieId _ =>
                       if decide (movieId = m) then Some userId else None
                   end) rows.

(** The data rows of a ratings file: (user, movie, rating). *)
Definition data_rows (rows : list rating_row) : list (Z * Z * Q) :=
  omap (fun row => match row with
                   | RatingHeader => None
                   | RatingRow userId movieId rating =>
                       Some (userId, movieId, rating)
                   end) rows.

(** [m.users] extended by more raters. *)
Definition add_raters (us : list Z) (m : Movie) : Movie :=
  {| id := id m; title := title m; users := users m ++ us;
     similarities := similarities m |}.


(** The script under [if __name__ == "__main__"], without its printing: the
    two lists it hands to [correlation]. *)
Definition main_lists (movie_rows : list movie_row)
    (training_rows test_rows : list rating_row) : outcome (list Q * list Q) :=
  let? movie_recs := init movie_rows training_rows in
  let? rating_predictions := fst (predict_ratings movie_recs test_rows) in
  let predicted := (fun rating : prediction => snd (fst rating)) <$> rating_predictions in
  let actual := (fun rating : prediction => snd rating) <$> rating_predictions in
  Return (predicted, actual).

Definition main (pearsonr : list Q -> list Q -> outcome (Q * Q))
    (movie_rows : list movie_row) (training_rows test_rows : list rating_row)
  : outcome Q :=
  let? lists := main_lists movie_rows training_rows test_rows in
  correlation pearsonr (fst lists) (snd lists).

(** The title the catalog holds for a movie id (empty for an unknown id). *)
Definition title_of (s : Movie_Recommendations) (m : Z) : string :=
  default "" (title <$> movie_dict s !! m).

(** The fields of a movie object that are not its cache. *)
Definition identity_of (m : Movie) : Z * string * list Z :=
  (id m, title m, users m).


(** A value is what the formula gives for a pair from one of its sides. *)
Definition formula_value (s : Movie_Recommendations) (a b : Z) (v : Q) : Prop :=
  v = similarity_formula s a b \/ v = similarity_formula s b a.

(** A data row of a test file names a known user and a catalog movie. *)
Definition row_known (s : Movie_Recommendations) (d : Z * Z * Q) : Prop :=
  is_Some (user_dict s !! fst (fst d)) /\ is_Some (movie_dict s !! snd (fst d)).

(** The states reached from a given state by calls. *)
Inductive reachable_from (s0 : Movie_Recommendations)
  : Movie_Recommendations -> Prop :=
| from_here : reachable_from s0 s0
| from_call s c : reachable_from s0 s -> reachable_from s0 (after s c).

(** * The methods on binary64 floats

    The definitions above compute with exact rationals, which is faithful for
    every statement about control flow, about the caches and about which
    exception ends a call.  What a method returns as a number is a double:
    module [F64] is the same code with ratings and similarities as binary64
    floats ([PrimFloat.float], the IEEE 754 operations with rounding to
    nearest), and carries the statements about computed values.

    - [a - b], [a * b], [a / b], [abs(x)] and [==] on floats are the IEEE
      operations; Python's [+=] on the totals of [predict_rating] is the IEEE
      addition, in the order of the loop.
    - The builtin [sum] is the interpreter's: it returns some double for a
      list of doubles (CPython up to 3.11 adds from left to right, later
      versions compensate the rounding errors), so the methods are
      parametric in it ([Builtins]); [sum_left_to_right] is the first
      reading.
    - [x / len(l)] raises [ZeroDivisionError] exactly when the list is empty,
      and divides by the length converted to a double otherwise. *)

Module F64.

Abbreviation f64 := PrimFloat.float.

(** What the program takes from the interpreter. *)
Class Builtins : Type := { sum : list f64 -> f64 }.

(** [sum] adding from left to right, starting from 0. *)
Definition sum_left_to_right : Builtins :=
  {| sum := fun l => fold_left PrimFloat.add l 0%float |}.

(** [len(l)] converted to a float (lengths are below 2^63). *)
Definition len {A} (l : list A) : f64 :=
  PrimFloat.of_uint63 (Uint63.of_Z (Z.of_nat (length l))).

(** [class Movie]: [id], [title], [users], [similarities]. *)
Record Movie : Type := mkMovie {
  id : Z;
  title : string;
  users : list Z;
  similarities : gmap Z f64
}.

(** [Movie(id, title)] *)
Definition new_Movie (i : Z) (t : string) : Movie :=
  {| id := i; title := t; users := []; similarities := ∅ |}.

(** [m.users.append(u)] *)
Definition append_user (m : Movie) (u : Z) : Movie :=
  {| id := id m; title := title m; users := users m ++ [u];
     similarities := similarities m |}.

(** [m.similarities[k] = v] *)
Definition set_similarity (m : Movie) (k : Z) (v : f64) : Movie :=
  {| id := id m; title := title m; users := users m;
     similarities := <[k := v]> (similarities m) |}.

Abbreviation movie_store := (gmap Z Movie).
Abbreviation rating_matrix := (gmap Z (PyDict.t f64)).

(** [class Movie_Recommendations]: [movie_dict] and [user_dict]. *)
Record Movie_Recommendations : Type := mkRecs {
  movie_dict : movie_store;
  user_dict : rating_matrix
}.

(** A parsed row of a ratings file, the rating being the double that
    [float(line[2])] returned. *)
Inductive rating_row : Type :=
| RatingHeader
| RatingRow (userId movieId : Z) (rating : f64).

Definition M (A : Type) : Type := movie_store -> outcome A * movie_store.

Definition lift {A} (o : outcome A) : M A := fun st => (o, st).

Definition sbind {A B} (m : M A) (k : A -> M B) : M B :=
  fun st =>
    match m st with
    | (Return a, st') => k a st'
    | (Raise e, st') => (Raise e, st')
    end.

#[local, warnings="-notation-overridden"]
Notation "'let!' x ':=' m 'in' k" := (sbind m (fun x => k))
  (at level 10, x pattern, m at level 100, k at level 200).

(** ** class Movie *)

(** Lines 257-264: the loop that fills [init_movie_ratings] and
    [other_movie_ratings]. *)
Fixpoint collect_ratings (user_dict : rating_matrix) (self_id other_movie_id : Z)
    (viewed_both : list Z) (init_movie_ratings other_movie_ratings : list f64)
  : outcome (list f64 * list f64) :=
  match viewed_both with
  | [] => Return (init_movie_ratings, other_movie_ratings)
  | user :: rest =>
      let? init_rating := subscript user_dict user in
      let? init_rating := subscript_od init_rating self_id in
      let? other_rating := subscript user_dict user in
      let? other_rating := subscript_od other_rating other_movie_id in
      collect_ratings user_dict self_id other_movie_id rest
        (init_movie_ratings ++ [init_rating])
        (other_movie_ratings ++ [other_rating])
  end.

(** Lines 268-269: the [enumerate] loop, [i] being the current index. *)
Fixpoint abs_differences (i : nat) (init_movie_ratings other_movie_ratings : list f64)
    (absolute_difference : list f64) : outcome (list f64) :=
  match init_movie_ratings with
  | [] => Return absolute_difference
  | init_rating :: rest =>
      match other_movie_ratings !! i with
      | None => Raise IndexError
      | Some other_rating =>
          abs_differences (S i) rest other_movie_ratings
            (absolute_difference ++
             [PrimFloat.abs (init_rating - other_rating)%float])
      end
  end.

Section WithBuiltins.
Context {builtins : Builtins}.

(** [Movie.compute_similarity] (it reads, and mutates nothing). *)
Definition compute_similarity (self : Movie) (other_movie_id : Z)
    (movie_dict : movie_store) (user_dict : rating_matrix) : outcome f64 :=
  let? init_movie := subscript movie_dict (id self) in
  let init_movie_users := users init_movie in
  let? other_movie := subscript movie_dict other_movie_id in
  let other_movie_users := users other_movie in
  let viewed_both := users_who_viewed_both init_movie_users other_movie_users in
  if decide (length viewed_both = 0%nat) then Return 0%float
  else
    let? ratings :=
      collect_ratings user_dict (id self) other_movie_id viewed_both [] [] in
    let init_movie_ratings := fst ratings in
    let other_movie_ratings := snd ratings in
    let? absolute_difference :=
      abs_differences 0 init_movie_ratings other_movie_ratings [] in
    let absolute_difference_total := sum absolute_difference in
    let? average_difference :=
      if decide (length init_movie_ratings = 0%nat) then Raise ZeroDivisionError
      else Return (absolute_difference_total / len init_movie_ratings)%float in
    Return (1 - average_difference / 4.5)%float.

(** The body of the [try] block of [Movie.get_similarity].  [self_ref] is the
    key of the object the method is called on. *)
Definition get_similarity_try (self_ref other_movie_id : Z)
    (user_dict : rating_matrix) : M f64 :=
  fun movie_dict =>
    match movie_dict !! self_ref with
    | None => (Raise KeyError, movie_dict)
    | Some self =>
        if decide (is_Some (movie_dict !! other_movie_id)) then
          match similarities self !! other_movie_id with
          | Some similarity => (Return similarity, movie_dict)
          | None =>
              match compute_similarity self other_movie_id movie_dict user_dict with
              | Raise e => (Raise e, movie_dict)
              | Return similarity =>
                  let movie_dict1 :=
                    <[self_ref := set_similarity self other_movie_id similarity]>
                      movie_dict in
                  match movie_dict1 !! other_movie_id with
                  | None => (Raise KeyError, movie_dict1)
                  | Some other =>
                      (Return similarity,
                       <[other_movie_id :=
                           set_similarity other (id self) similarity]> movie_dict1)
                  end
              end
          end
        else (Raise BadInputError, movie_dict)
    end.

(** [Movie.get_similarity]: the [try] block under [except BadInputError],
    whose handler prints a message and lets the call return [None]. *)
Definition get_similarity (self_ref other_movie_id : Z)
    (user_dict : rating_matrix) : M (option f64) :=
  fun movie_dict =>
    match get_similarity_try self_ref other_movie_id user_dict movie_dict with
    | (Return similarity, movie_dict') => (Return (Some similarity), movie_dict')
    | (Raise BadInputError, movie_dict') => (Return None, movie_dict')
    | (Raise e, movie_dict') => (Raise e, movie_dict')
    end.

End WithBuiltins.

(** [float(x)] where [x] is a float or [None]. *)
Definition float (x : option f64) : outcome f64 :=
  match x with
  | Some q => Return q
  | None => Raise TypeError
  end.

(** ** class Movie_Recommendations *)

(** Lines 43-45: reading the movie file. *)
Fixpoint load_movies (rows : list movie_row) (movie_dict : movie_store)
  : movie_store :=
  match rows with
  | [] => movie_dict
  | MovieHeader :: rest => load_movies rest movie_dict
  | MovieRow movieId t :: rest =>
      load_movies rest (<[movieId := new_Movie movieId t]> movie_dict)
  end.

(** Lines 54-63: reading the training ratings. *)
Fixpoint load_ratings (rows : list rating_row) (movie_dict : movie_store)
    (user_dict : rating_matrix) : outcome (movie_store * rating_matrix) :=
  match rows with
  | [] => Return (movie_dict, user_dict)
  | RatingHeader :: rest => load_ratings rest movie_dict user_dict
  | RatingRow userId movieId rating :: rest =>
      let? movie := subscript movie_dict movieId in
      let movie_dict' := <[movieId := append_user movie userId]> movie_dict in
      match user_dict !! userId with
      | Some rating_placeholder =>
          load_ratings rest movie_dict'
            (<[userId := PyDict.set rating_placeholder movieId rating]> user_dict)
      | None =>
          load_ratings rest movie_dict'
            (<[userId := PyDict.set PyDict.empty movieId rating]> user_dict)
      end
  end.

(** [Movie_Recommendations.__init__] on the parsed rows of the two files. *)
Definition init (movie_rows : list movie_row) (training_rows : list rating_row)
  : outcome Movie_Recommendations :=
  let movie_dict := load_movies movie_rows ∅ in
  let? dicts := load_ratings training_rows movie_dict ∅ in
  Return {| movie_dict := fst dicts; user_dict := snd dicts |}.

(** One element of the list [predict_ratings] returns. *)
Definition prediction : Type := Z * string * f64 * f64.

Section WithBuiltins.
Context {builtins : Builtins}.

(** Lines 92-100: the loop over the movies the user rated, with the two
    running totals ([float(rating)] on a float is the float itself). *)
Fixpoint predict_loop (user_id movie_id : Z) (user_dict : rating_matrix)
    (user_rated_movies : list Z) (sim_x_rate_total sim_total : f64)
  : M (f64 * f64) :=
  match user_rated_movies with
  | [] => lift (Return (sim_x_rate_total, sim_total))
  | movie :: rest =>
      let! rating := lift (subscript user_dict user_id) in
      let! rating := lift (subscript_od rating movie) in
      let! similarity := get_similarity movie movie_id user_dict in
      let! similarity := lift (float similarity) in
      predict_loop user_id movie_id user_dict rest
        (sim_x_rate_total + similarity * rating)%float
        (sim_total + similarity)%float
  end.

(** [Movie_Recommendations.predict_rating].  The result is the outcome of the
    call and the object after it. *)
Definition predict_rating (self : Movie_Recommendations) (user_id movie_id : Z)
  : outcome f64 * Movie_Recommendations :=
  if decide (user_dict self !! user_id = None \/ movie_dict self !! movie_id = None)
  then (Raise BadInputError, self)
  else
    match movie_dict self !! movie_id with
    | None => (Raise KeyError, self)
    | Some movie =>
        if decide (user_id ∈ users movie) then
          (let? rating := subscript (user_dict self) user_id in
           subscript_od rating movie_id, self)
        else
          match user_dict self !! user_id with
          | None => (Raise KeyError, self)
          | Some rated =>
              let user_rated_movies := PyDict.keys rated in
              match predict_loop user_id movie_id (user_dict self)
                      user_rated_movies 0%float 0%float (movie_dict self) with
              | (Raise e, movie_dict') =>
                  (Raise e,
                   {| movie_dict := movie_dict'; user_dict := user_dict self |})
              | (Return (sim_x_rate_total, sim_total), movie_dict') =>
                  (Return (if PrimFloat.eqb sim_total 0%float then 2.5%float
                           else (sim_x_rate_total / sim_total)%float),
                   {| movie_dict := movie_dict'; user_dict := user_dict self |})
              end
          end
    end.

(** Lines 126-135: the loop over the rows of the test file. *)
Fixpoint predict_rows (self : Movie_Recommendations) (rows : list rating_row)
    (tuple_list : list prediction)
  : outcome (list prediction) * Movie_Recommendations :=
  match rows with
  | [] => (Return tuple_list, self)
  | RatingHeader :: rest => predict_rows self rest tuple_list
  | RatingRow userId movieId rating :: rest =>
      match subscript (movie_dict self) movieId with
      | Raise e => (Raise e, self)
      | Return movie =>
          match predict_rating self userId movieId with
          | (Raise e, self') => (Raise e, self')
          | (Return predicted, self') =>
              predict_rows self' rest
                (tuple_list ++ [(userId, title movie, predicted, rating)])
          end
      end
  end.

(** [Movie_Recommendations.predict_ratings]: the loop, then
    [print(type(tuple_list[0]))], then [return tuple_list]. *)
Definition predict_ratings (self : Movie_Recommendations) (rows : list rating_row)
  : outcome (list prediction) * Movie_Recommendations :=
  match predict_rows self rows [] with
  | (Raise e, self') => (Raise e, self')
  | (Return tuple_list, self') =>
      match tuple_list !! 0%nat with
      | None => (Raise IndexError, self')
      | Some _ => (Return tuple_list, self')
      end
  end.

End WithBuiltins.

(** ** Observations, invariants and reachable states *)

(** The stored rating of a user for a movie, if any (the rating matrix). *)
Definition rating_of (user_dict : rating_matrix) (user movie : Z) : option f64 :=
  match user_dict !! user with
  | Some rated => PyDict.get rated movie
  | None => None
  end.

(** The stored rating as a number (0 where there is none). *)
Definition stored_rating (user_dict : rating_matrix) (user movie : Z) : f64 :=
  default 0%float (rating_of user_dict user movie).

(** The raters collection of every movie of the catalog. *)
Definition raters (movie_dict : movie_store) : gmap Z (list Z) :=
  users <$> movie_dict.

(** The similarity cache of a movie (empty for a movie that does not exist). *)
Definition cache_of (movie_dict : movie_store) (movie : Z) : gmap Z f64 :=
  match movie_dict !! movie with
  | Some m => similarities m
  | None => ∅
  end.

(** Every movie object is stored under its own [id]. *)
Definition keys_are_ids (movie_dict : movie_store) : Prop :=
  forall k m, movie_dict !! k = Some m -> id m = k.

(** The rating matrix and the raters collections are in lockstep. *)
Definition lockstep (movie_dict : movie_store) (user_dict : rating_matrix) : Prop :=
  forall user movie,
    is_Some (rating_of user_dict user movie) <->
    exists m, movie_dict !! movie = Some m /\ user ∈ users m.

(** A Python dictionary holds each key once. *)
Definition dicts_ok (user_dict : rating_matrix) : Prop :=
  forall user rated, user_dict !! user = Some rated -> NoDup (PyDict.keys rated).

(** A cached similarity is cached on both sides, with one value. *)
Definition cache_symmetric (movie_dict : movie_store) : Prop :=
  forall a b ma v,
    movie_dict !! a = Some ma -> similarities ma !! b = Some v ->
    exists mb, movie_dict !! b = Some mb /\ similarities mb !! a = Some v.

Record wf (s : Movie_Recommendations) : Prop := mkWf {
  wf_ids : keys_are_ids (movie_dict s);
  wf_lockstep : lockstep (movie_dict s) (user_dict s);
  wf_dicts : dicts_ok (user_dict s);
  wf_cache : cache_symmetric (movie_dict s)
}.

(** The calls a client can make on a constructed object. *)
Inductive call : Type :=
| call_predict_rating (user_id movie_id : Z)
| call_predict_ratings (rows : list rating_row)
| call_get_similarity (self_ref other_movie_id : Z)
| call_compute_similarity (self_ref other_movie_id : Z)
| call_correlation (predicted_ratings actual_ratings : list f64).

Section WithBuiltins.
Context {builtins : Builtins}.

(** The object after a call (whether the call returned or raised). *)
Definition after (s : Movie_Recommendations) (c : call) : Movie_Recommendations :=
  match c with
  | call_predict_rating user_id movie_id => snd (predict_rating s user_id movie_id)
  | call_predict_ratings rows => snd (predict_ratings s rows)
  | call_get_similarity self_ref other_movie_id =>
      {| movie_dict :=
           snd (get_similarity self_ref other_movie_id (user_dict s) (movie_dict s));
         user_dict := user_dict s |}
  | call_compute_similarity _ _ => s
  | call_correlation _ _ => s
  end.

(** The states a program can be in: a constructed object, then any calls. *)
Inductive reachable : Movie_Recommendations -> Prop :=
| reachable_init movie_rows training_rows s :
    init movie_rows training_rows = Return s -> reachable s
| reachable_call s c :
    reachable s -> reachable (after s c).

(** What the similarity operation answers in a state: the value returned by
    [get_similarity], [None] when it returns [None] or raises. *)
Definition similarity (s : Movie_Recommendations) (a b : Z) : option f64 :=
  match fst (get_similarity a b (user_dict s) (movie_dict s)) with
  | Return v => v
  | Raise _ => None
  end.

End WithBuiltins.

(** *** The similarity, as the code computes it *)

(** The entries of the first movie's raters list that are raters of the
    second, in list order; a user who occurs twice in the list occurs twice
    here. *)
Definition common_raters (s : Movie_Recommendations) (a b : Z) : list Z :=
  filter (fun u => u ∈ default [] (raters (movie_dict s) !! b))
         (default [] (raters (movie_dict s) !! a)).

(** The absolute difference between a user's ratings of the two movies. *)
Definition abs_diff (s : Movie_Recommendations) (a b : Z) (u : Z) : f64 :=
  PrimFloat.abs (stored_rating (user_dict s) u a - stored_rating (user_dict s) u b)%float.

(** 0.0 without a common entry, else 1 - (sum of the differences / number of
    entries) / 4.5, in double arithmetic. *)
Definition similarity_value {builtins : Builtins} (s : Movie_Recommendations)
    (raters_of_both : list Z) (a b : Z) : f64 :=
  match raters_of_both with
  | [] => 0%float
  | _ :: _ =>
      (1 - (sum (abs_diff s a b <$> raters_of_both) / len raters_of_both) / 4.5)%float
  end.

Definition similarity_formula {builtins : Builtins} (s : Movie_Recommendations) (a b : Z)
  : f64 :=
  similarity_value s (common_raters s a b) a b.

(** *** The similarity, as the specification words it *)



(** *** The prediction, as the specification words it *)

Section WithBuiltins.
Context {builtins : Builtins}.

(** The weight of a rated movie towards a target movie. *)
Definition weight (s : Movie_Recommendations) (target rated_movie : Z) : f64 :=
  default 0%float (similarity s rated_movie target).

(** [weightedSum += similarity * rating]: the terms are added to 0 one after
    the other, in the order of the user's dictionary. *)
Definition weightedSum (s : Movie_Recommendations) (target : Z)
    (rated : PyDict.t f64) : f64 :=
  fold_left PrimFloat.add
    ((fun entry => (weight s target (fst entry) * snd entry)%float) <$> rated)
    0%float.

(** [weightTotal += similarity], in the same order. *)
Definition weightTotal (s : Movie_Recommendations) (target : Z)
    (rated : PyDict.t f64) : f64 :=
  fold_left PrimFloat.add ((fun entry => weight s target (fst entry)) <$> rated)
    0%float.

Definition prediction_formula (s : Movie_Recommendations) (target : Z)
    (rated : PyDict.t f64) : f64 :=
  if PrimFloat.eqb (weightTotal s target rated) 0%float then 2.5%float
  else (weightedSum s target rated / weightTotal s target rated)%float.

(** The outcome of [get_similarity] as a function of the store it is called
    on. *)
Definition similarity_outcome (a b : Z) (user_dict : rating_matrix)
    (movie_dict : movie_store) : outcome (option f64) :=
  match movie_dict !! a with
  | None => Raise KeyError
  | Some ma =>
      if decide (is_Some (movie_dict !! b)) then
        match similarities ma !! b with
        | Some v => Return (Some v)
        | None =>
            match compute_similarity ma b movie_dict user_dict with
            | Return v => Return (Some v)
            | Raise BadInputError => Return None
            | Raise e => Raise e
            end
        end
      else Return None
  end.

End WithBuiltins.

(** A value is what the code computes for a pair from one of its sides. *)
Definition formula_value {builtins : Builtins} (s : Movie_Recommendations)
    (a b : Z) (v : f64) : Prop :=
  v = similarity_formula s a b \/ v = similarity_formula s b a.

(** The store after [a] and [b] cached [v] for each other. *)
Definition cached_both (movie_dict : movie_store) (a b : Z) (ma mb : Movie)
    (v : f64) : movie_store :=
  <[b := set_similarity mb (id ma) v]> (<[a := set_similarity ma b v]> movie_dict).

(** The (user, movie) pairs of the data rows of a ratings file. *)
Definition rated_pairs (rows : list rating_row) : list (Z * Z) :=
  omap (fun row => match row with
                   | RatingHeader => None
                   | RatingRow userId movieId _ => Some (userId, movieId)
                   end) rows.

(** A catalog right after the movie file was read: no raters, empty caches. *)
Definition fresh (movie_dict : movie_store) : Prop :=
  forall k m, movie_dict !! k = Some m -> users m = [] /\ similarities m = ∅.

(** ** Example data *)

Definition state_of (movie_rows : list movie_row) (training_rows : list rating_row)
  : Movie_Recommendations :=
  match init movie_rows training_rows with
  | Return s => s
  | Raise _ => {| movie_dict := ∅; user_dict := ∅ |}
  end.

(** The catalog and ratings of the end-to-end example. *)
Definition ex_training : list rating_row :=
  [RatingHeader; RatingRow 1 1 5; RatingRow 1 2 1;
   RatingRow 2 1 4; RatingRow 2 2 2; RatingRow 2 3 3].

Definition ex_state : Movie_Recommendations := state_of ex_movies ex_training.

(** A training file in which user 1 rates movie 1 twice. *)
Definition dup_movies : list movie_row := [MovieRow 1 "A"; MovieRow 2 "B"].

Definition dup_training : list rating_row :=
  [RatingRow 1 1 5; RatingRow 1 1 4; RatingRow 1 2 3;
   RatingRow 2 1 1; RatingRow 2 2 1].

Definition dup_state : Movie_Recommendations := state_of dup_movies dup_training.

(** Two movies on which the one common rater disagrees by 5 points. *)
Definition far_training : list rating_row := [RatingRow 7 1 0; RatingRow 7 2 5].

Definition far_state : Movie_Recommendations := state_of dup_movies far_training.

(** User 1 rated movies 1 and 2; movie 3 has one rater in common with each,
    who differs by 1 point on movies 1 and 3 and by 8 points on movies 2 and
    3: the two weights are 0.7777777777777778 and -0.7777777777777777. *)
Definition cancel_training : list rating_row :=
  [RatingRow 1 1 5; RatingRow 1 2 1;
   RatingRow 2 1 4; RatingRow 2 3 5;
   RatingRow 3 2 0; RatingRow 3 3 8].

Definition cancel_state : Movie_Recommendations := state_of ex_movies cancel_training.

End F64.

(** * Properties *)

(** ** Insertion-ordered dictionaries *)

Section PyDictFacts.
Context {V : Type}.
Implicit Types (d : PyDict.t V) (k : Z) (v : V).

Lemma get_set_eq d k v : PyDict.get (PyDict.set d k v) k = Some v.
Proof.
  induction d as [|[k' v'] d IH]; simpl.
  - now rewrite decide_True.
  - destruct (decide (k' = k)) as [->|Hne]; simpl.
    + now rewrite decide_True.
    + now rewrite decide_False.
Qed.

Lemma get_set_ne d k k' v : k ≠ k' -> PyDict.get (PyDict.set d k v) k' = PyDict.get d k'.
Proof.
  intros Hne. induction d as [|[k0 v0] d IH]; simpl.
  - now rewrite decide_False.
  - destruct (decide (k0 = k)) as [->|Hne0]; simpl.
    + now rewrite !decide_False.
    + destruct (decide (k0 = k')); auto.
Qed.

Lemma get_Some_keys d k v : PyDict.get d k = Some v -> k ∈ PyDict.keys d.
Proof.
  induction d as [|[k0 v0] d IH]; simpl; [discriminate|].
  destruct (decide (k0 = k)) as [->|Hne]; intros H.
  - apply list_elem_of_here.
  - apply list_elem_of_further, IH, H.
Qed.

Lemma keys_get_Some d k : k ∈ PyDict.keys d -> is_Some (PyDict.get d k).
Proof.
  induction d as [|[k0 v0] d IH]; simpl.
  - intros H. now apply elem_of_nil in H.
  - intros H. destruct (decide (k0 = k)) as [->|Hne]; [eauto|].
    apply elem_of_cons in H as [->|H]; [congruence | auto].
Qed.

(** Every entry met during iteration is an entry of the dictionary, up to
    shadowing by an earlier equal key (which [PyDict.set] never creates). *)
Lemma elem_of_get d k v :
  NoDup (PyDict.keys d) -> (k, v) ∈ d -> PyDict.get d k = Some v.
Proof.
  induction d as [|[k0 v0] d IH]; simpl; intros Hnd Hin.
  - now apply elem_of_nil in Hin.
  - apply NoDup_cons in Hnd as [Hk0 Hnd].
    apply elem_of_cons in Hin as [Heq|Hin].
    + injection Heq as -> ->. now rewrite decide_True.
    + destruct (decide (k0 = k)) as [->|Hne]; [|auto].
      exfalso. apply Hk0.
      apply (list_elem_of_fmap_2 fst) in Hin. exact Hin.
Qed.

Lemma keys_set_NoDup d k v : NoDup (PyDict.keys d) -> NoDup (PyDict.keys (PyDict.set d k v)).
Proof.
  induction d as [|[k0 v0] d IH]; simpl; intros Hnd.
  - apply NoDup_singleton.
  - apply NoDup_cons in Hnd as [Hk0 Hnd].
    destruct (decide (k0 = k)) as [->|Hne]; simpl.
    + apply NoDup_cons; auto.
    + apply NoDup_cons; split; [|auto].
      intros Hin. apply keys_get_Some in Hin as [w Hw].
      rewrite get_set_ne in Hw by congruence.
      apply get_Some_keys in Hw. auto.
Qed.
End PyDictFacts.

(** ** Numbers *)

Lemma len_cons_nonzero {A} (x : A) (l : list A) : Qeq_bool (len (x :: l)) 0 = false.
Proof.
  unfold len. apply not_true_is_false. intros H.
  apply Qeq_bool_iff in H. unfold Qeq in H. simpl in H. lia.
Qed.

Lemma fold_left_Qplus_acc (l : list Q) (a : Q) :
  fold_left Qplus l a == a + sum l.
Proof.
  unfold sum. revert a. induction l as [|y l IH]; simpl; intros a.
  - ring.
  - rewrite IH, (IH (0 + y)). ring.
Qed.

Lemma sum_cons (x : Q) (l : list Q) : sum (x :: l) == x + sum l.
Proof.
  unfold sum at 1. simpl. rewrite fold_left_Qplus_acc. ring.
Qed.

Lemma sum_all_zero (l : list Q) : Forall (fun x => x == 0) l -> sum l == 0.
Proof.
  induction 1 as [|x l Hx _ IH].
  - reflexivity.
  - rewrite sum_cons, Hx, IH. ring.
Qed.

(** ** [compute_similarity] *)

Section ComputeSimilarity.
Variables (movie_dict : movie_store) (user_dict : rating_matrix).

Lemma subscript_Some {V} (d : gmap Z V) k v : d !! k = Some v -> subscript d k = Return v.
Proof. unfold subscript. now intros ->. Qed.

Lemma collect_ratings_spec self_id other_movie_id viewed_both acc1 acc2 :
  (forall u, u ∈ viewed_both ->
     is_Some (rating_of user_dict u self_id) /\
     is_Some (rating_of user_dict u other_movie_id)) ->
  collect_ratings user_dict self_id other_movie_id viewed_both acc1 acc2 =
  Return (acc1 ++ ((fun u => stored_rating user_dict u self_id) <$> viewed_both),
          acc2 ++ ((fun u => stored_rating user_dict u other_movie_id) <$> viewed_both)).
Proof.
  revert acc1 acc2.
  induction viewed_both as [|u l IH]; intros acc1 acc2 Hall; simpl.
  - now rewrite !app_nil_r.
  - destruct (Hall u) as [[r1 Hr1] [r2 Hr2]]; [apply list_elem_of_here|].
    unfold stored_rating. rewrite Hr1, Hr2. simpl.
    unfold rating_of in Hr1, Hr2. unfold subscript, subscript_od.
    destruct (user_dict !! u) as [rated|]; [|discriminate]. simpl.
    rewrite Hr1. simpl. rewrite Hr2. simpl.
    rewrite IH.
    + now rewrite <- !app_assoc.
    + intros u' Hu'. apply Hall. now apply list_elem_of_further.
Qed.

Lemma abs_differences_spec l1 : forall l2 done acc,
  length l1 = length l2 ->
  abs_differences (length done) l1 (done ++ l2) acc =
  Return (acc ++ zip_with (fun x y => Qabs (x - y)) l1 l2).
Proof.
  induction l1 as [|x l1 IH]; intros [|y l2] done acc Hlen; simpl in *;
    try discriminate.
  - now rewrite app_nil_r.
  - rewrite lookup_app_r by lia. rewrite Nat.sub_diag. simpl.
    replace (S (length done)) with (length (done ++ [y]))
      by (rewrite length_app; simpl; lia).
    replace (done ++ y :: l2) with ((done ++ [y]) ++ l2)
      by now rewrite <- app_assoc.
    rewrite IH by lia. now rewrite <- app_assoc.
Qed.

Lemma abs_differences_0 l1 l2 :
  length l1 = length l2 ->
  abs_differences 0 l1 l2 [] = Return (zip_with (fun x y => Qabs (x - y)) l1 l2).
Proof. intros Hlen. exact (abs_differences_spec l1 l2 [] [] Hlen). Qed.

Lemma zip_with_fmap_same {A B C D} (f : B -> C -> D) (g : A -> B) (h : A -> C) l :
  zip_with f (g <$> l) (h <$> l) = (fun a => f (g a) (h a)) <$> l.
Proof. induction l as [|a l IH]; simpl; [reflexivity | f_equal; exact IH]. Qed.

(** The closed form of what [compute_similarity] returns when both movies are
    in the store and each common rater has both ratings stored. *)
Lemma compute_similarity_closed (self : Movie) other_movie_id init_movie other_movie :
  movie_dict !! id self = Some init_movie ->
  movie_dict !! other_movie_id = Some other_movie ->
  (forall u, u ∈ users init_movie -> u ∈ users other_movie ->
     is_Some (rating_of user_dict u (id self)) /\
     is_Some (rating_of user_dict u other_movie_id)) ->
  let both := users_who_viewed_both (users init_movie) (users other_movie) in
  let diffs :=
    (fun u => Qabs (stored_rating user_dict u (id self) -
                    stored_rating user_dict u other_movie_id)) <$> both in
  compute_similarity self other_movie_id movie_dict user_dict =
  Return (match both with
          | [] => 0
          | _ :: _ => 1 - (sum diffs / len both) / (9 # 2)
          end).
Proof.
  intros Hself Hother Hrated both diffs.
  unfold compute_similarity.
  rewrite (subscript_Some _ _ _ Hself), (subscript_Some _ _ _ Hother). simpl.
  fold both.
  destruct (decide (length both = 0%nat)) as [Hlen|Hlen].
  - destruct both; [reflexivity | discriminate].
  - rewrite collect_ratings_spec.
    2:{ intros u Hu. apply list_elem_of_filter in Hu as [Hu2 Hu1]. auto. }
    simpl.
    rewrite abs_differences_0 by now rewrite !length_fmap.
    simpl. rewrite zip_with_fmap_same. fold diffs.
    destruct both as [|u0 both'] eqn:Hboth; [done|].
    unfold true_div.
    replace (len ((fun u => stored_rating user_dict u (id self)) <$> u0 :: both'))
      with (len (u0 :: both')) by (unfold len; now rewrite length_fmap).
    rewrite len_cons_nonzero. reflexivity.
Qed.

(** [compute_similarity] reads the store only through the raters lists. *)
Lemma compute_similarity_raters (self self' : Movie) other_movie_id movie_dict' :
  id self' = id self ->
  raters movie_dict' = raters movie_dict ->
  compute_similarity self' other_movie_id movie_dict' user_dict =
  compute_similarity self other_movie_id movie_dict user_dict.
Proof.
  intros Hid Hraters. unfold compute_similarity. rewrite Hid.
  assert (Hl : forall k, users <$> (movie_dict' !! k) = users <$> (movie_dict !! k)).
  { intros k. unfold raters in Hraters. now rewrite <- !lookup_fmap, Hraters. }
  unfold subscript.
  pose proof (Hl (id self)) as H1. pose proof (Hl other_movie_id) as H2.
  destruct (movie_dict' !! id self) as [m1'|], (movie_dict !! id self) as [m1|];
    simpl in H1; try discriminate; [|reflexivity].
  injection H1 as H1. simpl.
  destruct (movie_dict' !! other_movie_id) as [m2'|],
           (movie_dict !! other_movie_id) as [m2|];
    simpl in H2; try discriminate; [|reflexivity].
  injection H2 as H2. simpl. now rewrite H1, H2.
Qed.
End ComputeSimilarity.

(** ** [get_similarity] *)

Section GetSimilarity.
Variable user_dict : rating_matrix.
Implicit Types (movie_dict : movie_store) (a b : Z).

(** A cache hit: the cached value is returned and nothing is written. *)
Lemma get_similarity_cached movie_dict a b ma v :
  movie_dict !! a = Some ma -> is_Some (movie_dict !! b) ->
  similarities ma !! b = Some v ->
  get_similarity a b user_dict movie_dict = (Return (Some v), movie_dict).
Proof.
  intros Ha Hb Hv. unfold get_similarity, get_similarity_try.
  rewrite Ha. rewrite decide_True by exact Hb. now rewrite Hv.
Qed.

(** A cache miss: the computed value is written on both sides and returned. *)
Lemma get_similarity_computed movie_dict a b ma mb v :
  movie_dict !! a = Some ma ->
  <[a := set_similarity ma b v]> movie_dict !! b = Some mb ->
  similarities ma !! b = None ->
  compute_similarity ma b movie_dict user_dict = Return v ->
  get_similarity a b user_dict movie_dict =
  (Return (Some v), cached_both movie_dict a b ma mb v).
Proof.
  intros Ha Hb Hmiss Hv. unfold get_similarity, get_similarity_try, cached_both.
  rewrite Ha. rewrite decide_True.
  - rewrite Hmiss, Hv. simpl. now rewrite Hb.
  - destruct (decide (a = b)) as [->|Hne]; [eauto|].
    rewrite lookup_insert_ne in Hb by done. eauto.
Qed.

(** The other movie is not in the catalog: the exception raised in the
    [try] block is caught, and the call returns [None]. *)
Lemma get_similarity_unknown movie_dict a b ma :
  movie_dict !! a = Some ma -> movie_dict !! b = None ->
  get_similarity a b user_dict movie_dict = (Return None, movie_dict).
Proof.
  intros Ha Hb. unfold get_similarity, get_similarity_try.
  rewrite Ha. rewrite decide_False; [reflexivity|].
  rewrite Hb. intros [? ?]. discriminate.
Qed.

(** The two ways a call can leave the store. *)
Lemma get_similarity_cases movie_dict a b :
  snd (get_similarity a b user_dict movie_dict) = movie_dict \/
  exists ma mb v,
    movie_dict !! a = Some ma /\
    <[a := set_similarity ma b v]> movie_dict !! b = Some mb /\
    similarities ma !! b = None /\
    compute_similarity ma b movie_dict user_dict = Return v /\
    get_similarity a b user_dict movie_dict =
    (Return (Some v), cached_both movie_dict a b ma mb v).
Proof.
  unfold get_similarity, get_similarity_try.
  destruct (movie_dict !! a) as [ma|] eqn:Ha; [|now left].
  destruct (decide (is_Some (movie_dict !! b))) as [Hb|Hb]; [|now left].
  destruct (similarities ma !! b) as [v|] eqn:Hv; [now left|].
  destruct (compute_similarity ma b movie_dict user_dict) as [v|e] eqn:Hc.
  2:{ left. now destruct e. }
  simpl.
  destruct (<[a := set_similarity ma b v]> movie_dict !! b) as [mb|] eqn:Hmb.
  - right. exists ma, mb, v. auto.
  - exfalso. destruct (decide (a = b)) as [->|Hne].
    + rewrite lookup_insert_eq in Hmb. discriminate.
    + rewrite lookup_insert_ne in Hmb by done.
      rewrite Hmb in Hb. now destruct Hb.
Qed.

Lemma fst_get_similarity movie_dict a b :
  fst (get_similarity a b user_dict movie_dict) =
  similarity_outcome a b user_dict movie_dict.
Proof.
  unfold get_similarity, get_similarity_try, similarity_outcome.
  destruct (movie_dict !! a) as [ma|] eqn:Ha; [|reflexivity].
  destruct (decide (is_Some (movie_dict !! b))) as [Hb|Hb]; [|reflexivity].
  destruct (similarities ma !! b) as [v|] eqn:Hv; [reflexivity|].
  destruct (compute_similarity ma b movie_dict user_dict) as [v|e] eqn:Hc.
  2:{ now destruct e. }
  simpl.
  destruct (<[a := set_similarity ma b v]> movie_dict !! b) as [mb|] eqn:Hmb;
    [reflexivity|].
  exfalso. destruct (decide (a = b)) as [->|Hne].
  - rewrite lookup_insert_eq in Hmb. discriminate.
  - rewrite lookup_insert_ne in Hmb by done.
    rewrite Hmb in Hb. now destruct Hb.
Qed.

(** *** What a call leaves unchanged *)

Lemma raters_cached_both movie_dict a b ma mb v :
  movie_dict !! a = Some ma ->
  <[a := set_similarity ma b v]> movie_dict !! b = Some mb ->
  raters (cached_both movie_dict a b ma mb v) = raters movie_dict.
Proof.
  intros Ha Hb. unfold raters, cached_both. apply map_eq. intros k.
  rewrite !lookup_fmap.
  destruct (decide (b = k)) as [<-|Hbk].
  - rewrite lookup_insert_eq. simpl.
    destruct (decide (a = b)) as [->|Hab].
    + rewrite lookup_insert_eq in Hb. injection Hb as <-. now rewrite Ha.
    + rewrite lookup_insert_ne in Hb by done. now rewrite Hb.
  - rewrite lookup_insert_ne by done.
    destruct (decide (a = k)) as [<-|Hak].
    + rewrite lookup_insert_eq. now rewrite Ha.
    + now rewrite lookup_insert_ne by done.
Qed.

Lemma get_similarity_raters movie_dict a b :
  raters (snd (get_similarity a b user_dict movie_dict)) = raters movie_dict.
Proof.
  destruct (get_similarity_cases movie_dict a b)
    as [->|(ma & mb & v & Ha & Hb & _ & _ & ->)]; [reflexivity|].
  simpl. now apply raters_cached_both.
Qed.

Lemma raters_lookup movie_dict k :
  raters movie_dict !! k = users <$> (movie_dict !! k).
Proof. unfold raters. apply lookup_fmap. Qed.

Lemma raters_is_Some movie_dict movie_dict' k :
  raters movie_dict' = raters movie_dict ->
  is_Some (movie_dict' !! k) <-> is_Some (movie_dict !! k).
Proof.
  intros H. rewrite <- !(fmap_is_Some users), <- !raters_lookup. now rewrite H.
Qed.

Lemma keys_are_ids_cached_both movie_dict a b ma mb v :
  keys_are_ids movie_dict ->
  movie_dict !! a = Some ma ->
  <[a := set_similarity ma b v]> movie_dict !! b = Some mb ->
  keys_are_ids (cached_both movie_dict a b ma mb v).
Proof.
  intros Hids Ha Hb k m. unfold cached_both.
  assert (Hmb : id mb = b).
  { destruct (decide (a = b)) as [->|Hab].
    - rewrite lookup_insert_eq in Hb. injection Hb as <-. simpl. eauto.
    - rewrite lookup_insert_ne in Hb by done. eauto. }
  destruct (decide (b = k)) as [<-|Hbk].
  - rewrite lookup_insert_eq. intros [= <-]. exact Hmb.
  - rewrite lookup_insert_ne by done.
    destruct (decide (a = k)) as [<-|Hak].
    + rewrite lookup_insert_eq. intros [= <-]. simpl. eauto.
    + rewrite lookup_insert_ne by done. eauto.
Qed.

Lemma get_similarity_keys_are_ids movie_dict a b :
  keys_are_ids movie_dict ->
  keys_are_ids (snd (get_similarity a b user_dict movie_dict)).
Proof.
  intros Hids.
  destruct (get_similarity_cases movie_dict a b)
    as [->|(ma & mb & v & Ha & Hb & _ & _ & ->)]; [exact Hids|].
  simpl. now apply keys_are_ids_cached_both.
Qed.
End GetSimilarity.

Section Invariants.
Variable user_dict : rating_matrix.
Implicit Types (movie_dict : movie_store) (a b : Z).

Lemma lockstep_raters movie_dict movie_dict' :
  raters movie_dict' = raters movie_dict ->
  lockstep movie_dict user_dict -> lockstep movie_dict' user_dict.
Proof.
  intros Hr Hl user movie. rewrite (Hl user movie).
  assert (Hk : users <$> (movie_dict' !! movie) = users <$> (movie_dict !! movie))
    by now rewrite <- !raters_lookup, Hr.
  split; intros (m & Hm & Hu).
  - rewrite Hm in Hk. simpl in Hk.
    destruct (movie_dict' !! movie) as [m'|]; [|discriminate].
    injection Hk as Hk. exists m'. split; [reflexivity | now rewrite Hk].
  - rewrite Hm in Hk. simpl in Hk.
    destruct (movie_dict !! movie) as [m'|]; [|discriminate].
    injection Hk as Hk. exists m'. split; [reflexivity | now rewrite <- Hk].
Qed.

Lemma cache_symmetric_cached_both movie_dict a b ma mb v :
  keys_are_ids movie_dict -> cache_symmetric movie_dict ->
  movie_dict !! a = Some ma ->
  <[a := set_similarity ma b v]> movie_dict !! b = Some mb ->
  cache_symmetric (cached_both movie_dict a b ma mb v).
Proof.
  intros Hids Hsym Ha Hb. pose proof (Hids _ _ Ha) as Hida.
  unfold cached_both. rewrite Hida.
  destruct (decide (a = b)) as [->|Hab].
  - (* one movie: a single object, written twice *)
    rewrite lookup_insert_eq in Hb. injection Hb as <-.
    rewrite insert_insert_eq.
    intros x y mx w Hx Hw.
    destruct (decide (b = x)) as [<-|Hbx].
    + rewrite lookup_insert_eq in Hx. injection Hx as <-. simpl in Hw.
      destruct (decide (b = y)) as [<-|Hby].
      * rewrite lookup_insert_eq. eexists. split; [reflexivity|exact Hw].
      * rewrite !lookup_insert_ne in Hw by done.
        destruct (Hsym _ _ _ _ Ha Hw) as (my & Hy & Hyw).
        exists my. now rewrite lookup_insert_ne by done.
    + rewrite lookup_insert_ne in Hx by done.
      destruct (Hsym _ _ _ _ Hx Hw) as (my & Hy & Hyw).
      destruct (decide (b = y)) as [<-|Hby].
      * rewrite lookup_insert_eq. eexists. split; [reflexivity|]. simpl.
        rewrite Ha in Hy. injection Hy as <-.
        now rewrite !lookup_insert_ne by done.
      * exists my. now rewrite lookup_insert_ne by done.
  - rewrite lookup_insert_ne in Hb by done.
    intros x y mx w Hx Hw.
    destruct (decide (b = x)) as [<-|Hbx].
    + rewrite lookup_insert_eq in Hx. injection Hx as <-. simpl in Hw.
      destruct (decide (a = y)) as [<-|Hay].
      * rewrite lookup_insert_eq in Hw. injection Hw as <-.
        rewrite lookup_insert_ne, lookup_insert_eq by done.
        eexists. split; [reflexivity|]. simpl. now rewrite lookup_insert_eq.
      * rewrite lookup_insert_ne in Hw by done.
        destruct (Hsym _ _ _ _ Hb Hw) as (my & Hy & Hyw).
        destruct (decide (b = y)) as [<-|Hby].
        -- rewrite lookup_insert_eq. eexists. split; [reflexivity|]. simpl.
           rewrite Hb in Hy. injection Hy as <-.
           now rewrite lookup_insert_ne by done.
        -- exists my. now rewrite !lookup_insert_ne by done.
    + rewrite lookup_insert_ne in Hx by done.
      destruct (decide (a = x)) as [<-|Hax].
      * rewrite lookup_insert_eq in Hx. injection Hx as <-. simpl in Hw.
        destruct (decide (b = y)) as [<-|Hby].
        -- rewrite lookup_insert_eq in Hw. injection Hw as <-.
           rewrite lookup_insert_eq.
           eexists. split; [reflexivity|]. simpl. now rewrite lookup_insert_eq.
        -- rewrite lookup_insert_ne in Hw by done.
           destruct (Hsym _ _ _ _ Ha Hw) as (my & Hy & Hyw).
           rewrite lookup_insert_ne by done.
           destruct (decide (a = y)) as [<-|Hay].
           ++ rewrite lookup_insert_eq. eexists. split; [reflexivity|]. simpl.
              rewrite Ha in Hy. injection Hy as <-.
              now rewrite lookup_insert_ne by done.
           ++ exists my. now rewrite lookup_insert_ne by done.
      * rewrite lookup_insert_ne in Hx by done.
        destruct (Hsym _ _ _ _ Hx Hw) as (my & Hy & Hyw).
        destruct (decide (b = y)) as [<-|Hby].
        -- rewrite lookup_insert_eq. eexists. split; [reflexivity|]. simpl.
           rewrite Hb in Hy. injection Hy as <-.
           now rewrite lookup_insert_ne by done.
        -- rewrite lookup_insert_ne by done.
           destruct (decide (a = y)) as [<-|Hay].
           ++ rewrite lookup_insert_eq. eexists. split; [reflexivity|]. simpl.
              rewrite Ha in Hy. injection Hy as <-.
              now rewrite lookup_insert_ne by done.
           ++ exists my. now rewrite lookup_insert_ne by done.
Qed.

Lemma get_similarity_cache_symmetric movie_dict a b :
  keys_are_ids movie_dict -> cache_symmetric movie_dict ->
  cache_symmetric (snd (get_similarity a b user_dict movie_dict)).
Proof.
  intros Hids Hsym.
  destruct (get_similarity_cases user_dict movie_dict a b)
    as [->|(ma & mb & v & Ha & Hb & _ & _ & ->)]; [exact Hsym|].
  simpl. now apply cache_symmetric_cached_both.
Qed.
End Invariants.

Section SimilarityValue.
Variable user_dict : rating_matrix.
Implicit Types (movie_dict : movie_store) (a b : Z).

(** In a well-formed store [compute_similarity] returns, with the value of
    the closed form. *)
Lemma compute_similarity_wf movie_dict a b ma mb :
  keys_are_ids movie_dict -> lockstep movie_dict user_dict ->
  movie_dict !! a = Some ma -> movie_dict !! b = Some mb ->
  let both := users_who_viewed_both (users ma) (users mb) in
  compute_similarity ma b movie_dict user_dict =
  Return (match both with
          | [] => 0
          | _ :: _ =>
              1 - (sum ((fun u => Qabs (stored_rating user_dict u a -
                                        stored_rating user_dict u b)) <$> both)
                   / len both) / (9 # 2)
          end).
Proof.
  intros Hids Hl Ha Hb both.
  pose proof (Hids _ _ Ha) as Hida.
  rewrite <- Hida in Ha.
  rewrite (compute_similarity_closed movie_dict user_dict ma b ma mb Ha Hb).
  - now rewrite Hida.
  - intros u Hua Hub. rewrite Hida in *. split; apply Hl; eauto.
Qed.

Lemma similarity_outcome_returns movie_dict a b :
  keys_are_ids movie_dict -> lockstep movie_dict user_dict ->
  is_Some (movie_dict !! a) -> is_Some (movie_dict !! b) ->
  exists v, similarity_outcome a b user_dict movie_dict = Return (Some v).
Proof.
  intros Hids Hl [ma Ha] [mb Hb]. unfold similarity_outcome.
  rewrite Ha. rewrite decide_True by eauto.
  destruct (similarities ma !! b) as [v|]; [eauto|].
  rewrite (compute_similarity_wf movie_dict a b ma mb) by assumption. eauto.
Qed.

(** The answer for [(a, b)] does not change when a call for [(k, o)] with
    [o <> a] fills the cache. *)
Lemma similarity_outcome_stable movie_dict k o a b :
  a <> o ->
  similarity_outcome a b user_dict (snd (get_similarity k o user_dict movie_dict)) =
  similarity_outcome a b user_dict movie_dict.
Proof.
  intros Hao.
  destruct (get_similarity_cases user_dict movie_dict k o)
    as [->|(mk & mo & v & Hk & Ho & Hmiss & Hv & Heq)]; [reflexivity|].
  assert (Hfst : similarity_outcome k o user_dict movie_dict = Return (Some v))
    by now rewrite <- fst_get_similarity, Heq.
  rewrite Heq. simpl.
  pose proof (raters_cached_both movie_dict k o mk mo v Hk Ho) as Hr.
  unfold similarity_outcome at 1 2.
  unfold cached_both at 1. rewrite lookup_insert_ne by done.
  destruct (decide (k = a)) as [->|Hka].
  - rewrite lookup_insert_eq, Hk.
    destruct (decide (is_Some (cached_both movie_dict a o mk mo v !! b))) as [Hb|Hb];
      (destruct (decide (is_Some (movie_dict !! b))) as [Hb'|Hb'];
        [|try reflexivity]);
      try (exfalso; apply (raters_is_Some _ _ b Hr) in Hb; tauto);
      try (exfalso; apply (raters_is_Some _ _ b Hr) in Hb'; tauto).
    simpl. destruct (decide (o = b)) as [<-|Hob].
    + rewrite lookup_insert_eq, Hmiss, Hv. reflexivity.
    + rewrite lookup_insert_ne by done.
      destruct (similarities mk !! b); [reflexivity|].
      now rewrite (compute_similarity_raters movie_dict user_dict mk
                     (set_similarity mk o v) b _ eq_refl Hr).
  - rewrite lookup_insert_ne by done.
    destruct (movie_dict !! a) as [ma|]; [|reflexivity].
    destruct (decide (is_Some (cached_both movie_dict k o mk mo v !! b))) as [Hb|Hb];
      (destruct (decide (is_Some (movie_dict !! b))) as [Hb'|Hb'];
        [|try reflexivity]);
      try (exfalso; apply (raters_is_Some _ _ b Hr) in Hb; tauto);
      try (exfalso; apply (raters_is_Some _ _ b Hr) in Hb'; tauto).
    destruct (similarities ma !! b); [reflexivity|].
    now rewrite (compute_similarity_raters movie_dict user_dict ma ma b _ eq_refl Hr).
Qed.
End SimilarityValue.

(** ** [predict_rating] *)

Section PredictLoop.
Variables (user_dict : rating_matrix) (user_id movie_id : Z) (rated : PyDict.t Q).
Hypothesis Hrated : user_dict !! user_id = Some rated.

(** The weight [get_similarity] answers for a rated movie in a store. *)
Let w (movie_dict : movie_store) (movie : Z) : Q :=
  default 0 (match similarity_outcome movie movie_id user_dict movie_dict with
             | Return v => v
             | Raise _ => None
             end).

Let r (movie : Z) : Q := default 0 (PyDict.get rated movie).

(** The loop adds one term to each total per listed movie, in order, with the
    weights [get_similarity] answers in the store the loop starts from. *)
Lemma predict_loop_spec (user_rated_movies : list Z) :
  forall (movie_dict : movie_store) (sim_x_rate_total sim_total : Q),
    keys_are_ids movie_dict -> lockstep movie_dict user_dict ->
    is_Some (movie_dict !! movie_id) ->
    (forall movie, movie ∈ user_rated_movies ->
       is_Some (PyDict.get rated movie) /\ movie <> movie_id) ->
    exists movie_dict',
      predict_loop user_id movie_id user_dict user_rated_movies
        sim_x_rate_total sim_total movie_dict =
      (Return
         (fold_left Qplus ((fun m => w movie_dict m * r m) <$> user_rated_movies)
            sim_x_rate_total,
          fold_left Qplus (w movie_dict <$> user_rated_movies) sim_total),
       movie_dict') /\
      raters movie_dict' = raters movie_dict /\
      keys_are_ids movie_dict' /\
      (cache_symmetric movie_dict -> cache_symmetric movie_dict').
Proof.
  induction user_rated_movies as [|movie rest IH];
    intros movie_dict acc1 acc2 Hids Hl Htarget Hall.
  - exists movie_dict. simpl. auto.
  - destruct (Hall movie) as [[rt Hrt] Hne]; [apply list_elem_of_here|].
    assert (Hknown : is_Some (movie_dict !! movie)).
    { destruct (proj1 (Hl user_id movie)) as (m & Hm & _); [|eauto].
      unfold rating_of. rewrite Hrated. eauto. }
    destruct (similarity_outcome_returns user_dict movie_dict movie movie_id
                Hids Hl Hknown Htarget) as [v Hv].
    set (movie_dict1 :=
           snd (get_similarity movie movie_id user_dict movie_dict)).
    assert (Hcall : get_similarity movie movie_id user_dict movie_dict =
                    (Return (Some v), movie_dict1)).
    { rewrite <- fst_get_similarity in Hv. subst movie_dict1.
      destruct (get_similarity movie movie_id user_dict movie_dict) as [o st].
      simpl in *. now rewrite Hv. }
    pose proof (get_similarity_raters user_dict movie_dict movie movie_id) as Hr1.
    fold movie_dict1 in Hr1.
    destruct (IH movie_dict1 (acc1 + v * rt) (acc2 + v)) as (md' & Hloop & Hr & Hi & Hs).
    + apply get_similarity_keys_are_ids, Hids.
    + exact (lockstep_raters user_dict movie_dict movie_dict1 Hr1 Hl).
    + apply (raters_is_Some _ _ _ Hr1), Htarget.
    + intros m Hm. apply Hall. now apply list_elem_of_further.
    + exists md'. split; [|split; [|split]].
      * simpl. unfold sbind, lift at 1 2. simpl.
        unfold subscript at 1. rewrite Hrated. simpl.
        unfold subscript_od. rewrite Hrt. simpl.
        rewrite Hcall. simpl. rewrite Hloop.
        assert (Hw : forall m, m ∈ rest -> w movie_dict1 m = w movie_dict m).
        { intros m Hm. unfold w, movie_dict1.
          rewrite similarity_outcome_stable; [reflexivity|].
          apply Hall. now apply list_elem_of_further. }
        assert (Hw0 : w movie_dict movie = v) by (unfold w; now rewrite Hv).
        assert (Hr0 : r movie = rt) by (unfold r; now rewrite Hrt).
        rewrite Hw0, Hr0.
        assert (Hl1 : (fun m => w movie_dict1 m * r m) <$> rest =
                      (fun m => w movie_dict m * r m) <$> rest).
        { apply list_fmap_ext. intros _ m Hm%list_elem_of_lookup_2.
          now rewrite Hw. }
        assert (Hl2 : w movie_dict1 <$> rest = w movie_dict <$> rest).
        { apply list_fmap_ext. intros _ m Hm%list_elem_of_lookup_2.
          now apply Hw. }
        now rewrite Hl1, Hl2.
      * now rewrite Hr.
      * exact Hi.
      * intros Hsym. apply Hs.
        apply get_similarity_cache_symmetric; assumption.
Qed.
End PredictLoop.

(** ** What the calls preserve *)

Section Preservation.
Variable P : movie_store -> Prop.
Variable user_dict0 : rating_matrix.
Hypothesis P_get_similarity :
  forall movie_dict a b,
    P movie_dict -> P (snd (get_similarity a b user_dict0 movie_dict)).

Lemma predict_loop_preserves user_id movie_id user_rated_movies :
  forall acc1 acc2 movie_dict,
    P movie_dict ->
    P (snd (predict_loop user_id movie_id user_dict0 user_rated_movies
              acc1 acc2 movie_dict)).
Proof.
  induction user_rated_movies as [|movie rest IH]; intros acc1 acc2 md HP;
    simpl; [exact HP|].
  unfold sbind, lift at 1 2.
  destruct (subscript user_dict0 user_id) as [rated|e]; [|exact HP].
  destruct (subscript_od rated movie) as [rating|e]; [|exact HP].
  pose proof (P_get_similarity md movie movie_id HP) as HP1.
  destruct (get_similarity movie movie_id user_dict0 md) as [[o|e] md1];
    simpl in *; [|exact HP1].
  unfold lift. destruct (float o) as [similarity|e]; [|exact HP1].
  apply IH, HP1.
Qed.

Lemma predict_rating_preserves (s : Movie_Recommendations) user_id movie_id :
  user_dict s = user_dict0 -> P (movie_dict s) ->
  user_dict (snd (predict_rating s user_id movie_id)) = user_dict0 /\
  P (movie_dict (snd (predict_rating s user_id movie_id))).
Proof.
  intros Hud HP. unfold predict_rating.
  destruct (decide _); [now split|].
  destruct (movie_dict s !! movie_id) as [movie|]; [|now split].
  destruct (decide (user_id ∈ users movie)); [now split|].
  destruct (user_dict s !! user_id) as [rated|]; [|now split].
  pose proof (predict_loop_preserves user_id movie_id (PyDict.keys rated)
                0 0 (movie_dict s) HP) as HP'.
  rewrite Hud.
  destruct (predict_loop user_id movie_id user_dict0 (PyDict.keys rated) 0 0
              (movie_dict s)) as [[[t1 t2]|e] md']; simpl in *; now split.
Qed.

Lemma predict_rows_preserves rows :
  forall (s : Movie_Recommendations) tuple_list,
    user_dict s = user_dict0 -> P (movie_dict s) ->
    user_dict (snd (predict_rows s rows tuple_list)) = user_dict0 /\
    P (movie_dict (snd (predict_rows s rows tuple_list))).
Proof.
  induction rows as [|[|userId movieId rating] rest IH]; intros s tl Hud HP;
    simpl; [now split | now apply IH |].
  destruct (subscript (movie_dict s) movieId) as [movie|e]; [|now split].
  destruct (predict_rating_preserves s userId movieId Hud HP) as [Hud1 HP1].
  destruct (predict_rating s userId movieId) as [[predicted|e] s1];
    simpl in *; [|now split].
  now apply IH.
Qed.

Lemma predict_ratings_preserves (s : Movie_Recommendations) rows :
  user_dict s = user_dict0 -> P (movie_dict s) ->
  user_dict (snd (predict_ratings s rows)) = user_dict0 /\
  P (movie_dict (snd (predict_ratings s rows))).
Proof.
  intros Hud HP. unfold predict_ratings.
  destruct (predict_rows_preserves rows s [] Hud HP) as [Hud1 HP1].
  destruct (predict_rows s rows []) as [[tl|e] s1]; simpl in *; [|now split].
  destruct (tl !! 0%nat); now split.
Qed.

Lemma after_preserves (s : Movie_Recommendations) (c : call) :
  user_dict s = user_dict0 -> P (movie_dict s) ->
  user_dict (after s c) = user_dict0 /\ P (movie_dict (after s c)).
Proof.
  intros Hud HP. destruct c as [u m|rows|a b|a b|l1 l2]; simpl.
  - now apply predict_rating_preserves.
  - now apply predict_ratings_preserves.
  - split; [exact Hud|]. rewrite Hud. now apply P_get_similarity.
  - now split.
  - now split.
Qed.
End Preservation.

(** No call changes the rating matrix or any raters collection. *)
Lemma after_frame (s : Movie_Recommendations) (c : call) :
  user_dict (after s c) = user_dict s /\
  raters (movie_dict (after s c)) = raters (movie_dict s).
Proof.
  apply (after_preserves (fun md => raters md = raters (movie_dict s))
           (user_dict s)); [|reflexivity..].
  intros md a b Hmd. now rewrite get_similarity_raters.
Qed.

Lemma after_wf (s : Movie_Recommendations) (c : call) : wf s -> wf (after s c).
Proof.
  intros [Hids Hl Hd Hc].
  destruct (after_frame s c) as [Hud Hr].
  destruct (after_preserves
              (fun md => keys_are_ids md /\ cache_symmetric md)
              (user_dict s)) with (s := s) (c := c) as [_ [Hids' Hc']];
    [|reflexivity|now split|].
  { intros md a b [H1 H2]. split.
    - now apply get_similarity_keys_are_ids.
    - now apply get_similarity_cache_symmetric. }
  split; [exact Hids'| |now rewrite Hud|exact Hc'].
  rewrite Hud. exact (lockstep_raters _ _ _ Hr Hl).
Qed.

(** ** The constructor *)

Lemma load_movies_fresh rows : forall movie_dict,
  keys_are_ids movie_dict -> fresh movie_dict ->
  keys_are_ids (load_movies rows movie_dict) /\ fresh (load_movies rows movie_dict).
Proof.
  induction rows as [|[|movieId t] rest IH]; intros md Hids Hf; simpl;
    [now split | now apply IH |].
  apply IH.
  - intros k m. destruct (decide (movieId = k)) as [<-|Hne].
    + rewrite lookup_insert_eq. now intros [= <-].
    + rewrite lookup_insert_ne by done. apply Hids.
  - intros k m. destruct (decide (movieId = k)) as [<-|Hne].
    + rewrite lookup_insert_eq. now intros [= <-].
    + rewrite lookup_insert_ne by done. apply Hf.
Qed.

Lemma fresh_wf movie_dict :
  keys_are_ids movie_dict -> fresh movie_dict ->
  wf {| movie_dict := movie_dict; user_dict := ∅ |}.
Proof.
  intros Hids Hf. split; simpl.
  - exact Hids.
  - intros user movie. unfold rating_of. rewrite lookup_empty. split.
    + intros [? ?]. discriminate.
    + intros (m & Hm & Hu). destruct (Hf _ _ Hm) as [Hnil _].
      rewrite Hnil in Hu. now apply elem_of_nil in Hu.
  - intros user rated. now rewrite lookup_empty.
  - intros a b ma v Ha Hv. destruct (Hf _ _ Ha) as [_ Hempty].
    rewrite Hempty, lookup_empty in Hv. discriminate.
Qed.

(** One training row keeps the rating matrix and the raters in lockstep. *)
Lemma rating_row_wf movie_dict user_dict userId movieId rating movie :
  wf {| movie_dict := movie_dict; user_dict := user_dict |} ->
  movie_dict !! movieId = Some movie ->
  wf {| movie_dict := <[movieId := append_user movie userId]> movie_dict;
        user_dict :=
          <[userId := PyDict.set (default PyDict.empty (user_dict !! userId))
                        movieId rating]> user_dict |}.
Proof.
  intros [Hids Hl Hd Hc] Hm. simpl in *. split; simpl.
  - intros k m. destruct (decide (movieId = k)) as [<-|Hne].
    + rewrite lookup_insert_eq. intros [= <-]. simpl. eauto.
    + rewrite lookup_insert_ne by done. apply Hids.
  - intros u m. unfold rating_of.
    destruct (decide (userId = u)) as [<-|Hu].
    + rewrite lookup_insert_eq.
      destruct (decide (movieId = m)) as [<-|Hmm].
      * rewrite get_set_eq, lookup_insert_eq. split; [|eauto].
        intros _. eexists. split; [reflexivity|]. simpl.
        apply elem_of_app. right. apply list_elem_of_here.
      * rewrite get_set_ne, lookup_insert_ne by done.
        rewrite <- (Hl userId m). unfold rating_of.
        destruct (user_dict !! userId); simpl; [reflexivity|].
        split; intros [? ?]; discriminate.
    + rewrite lookup_insert_ne by done.
      change (is_Some (rating_of user_dict u m) <->
              exists m0, <[movieId := append_user movie userId]> movie_dict !! m
                         = Some m0 /\ u ∈ users m0).
      rewrite (Hl u m).
      destruct (decide (movieId = m)) as [<-|Hmm].
      * rewrite lookup_insert_eq. split.
        -- intros (m0 & Hm0 & Hin). rewrite Hm in Hm0. injection Hm0 as <-.
           eexists. split; [reflexivity|]. simpl. apply elem_of_app. now left.
        -- intros (m0 & [= <-] & Hin). simpl in Hin.
           apply elem_of_app in Hin as [Hin|Hin]; [eauto|].
           apply list_elem_of_singleton in Hin. congruence.
      * now rewrite lookup_insert_ne by done.
  - intros u rated. destruct (decide (userId = u)) as [<-|Hu].
    + rewrite lookup_insert_eq. intros [= <-]. apply keys_set_NoDup.
      destruct (user_dict !! userId) as [d|] eqn:Hdu; simpl; [eauto|].
      apply NoDup_nil_2.
    + rewrite lookup_insert_ne by done. apply Hd.
  - intros a b ma v Ha Hv.
    assert (Hold : exists ma0, movie_dict !! a = Some ma0 /\
                               similarities ma0 = similarities ma).
    { destruct (decide (movieId = a)) as [<-|Hne].
      - rewrite lookup_insert_eq in Ha. injection Ha as <-. eauto.
      - rewrite lookup_insert_ne in Ha by done. eauto. }
    destruct Hold as (ma0 & Ha0 & Hsim). rewrite <- Hsim in Hv.
    destruct (Hc _ _ _ _ Ha0 Hv) as (mb & Hb & Hbv).
    destruct (decide (movieId = b)) as [<-|Hne].
    + rewrite lookup_insert_eq. eexists. split; [reflexivity|]. simpl.
      rewrite Hm in Hb. now injection Hb as <-.
    + rewrite lookup_insert_ne by done. eauto.
Qed.

Lemma load_ratings_wf rows : forall movie_dict user_dict movie_dict' user_dict',
  wf {| movie_dict := movie_dict; user_dict := user_dict |} ->
  load_ratings rows movie_dict user_dict = Return (movie_dict', user_dict') ->
  wf {| movie_dict := movie_dict'; user_dict := user_dict' |}.
Proof.
  induction rows as [|[|userId movieId rating] rest IH];
    intros md ud md' ud' Hwf; simpl.
  - now intros [= <- <-].
  - now apply IH.
  - unfold subscript. destruct (md !! movieId) as [movie|] eqn:Hm; [|discriminate].
    simpl. pose proof (rating_row_wf md ud userId movieId rating movie Hwf Hm) as H1.
    destruct (ud !! userId) as [d|]; simpl in H1; now apply IH.
Qed.

Lemma init_wf movie_rows training_rows s :
  init movie_rows training_rows = Return s -> wf s.
Proof.
  unfold init. intros H.
  destruct (load_ratings training_rows (load_movies movie_rows ∅) ∅)
    as [[md ud]|e] eqn:Hload; [|discriminate].
  simpl in H. injection H as <-.
  apply (load_ratings_wf _ _ _ _ _) with (2 := Hload).
  destruct (load_movies_fresh movie_rows ∅) as [Hids Hf].
  - intros k m. now rewrite lookup_empty.
  - intros k m. now rewrite lookup_empty.
  - now apply fresh_wf.
Qed.

(** The stored ratings after one training row. *)
Lemma rating_of_row (user_dict : rating_matrix) userId movieId rating u m :
  rating_of (<[userId := PyDict.set (default PyDict.empty (user_dict !! userId))
                           movieId rating]> user_dict) u m =
  if decide (u = userId /\ m = movieId) then Some rating
  else rating_of user_dict u m.
Proof.
  unfold rating_of. destruct (decide (userId = u)) as [<-|Hu].
  - rewrite lookup_insert_eq. destruct (decide (movieId = m)) as [<-|Hm].
    + rewrite get_set_eq. now rewrite decide_True.
    + rewrite get_set_ne by done. rewrite decide_False by (intros [_ ->]; done).
      now destruct (user_dict !! userId).
  - rewrite lookup_insert_ne by done.
    now rewrite decide_False by (intros [-> _]; done).
Qed.

(** A training file without a repeated (user, movie) pair leaves every
    raters list duplicate-free. *)
Lemma load_ratings_NoDup rows : forall movie_dict user_dict movie_dict' user_dict',
  wf {| movie_dict := movie_dict; user_dict := user_dict |} ->
  (forall k m, movie_dict !! k = Some m -> NoDup (users m)) ->
  NoDup (rated_pairs rows) ->
  (forall u m, (u, m) ∈ rated_pairs rows -> rating_of user_dict u m = None) ->
  load_ratings rows movie_dict user_dict = Return (movie_dict', user_dict') ->
  forall k m, movie_dict' !! k = Some m -> NoDup (users m).
Proof.
  induction rows as [|[|userId movieId rating] rest IH];
    intros md ud md' ud' Hwf Hnd Hpairs Hfresh; simpl.
  - now intros [= <- <-].
  - now apply IH.
  - unfold subscript. destruct (md !! movieId) as [movie|] eqn:Hm; [|discriminate].
    simpl.
    pose proof (rating_row_wf md ud userId movieId rating movie Hwf Hm) as Hwf1.
    unfold rated_pairs in Hpairs, Hfresh. simpl in Hpairs, Hfresh.
    fold (rated_pairs rest) in Hpairs, Hfresh.
    apply NoDup_cons in Hpairs as [Hnew Hpairs].
    assert (Hload :
      load_ratings rest (<[movieId := append_user movie userId]> md)
        (<[userId := PyDict.set (default PyDict.empty (ud !! userId))
                       movieId rating]> ud) = Return (md', ud') ->
      forall k m, md' !! k = Some m -> NoDup (users m)).
    { apply IH; [exact Hwf1| |exact Hpairs|].
      - intros k m. destruct (decide (movieId = k)) as [<-|Hne].
        + rewrite lookup_insert_eq. intros [= <-]. simpl.
          apply NoDup_app. split; [eauto|]. split; [|apply NoDup_singleton].
          intros u Hin ->%list_elem_of_singleton.
          destruct (proj2 (wf_lockstep _ Hwf userId movieId)) as [x Hx];
            [simpl; eauto|].
          simpl in Hx. rewrite Hfresh in Hx by apply list_elem_of_here.
          discriminate.
        + rewrite lookup_insert_ne by done. apply Hnd.
      - intros u m Hin. rewrite rating_of_row.
        rewrite decide_False.
        + apply Hfresh. now apply list_elem_of_further.
        + intros [-> ->]. contradiction. }
    destruct (ud !! userId) as [d|]; simpl in Hload; exact Hload.
Qed.

Lemma init_NoDup movie_rows training_rows s :
  init movie_rows training_rows = Return s ->
  NoDup (rated_pairs training_rows) ->
  forall k m, movie_dict s !! k = Some m -> NoDup (users m).
Proof.
  unfold init. intros H Hnd.
  destruct (load_ratings training_rows (load_movies movie_rows ∅) ∅)
    as [[md ud]|e] eqn:Hload; [|discriminate].
  simpl in H. injection H as <-. simpl.
  destruct (load_movies_fresh movie_rows ∅) as [Hids Hf];
    [intros k m; now rewrite lookup_empty..|].
  apply (load_ratings_NoDup training_rows (load_movies movie_rows ∅) ∅ md ud);
    [now apply fresh_wf| |exact Hnd| |exact Hload].
  - intros k m Hk. destruct (Hf k m Hk) as [-> _]. apply NoDup_nil_2.
  - intros u m _. unfold rating_of. now rewrite lookup_empty.
Qed.

Lemma reachable_wf s : reachable s -> wf s.
Proof.
  induction 1 as [mr tr s Hinit|s c _ IH].
  - exact (init_wf mr tr s Hinit).
  - now apply after_wf.
Qed.

(** ** Properties of [predict_rating] *)

Lemma similarity_eq (s : Movie_Recommendations) a b :
  similarity s a b =
  match similarity_outcome a b (user_dict s) (movie_dict s) with
  | Return v => v
  | Raise _ => None
  end.
Proof. unfold similarity. now rewrite fst_get_similarity. Qed.

Lemma no_rating_not_rater (s : Movie_Recommendations) user_id movie_id movie :
  lockstep (movie_dict s) (user_dict s) ->
  movie_dict s !! movie_id = Some movie ->
  rating_of (user_dict s) user_id movie_id = None ->
  user_id ∉ users movie.
Proof.
  intros Hl Hm Hnone Hin.
  destruct (proj2 (Hl user_id movie_id)) as [x Hx]; [eauto|]. congruence.
Qed.

(** The totals of the loop, summed over the keys, are the sums of the
    specification over the entries of the dictionary. *)
Lemma sums_over_entries (f : Z -> Q) (rated : PyDict.t Q) :
  NoDup (PyDict.keys rated) ->
  (fun m => f m * default 0 (PyDict.get rated m)) <$> PyDict.keys rated =
  (fun entry => f (fst entry) * snd entry) <$> rated.
Proof.
  intros Hnd. unfold PyDict.keys. rewrite <- list_fmap_compose.
  apply list_fmap_ext. intros i [m rt] Hi%list_elem_of_lookup_2. simpl.
  now rewrite (elem_of_get rated m rt Hnd Hi).
Qed.

(** The keys the loop runs over are rated movies of the catalog, none of
    them the target. *)
Lemma rated_keys (s : Movie_Recommendations) user_id movie_id rated :
  lockstep (movie_dict s) (user_dict s) ->
  user_dict s !! user_id = Some rated ->
  PyDict.get rated movie_id = None ->
  forall m, m ∈ PyDict.keys rated ->
    is_Some (PyDict.get rated m) /\ m <> movie_id /\ is_Some (movie_dict s !! m).
Proof.
  intros Hl Hu Hnone m Hin.
  assert (Hsome : is_Some (PyDict.get rated m)) by now apply keys_get_Some.
  split; [exact Hsome|]. split.
  - intros ->. destruct Hsome as [x Hx]. congruence.
  - destruct (proj1 (Hl user_id m)) as (mm & Hmm & _); [|eauto].
    unfold rating_of. now rewrite Hu.
Qed.

(** The value [predict_rating] returns for an item the user has not rated. *)
Lemma predict_rating_unrated_value (s : Movie_Recommendations)
    user_id movie_id rated movie :
  wf s ->
  user_dict s !! user_id = Some rated ->
  movie_dict s !! movie_id = Some movie ->
  PyDict.get rated movie_id = None ->
  fst (predict_rating s user_id movie_id) =
  Return (prediction_formula s movie_id rated).
Proof.
  intros [Hids Hl Hd Hc] Hu Hm Hnone.
  pose proof (rated_keys s user_id movie_id rated Hl Hu Hnone) as Hkeys.
  unfold predict_rating.
  rewrite decide_False by (rewrite Hu, Hm; intros [?|?]; discriminate).
  rewrite Hm.
  rewrite decide_False.
  2:{ apply (no_rating_not_rater s user_id movie_id movie Hl Hm).
      unfold rating_of. now rewrite Hu. }
  rewrite Hu.
  destruct (predict_loop_spec (user_dict s) user_id movie_id rated Hu
              (PyDict.keys rated) (movie_dict s) 0 0 Hids Hl
              (ltac:(eauto))) as (md' & Hloop & _).
  { intros m Hin. destruct (Hkeys m Hin) as (? & ? & ?). now split. }
  rewrite Hloop. simpl.
  unfold prediction_formula, weightedSum, weightTotal, sum, weight.
  rewrite (sums_over_entries _ rated (Hd _ _ Hu)).
  unfold PyDict.keys. rewrite <- list_fmap_compose.
  assert (Hext1 :
    (fun entry : Z * Q =>
       default 0 match similarity_outcome (fst entry) movie_id (user_dict s)
                         (movie_dict s) with
                 | Return v => v | Raise _ => None end * snd entry) <$> rated =
    (fun entry => default 0 (similarity s (fst entry) movie_id) * snd entry)
      <$> rated).
  { apply list_fmap_ext. intros _ e _. now rewrite similarity_eq. }
  assert (Hext2 :
    ((fun m => default 0 match similarity_outcome m movie_id (user_dict s)
                               (movie_dict s) with
                         | Return v => v | Raise _ => None end) ∘ fst)
      <$> rated =
    (fun entry => default 0 (similarity s (fst entry) movie_id)) <$> rated).
  { apply list_fmap_ext. intros _ e _. simpl. now rewrite similarity_eq. }
  rewrite Hext1, Hext2. reflexivity.
Qed.

(** The pass-through for a stored rating. *)
Lemma predict_rating_rated_value (s : Movie_Recommendations)
    user_id movie_id rated rating :
  lockstep (movie_dict s) (user_dict s) ->
  user_dict s !! user_id = Some rated ->
  PyDict.get rated movie_id = Some rating ->
  predict_rating s user_id movie_id = (Return rating, s).
Proof.
  intros Hl Hu Hr.
  destruct (proj1 (Hl user_id movie_id)) as (movie & Hm & Hin).
  { unfold rating_of. rewrite Hu. eauto. }
  unfold predict_rating.
  rewrite decide_False by (rewrite Hu, Hm; intros [?|?]; discriminate).
  rewrite Hm. rewrite decide_True by exact Hin.
  unfold subscript, subscript_od. rewrite Hu. simpl. now rewrite Hr.
Qed.

(** C2.  For a user who has a stored rating for the item, [predict_rating]
    returns exactly that stored rating and leaves every cache as it was; the
    answer is the same whatever the similarity caches hold. *)
Theorem predict_rating_rated (s : Movie_Recommendations)
    (user_id movie_id : Z) (rated : PyDict.t Q) (rating : Q) :
  lockstep (movie_dict s) (user_dict s) ->
  user_dict s !! user_id = Some rated ->
  PyDict.get rated movie_id = Some rating ->
  predict_rating s user_id movie_id = (Return rating, s) /\
  forall s' : Movie_Recommendations,
    user_dict s' = user_dict s ->
    raters (movie_dict s') = raters (movie_dict s) ->
    predict_rating s' user_id movie_id = (Return rating, s').
Proof.
  intros Hl Hu Hr. split.
  - now apply (predict_rating_rated_value s user_id movie_id rated).
  - intros s' Hud Hraters.
    apply (predict_rating_rated_value s' user_id movie_id rated).
    + rewrite Hud. exact (lockstep_raters _ _ _ Hraters Hl).
    + now rewrite Hud.
    + exact Hr.
Qed.

Lemma predict_rating_rated_witness :
  predict_rating ex_state 2 3 = (Return 3, ex_state).
Proof.
  refine (proj1 (predict_rating_rated ex_state 2 3
                   [(1%Z, 4); (2%Z, 2); (3%Z, 3)] 3 _ _ _)).
  - apply reachable_wf, (reachable_init ex_movies ex_training). reflexivity.
  - reflexivity.
  - reflexivity.
Defined.

(** In a well-formed state a call with two known ids returns a value. *)
Lemma predict_rating_returns (s : Movie_Recommendations) user_id movie_id :
  wf s -> is_Some (user_dict s !! user_id) -> is_Some (movie_dict s !! movie_id) ->
  exists p, fst (predict_rating s user_id movie_id) = Return p.
Proof.
  intros Hwf [rated Hu] [movie Hm].
  destruct (PyDict.get rated movie_id) as [rating|] eqn:Hr.
  - exists rating.
    rewrite (predict_rating_rated_value s user_id movie_id rated rating
               (wf_lockstep s Hwf) Hu Hr). reflexivity.
  - eexists.
    exact (predict_rating_unrated_value s user_id movie_id rated movie
             Hwf Hu Hm Hr).
Qed.

(** C6.  [predict_rating] fails when the user id is not in the rating store
    and fails when the item id is not in the catalog, with the program's one
    exception for an invalid user or movie id ([BadInputError]) and without
    touching the object; it returns a value only when both ids are known, and
    in a well-formed state it does return one then. *)
Theorem predict_rating_unknown_ids (s : Movie_Recommendations)
    (user_id movie_id : Z) :
  (user_dict s !! user_id = None ->
   predict_rating s user_id movie_id = (Raise BadInputError, s)) /\
  (movie_dict s !! movie_id = None ->
   predict_rating s user_id movie_id = (Raise BadInputError, s)) /\
  (forall p, fst (predict_rating s user_id movie_id) = Return p ->
     is_Some (user_dict s !! user_id) /\ is_Some (movie_dict s !! movie_id)) /\
  (wf s -> is_Some (user_dict s !! user_id) ->
   is_Some (movie_dict s !! movie_id) ->
   exists p, fst (predict_rating s user_id movie_id) = Return p).
Proof.
  split; [|split; [|split]].
  - intros Hu. unfold predict_rating. rewrite decide_True; auto.
  - intros Hm. unfold predict_rating. rewrite decide_True; auto.
  - intros p. unfold predict_rating.
    destruct (decide _) as [Hbad|Hok]; [discriminate|].
    intros _.
    destruct (user_dict s !! user_id), (movie_dict s !! movie_id);
      try (exfalso; apply Hok; auto; fail).
    split; eauto.
  - apply predict_rating_returns.
Qed.

Lemma predict_rating_unknown_ids_witness :
  predict_rating ex_state 999 1 = (Raise BadInputError, ex_state) /\
  predict_rating ex_state 1 999 = (Raise BadInputError, ex_state).
Proof.
  split.
  - refine (proj1 (predict_rating_unknown_ids ex_state 999 1) _). reflexivity.
  - refine (proj1 (proj2 (predict_rating_unknown_ids ex_state 1 999)) _).
    reflexivity.
Defined.

Example predict_rating_unknown_user :
  fst (predict_rating ex_state 999 1) = Raise BadInputError.
Proof. reflexivity. Qed.

Example predict_rating_unknown_item :
  fst (predict_rating ex_state 1 999) = Raise BadInputError.
Proof. reflexivity. Qed.

(** ** Properties of [predict_ratings] *)

Lemma predict_rows_headers (s : Movie_Recommendations) rows tuple_list :
  Forall (fun row => row = RatingHeader) rows ->
  predict_rows s rows tuple_list = (Return tuple_list, s).
Proof.
  induction 1 as [|row rest -> _ IH]; simpl; [reflexivity | exact IH].
Qed.

(** C10.  On a test file without data rows [predict_ratings] does not return
    the empty list: it raises [IndexError] at [tuple_list[0]]; and no input
    at all makes it return the empty list. *)
Theorem predict_ratings_empty_batch (s : Movie_Recommendations)
    (rows : list rating_row) :
  Forall (fun row => row = RatingHeader) rows ->
  predict_ratings s rows = (Raise IndexError, s) /\
  forall (s' : Movie_Recommendations) (rows' : list rating_row),
    fst (predict_ratings s' rows') <> Return [].
Proof.
  intros Hrows. split.
  - unfold predict_ratings. now rewrite predict_rows_headers.
  - intros s' rows'. unfold predict_ratings.
    destruct (predict_rows s' rows' []) as [[tl|e] s1]; [|discriminate].
    destruct tl as [|t tl]; simpl; discriminate.
Qed.

Lemma predict_ratings_empty_batch_witness :
  predict_ratings ex_state [RatingHeader] = (Raise IndexError, ex_state).
Proof.
  refine (proj1 (predict_ratings_empty_batch ex_state [RatingHeader] _)).
  repeat constructor.
Defined.

Example predict_ratings_no_rows :
  fst (predict_ratings ex_state []) = Raise IndexError.
Proof. reflexivity. Qed.

(** ** Unknown movies in [get_similarity] *)

(** C5.  When the other movie id is not in the catalog the [try] block raises
    [BadInputError], but [get_similarity] catches it: the caller gets [None]
    back and no exception, here for movie 1 and the unknown id 999. *)
Theorem get_similarity_unknown_swallowed :
  fst (get_similarity_try 1 999 (user_dict ex_state) (movie_dict ex_state)) =
    Raise BadInputError /\
  get_similarity 1 999 (user_dict ex_state) (movie_dict ex_state) =
    (Return None, movie_dict ex_state).
Proof.
  split.
  - reflexivity.
  - apply (get_similarity_unknown _ _ 1 999
             {| id := 1; title := "A"; users := [1%Z; 2%Z]; similarities := ∅ |});
      reflexivity.
Qed.

(** ** The lockstep invariant *)

(** C8.  In every reachable state a user has a stored rating for a movie
    exactly when the user is in that movie's raters, and no call changes the
    rating matrix or the raters of any movie. *)
Theorem ratings_lockstep_invariant (s : Movie_Recommendations) :
  reachable s ->
  (forall user movie,
     is_Some (rating_of (user_dict s) user movie) <->
     exists m, movie_dict s !! movie = Some m /\ user ∈ users m) /\
  (forall c : call,
     user_dict (after s c) = user_dict s /\
     raters (movie_dict (after s c)) = raters (movie_dict s)).
Proof.
  intros Hreach. split.
  - exact (wf_lockstep s (reachable_wf s Hreach)).
  - intros c. apply after_frame.
Qed.

Lemma ratings_lockstep_invariant_witness :
  reachable ex_state /\
  (is_Some (rating_of (user_dict ex_state) 2 3) <->
   exists m, movie_dict ex_state !! 3%Z = Some m /\ 2%Z ∈ users m) /\
  user_dict (after ex_state (call_predict_rating 1 3)) = user_dict ex_state /\
  raters (movie_dict (after ex_state (call_predict_rating 1 3))) =
    raters (movie_dict ex_state).
Proof.
  assert (Hreach : reachable ex_state)
    by (apply (reachable_init ex_movies ex_training); reflexivity).
  split; [exact Hreach|].
  split.
  - exact (proj1 (ratings_lockstep_invariant ex_state Hreach) 2%Z 3%Z).
  - exact (proj2 (ratings_lockstep_invariant ex_state Hreach)
             (call_predict_rating 1 3)).
Defined.

(** ** The similarity formula *)

Lemma common_raters_lookup (s : Movie_Recommendations) a b ma mb :
  movie_dict s !! a = Some ma -> movie_dict s !! b = Some mb ->
  common_raters s a b = users_who_viewed_both (users ma) (users mb).
Proof.
  intros Ha Hb. unfold common_raters. rewrite !raters_lookup, Ha, Hb. reflexivity.
Qed.



(** ** The similarity cache *)

Lemma cache_of_Some movie_dict a b v :
  cache_of movie_dict a !! b = Some v <->
  exists ma, movie_dict !! a = Some ma /\ similarities ma !! b = Some v.
Proof.
  unfold cache_of. destruct (movie_dict !! a) as [ma|].
  - split; [eauto|]. now intros (? & [= <-] & ?).
  - rewrite lookup_empty. split; [discriminate|]. now intros (? & ? & ?).
Qed.

(** In a well-formed store the two caches of a pair agree. *)
Lemma cache_symmetric_lookup movie_dict a b :
  cache_symmetric movie_dict ->
  cache_of movie_dict a !! b = cache_of movie_dict b !! a.
Proof.
  intros Hsym.
  destruct (cache_of movie_dict a !! b) as [v|] eqn:Hab.
  - apply cache_of_Some in Hab as (ma & Ha & Hv).
    destruct (Hsym _ _ _ _ Ha Hv) as (mb & Hb & Hbv).
    symmetry. apply cache_of_Some. eauto.
  - destruct (cache_of movie_dict b !! a) as [v|] eqn:Hba; [|reflexivity].
    apply cache_of_Some in Hba as (mb & Hb & Hv).
    destruct (Hsym _ _ _ _ Hb Hv) as (ma & Ha & Hav).
    assert (cache_of movie_dict a !! b = Some v) by (apply cache_of_Some; eauto).
    congruence.
Qed.

(** The first call for a pair of known movies: it returns a value, both
    caches of the pair hold that value afterwards, and every other movie
    object is as it was. *)
Lemma get_similarity_first_call (s : Movie_Recommendations) a b :
  wf s -> is_Some (movie_dict s !! a) -> is_Some (movie_dict s !! b) ->
  exists v movie_dict1,
    get_similarity a b (user_dict s) (movie_dict s) =
      (Return (Some v), movie_dict1) /\
    cache_of movie_dict1 a !! b = Some v /\
    cache_of movie_dict1 b !! a = Some v /\
    is_Some (movie_dict1 !! a) /\ is_Some (movie_dict1 !! b) /\
    (forall c, c <> a -> c <> b -> movie_dict1 !! c = movie_dict s !! c).
Proof.
  intros [Hids Hl _ Hsym] [ma Ha] [mb Hb].
  destruct (similarities ma !! b) as [v|] eqn:Hhit.
  - exists v, (movie_dict s).
    rewrite (get_similarity_cached _ _ a b ma v Ha (mk_is_Some _ _ Hb) Hhit).
    assert (Hab : cache_of (movie_dict s) a !! b = Some v)
      by (apply cache_of_Some; eauto).
    split; [reflexivity|]. split; [exact Hab|].
    split; [now rewrite <- (cache_symmetric_lookup _ a b Hsym)|].
    split; [eauto|]. split; [eauto|]. reflexivity.
  - pose proof (compute_similarity_wf (user_dict s) (movie_dict s) a b ma mb
                  Hids Hl Ha Hb) as Hcompute.
    simpl in Hcompute. revert Hcompute.
    set (v := match users_who_viewed_both (users ma) (users mb) with
              | [] => 0 | _ :: _ => _ end).
    intros Hcompute.
    assert (Hb1 : exists mb1,
              <[a := set_similarity ma b v]> (movie_dict s) !! b = Some mb1).
    { destruct (decide (a = b)) as [->|Hne].
      - rewrite lookup_insert_eq. eauto.
      - rewrite lookup_insert_ne by done. eauto. }
    destruct Hb1 as [mb1 Hb1].
    exists v, (cached_both (movie_dict s) a b ma mb1 v).
    rewrite (get_similarity_computed _ _ a b ma mb1 v Ha Hb1 Hhit Hcompute).
    pose proof (Hids _ _ Ha) as Hida.
    split; [reflexivity|]. unfold cached_both. rewrite Hida.
    split; [|split; [|split; [|split]]].
    + apply cache_of_Some. destruct (decide (a = b)) as [->|Hne].
      * rewrite lookup_insert_eq. eexists. split; [reflexivity|]. simpl.
        now rewrite lookup_insert_eq.
      * rewrite lookup_insert_ne, lookup_insert_eq by done.
        eexists. split; [reflexivity|]. simpl. now rewrite lookup_insert_eq.
    + apply cache_of_Some. rewrite lookup_insert_eq.
      eexists. split; [reflexivity|]. simpl. now rewrite lookup_insert_eq.
    + destruct (decide (a = b)) as [->|Hne].
      * rewrite lookup_insert_eq. eauto.
      * rewrite lookup_insert_ne, lookup_insert_eq by done. eauto.
    + rewrite lookup_insert_eq. eauto.
    + intros c Hca Hcb. now rewrite !lookup_insert_ne by done.
Qed.

(** C4.  For known movies the similarity is symmetric through the cache: the
    first call writes its value into the cache of both movies, so the call
    from the other side returns the same value (and computes nothing); and
    in every well-formed state the two caches of a pair hold the same. *)
Theorem get_similarity_symmetric (s : Movie_Recommendations) (a b : Z)
    (ma mb : Movie) :
  wf s -> movie_dict s !! a = Some ma -> movie_dict s !! b = Some mb ->
  (exists v movie_dict1,
     get_similarity a b (user_dict s) (movie_dict s) =
       (Return (Some v), movie_dict1) /\
     cache_of movie_dict1 a !! b = Some v /\
     cache_of movie_dict1 b !! a = Some v /\
     get_similarity b a (user_dict s) movie_dict1 =
       (Return (Some v), movie_dict1)) /\
  cache_of (movie_dict s) a !! b = cache_of (movie_dict s) b !! a.
Proof.
  intros Hwf Ha Hb. split.
  - destruct (get_similarity_first_call s a b Hwf (mk_is_Some _ _ Ha)
                (mk_is_Some _ _ Hb))
      as (v & md1 & Hcall & Hab & Hba & Ha1 & Hb1 & _).
    exists v, md1. split; [exact Hcall|]. split; [exact Hab|].
    split; [exact Hba|].
    apply cache_of_Some in Hba as (mb1 & Hmb1 & Hv).
    exact (get_similarity_cached _ _ b a mb1 v Hmb1 Ha1 Hv).
  - apply cache_symmetric_lookup, (wf_cache s Hwf).
Qed.

Lemma get_similarity_symmetric_witness :
  exists v movie_dict1,
    get_similarity 1 3 (user_dict ex_state) (movie_dict ex_state) =
      (Return (Some v), movie_dict1) /\
    cache_of movie_dict1 1 !! 3%Z = Some v /\
    cache_of movie_dict1 3 !! 1%Z = Some v /\
    get_similarity 3 1 (user_dict ex_state) movie_dict1 =
      (Return (Some v), movie_dict1).
Proof.
  refine (proj1 (get_similarity_symmetric ex_state 1 3
                   {| id := 1; title := "A"; users := [1%Z; 2%Z];
                      similarities := ∅ |}
                   {| id := 3; title := "C"; users := [2%Z];
                      similarities := ∅ |} _ _ _)).
  - apply reachable_wf, (reachable_init ex_movies ex_training). reflexivity.
  - reflexivity.
  - reflexivity.
Defined.

(** C7.  After a first call for two known movies, a second call for the same
    pair returns the identical value from the cache: it writes nothing and
    does not depend on the ratings; and the first call left the object of
    every movie other than the two, with its cache, unchanged. *)
Theorem get_similarity_memoized (s : Movie_Recommendations) (a b : Z) :
  wf s -> is_Some (movie_dict s !! a) -> is_Some (movie_dict s !! b) ->
  exists v movie_dict1,
    get_similarity a b (user_dict s) (movie_dict s) =
      (Return (Some v), movie_dict1) /\
    (forall user_dict' : rating_matrix,
       get_similarity a b user_dict' movie_dict1 = (Return (Some v), movie_dict1)) /\
    (forall c, c <> a -> c <> b ->
       movie_dict1 !! c = movie_dict s !! c /\
       cache_of movie_dict1 c = cache_of (movie_dict s) c).
Proof.
  intros Hwf Ha Hb.
  destruct (get_similarity_first_call s a b Hwf Ha Hb)
    as (v & md1 & Hcall & Hab & _ & _ & Hb1 & Hframe).
  exists v, md1. split; [exact Hcall|]. split.
  - intros ud'. apply cache_of_Some in Hab as (ma1 & Hma1 & Hv).
    exact (get_similarity_cached ud' md1 a b ma1 v Hma1 Hb1 Hv).
  - intros c Hca Hcb. pose proof (Hframe c Hca Hcb) as Hc.
    split; [exact Hc|]. unfold cache_of. now rewrite Hc.
Qed.

Lemma get_similarity_memoized_witness :
  exists v movie_dict1,
    get_similarity 1 3 (user_dict ex_state) (movie_dict ex_state) =
      (Return (Some v), movie_dict1) /\
    (forall user_dict' : rating_matrix,
       get_similarity 1 3 user_dict' movie_dict1 = (Return (Some v), movie_dict1)) /\
    (forall c, c <> 1%Z -> c <> 3%Z ->
       movie_dict1 !! c = movie_dict ex_state !! c /\
       cache_of movie_dict1 c = cache_of (movie_dict ex_state) c).
Proof.
  refine (get_similarity_memoized ex_state 1 3 _ _ _).
  - apply reachable_wf, (reachable_init ex_movies ex_training). reflexivity.
  - vm_compute. eauto.
  - vm_compute. eauto.
Defined.

(** * Properties of the methods on floats *)

Module F64Facts.
Import F64.
Local Open Scope float_scope.

Section Float64.
Context {builtins : Builtins}.

(** ** [compute_similarity] *)

Section ComputeSimilarityF.
Variables (movie_dict : movie_store) (user_dict : rating_matrix).

Lemma collect_ratings_spec_f self_id other_movie_id viewed_both acc1 acc2 :
  (forall u, u ∈ viewed_both ->
     is_Some (rating_of user_dict u self_id) /\
     is_Some (rating_of user_dict u other_movie_id)) ->
  collect_ratings user_dict self_id other_movie_id viewed_both acc1 acc2 =
  Return (acc1 ++ ((fun u => stored_rating user_dict u self_id) <$> viewed_both),
          acc2 ++ ((fun u => stored_rating user_dict u other_movie_id) <$> viewed_both)).
Proof.
  revert acc1 acc2.
  induction viewed_both as [|u l IH]; intros acc1 acc2 Hall; simpl.
  - now rewrite !app_nil_r.
  - destruct (Hall u) as [[r1 Hr1] [r2 Hr2]]; [apply list_elem_of_here|].
    unfold stored_rating. rewrite Hr1, Hr2. simpl.
    unfold rating_of in Hr1, Hr2. unfold subscript, subscript_od.
    destruct (user_dict !! u) as [rated|]; [|discriminate]. simpl.
    rewrite Hr1. simpl. rewrite Hr2. simpl.
    rewrite IH.
    + now rewrite <- !app_assoc.
    + intros u' Hu'. apply Hall. now apply list_elem_of_further.
Qed.

Lemma abs_differences_spec_f l1 : forall l2 done acc,
  length l1 = length l2 ->
  abs_differences (length done) l1 (done ++ l2) acc =
  Return (acc ++ zip_with (fun x y => PrimFloat.abs (x - y)%float) l1 l2).
Proof.
  induction l1 as [|x l1 IH]; intros [|y l2] done acc Hlen; simpl in *;
    try discriminate.
  - now rewrite app_nil_r.
  - rewrite lookup_app_r by lia. rewrite Nat.sub_diag. simpl.
    replace (S (length done)) with (length (done ++ [y]))
      by (rewrite length_app; simpl; lia).
    replace (done ++ y :: l2) with ((done ++ [y]) ++ l2)
      by now rewrite <- app_assoc.
    rewrite IH by lia. now rewrite <- app_assoc.
Qed.

Lemma abs_differences_0_f l1 l2 :
  length l1 = length l2 ->
  abs_differences 0 l1 l2 [] = Return (zip_with (fun x y => PrimFloat.abs (x - y)%float) l1 l2).
Proof. intros Hlen. exact (abs_differences_spec_f l1 l2 [] [] Hlen). Qed.

(** The closed form of what [compute_similarity] returns when both movies are
    in the store and each common rater has both ratings stored. *)
Lemma compute_similarity_closed_f (self : Movie) other_movie_id init_movie other_movie :
  movie_dict !! id self = Some init_movie ->
  movie_dict !! other_movie_id = Some other_movie ->
  (forall u, u ∈ users init_movie -> u ∈ users other_movie ->
     is_Some (rating_of user_dict u (id self)) /\
     is_Some (rating_of user_dict u other_movie_id)) ->
  let both := users_who_viewed_both (users init_movie) (users other_movie) in
  let diffs :=
    (fun u => PrimFloat.abs (stored_rating user_dict u (id self) -
                             stored_rating user_dict u other_movie_id)) <$> both in
  compute_similarity self other_movie_id movie_dict user_dict =
  Return (match both with
          | [] => 0
          | _ :: _ => 1 - (sum diffs / len both) / 4.5
          end).
Proof.
  intros Hself Hother Hrated both diffs.
  unfold compute_similarity.
  rewrite (subscript_Some _ _ _ Hself), (subscript_Some _ _ _ Hother). simpl.
  fold both.
  destruct (decide (length both = 0%nat)) as [Hlen|Hlen].
  - destruct both; [reflexivity | discriminate].
  - rewrite collect_ratings_spec_f.
    2:{ intros u Hu. apply list_elem_of_filter in Hu as [Hu2 Hu1]. auto. }
    simpl.
    rewrite abs_differences_0_f by now rewrite !length_fmap.
    simpl. rewrite zip_with_fmap_same. fold diffs.
    destruct both as [|u0 both'] eqn:Hboth; [done|].
    rewrite decide_False by (rewrite length_fmap; discriminate).
    replace (len ((fun u => stored_rating user_dict u (id self)) <$> u0 :: both'))
      with (len (u0 :: both')) by (unfold len; now rewrite length_fmap).
    reflexivity.
Qed.

(** [compute_similarity] reads the store only through the raters lists. *)
Lemma compute_similarity_raters_f (self self' : Movie) other_movie_id movie_dict' :
  id self' = id self ->
  raters movie_dict' = raters movie_dict ->
  compute_similarity self' other_movie_id movie_dict' user_dict =
  compute_similarity self other_movie_id movie_dict user_dict.
Proof.
  intros Hid Hraters. unfold compute_similarity. rewrite Hid.
  assert (Hl : forall k, users <$> (movie_dict' !! k) = users <$> (movie_dict !! k)).
  { intros k. unfold raters in Hraters. now rewrite <- !lookup_fmap, Hraters. }
  unfold subscript.
  pose proof (Hl (id self)) as H1. pose proof (Hl other_movie_id) as H2.
  destruct (movie_dict' !! id self) as [m1'|], (movie_dict !! id self) as [m1|];
    simpl in H1; try discriminate; [|reflexivity].
  injection H1 as H1. simpl.
  destruct (movie_dict' !! other_movie_id) as [m2'|],
           (movie_dict !! other_movie_id) as [m2|];
    simpl in H2; try discriminate; [|reflexivity].
  injection H2 as H2. simpl. now rewrite H1, H2.
Qed.
End ComputeSimilarityF.

(** ** [get_similarity] *)

Section GetSimilarityF.
Variable user_dict : rating_matrix.
Implicit Types (movie_dict : movie_store) (a b : Z).

(** The two ways a call can leave the store. *)
Lemma get_similarity_cases_f movie_dict a b :
  snd (get_similarity a b user_dict movie_dict) = movie_dict \/
  exists ma mb v,
    movie_dict !! a = Some ma /\
    <[a := set_similarity ma b v]> movie_dict !! b = Some mb /\
    similarities ma !! b = None /\
    compute_similarity ma b movie_dict user_dict = Return v /\
    get_similarity a b user_dict movie_dict =
    (Return (Some v), cached_both movie_dict a b ma mb v).
Proof.
  unfold get_similarity, get_similarity_try.
  destruct (movie_dict !! a) as [ma|] eqn:Ha; [|now left].
  destruct (decide (is_Some (movie_dict !! b))) as [Hb|Hb]; [|now left].
  destruct (similarities ma !! b) as [v|] eqn:Hv; [now left|].
  destruct (compute_similarity ma b movie_dict user_dict) as [v|e] eqn:Hc.
  2:{ left. now destruct e. }
  simpl.
  destruct (<[a := set_similarity ma b v]> movie_dict !! b) as [mb|] eqn:Hmb.
  - right. exists ma, mb, v. auto.
  - exfalso. destruct (decide (a = b)) as [->|Hne].
    + rewrite lookup_insert_eq in Hmb. discriminate.
    + rewrite lookup_insert_ne in Hmb by done.
      rewrite Hmb in Hb. now destruct Hb.
Qed.

Lemma fst_get_similarity_f movie_dict a b :
  fst (get_similarity a b user_dict movie_dict) =
  similarity_outcome a b user_dict movie_dict.
Proof.
  unfold get_similarity, get_similarity_try, similarity_outcome.
  destruct (movie_dict !! a) as [ma|] eqn:Ha; [|reflexivity].
  destruct (decide (is_Some (movie_dict !! b))) as [Hb|Hb]; [|reflexivity].
  destruct (similarities ma !! b) as [v|] eqn:Hv; [reflexivity|].
  destruct (compute_similarity ma b movie_dict user_dict) as [v|e] eqn:Hc.
  2:{ now destruct e. }
  simpl.
  destruct (<[a := set_similarity ma b v]> movie_dict !! b) as [mb|] eqn:Hmb;
    [reflexivity|].
  exfalso. destruct (decide (a = b)) as [->|Hne].
  - rewrite lookup_insert_eq in Hmb. discriminate.
  - rewrite lookup_insert_ne in Hmb by done.
    rewrite Hmb in Hb. now destruct Hb.
Qed.

(** *** What a call leaves unchanged *)

Lemma raters_cached_both_f movie_dict a b ma mb v :
  movie_dict !! a = Some ma ->
  <[a := set_similarity ma b v]> movie_dict !! b = Some mb ->
  raters (cached_both movie_dict a b ma mb v) = raters movie_dict.
Proof.
  intros Ha Hb. unfold raters, cached_both. apply map_eq. intros k.
  rewrite !lookup_fmap.
  destruct (decide (b = k)) as [<-|Hbk].
  - rewrite lookup_insert_eq. simpl.
    destruct (decide (a = b)) as [->|Hab].
    + rewrite lookup_insert_eq in Hb. injection Hb as <-. now rewrite Ha.
    + rewrite lookup_insert_ne in Hb by done. now rewrite Hb.
  - rewrite lookup_insert_ne by done.
    destruct (decide (a = k)) as [<-|Hak].
    + rewrite lookup_insert_eq. now rewrite Ha.
    + now rewrite lookup_insert_ne by done.
Qed.

Lemma get_similarity_raters_f movie_dict a b :
  raters (snd (get_similarity a b user_dict movie_dict)) = raters movie_dict.
Proof.
  destruct (get_similarity_cases_f movie_dict a b)
    as [->|(ma & mb & v & Ha & Hb & _ & _ & ->)]; [reflexivity|].
  simpl. now apply raters_cached_both_f.
Qed.

Lemma raters_lookup_f movie_dict k :
  raters movie_dict !! k = users <$> (movie_dict !! k).
Proof. unfold raters. apply lookup_fmap. Qed.

Lemma raters_is_Some_f movie_dict movie_dict' k :
  raters movie_dict' = raters movie_dict ->
  is_Some (movie_dict' !! k) <-> is_Some (movie_dict !! k).
Proof.
  intros H. rewrite <- !(fmap_is_Some users), <- !raters_lookup_f. now rewrite H.
Qed.

Lemma keys_are_ids_cached_both_f movie_dict a b ma mb v :
  keys_are_ids movie_dict ->
  movie_dict !! a = Some ma ->
  <[a := set_similarity ma b v]> movie_dict !! b = Some mb ->
  keys_are_ids (cached_both movie_dict a b ma mb v).
Proof.
  intros Hids Ha Hb k m. unfold cached_both.
  assert (Hmb : id mb = b).
  { destruct (decide (a = b)) as [->|Hab].
    - rewrite lookup_insert_eq in Hb. injection Hb as <-. simpl. eauto.
    - rewrite lookup_insert_ne in Hb by done. eauto. }
  destruct (decide (b = k)) as [<-|Hbk].
  - rewrite lookup_insert_eq. intros [= <-]. exact Hmb.
  - rewrite lookup_insert_ne by done.
    destruct (decide (a = k)) as [<-|Hak].
    + rewrite lookup_insert_eq. intros [= <-]. simpl. eauto.
    + rewrite lookup_insert_ne by done. eauto.
Qed.

Lemma get_similarity_keys_are_ids_f movie_dict a b :
  keys_are_ids movie_dict ->
  keys_are_ids (snd (get_similarity a b user_dict movie_dict)).
Proof.
  intros Hids.
  destruct (get_similarity_cases_f movie_dict a b)
    as [->|(ma & mb & v & Ha & Hb & _ & _ & ->)]; [exact Hids|].
  simpl. now apply keys_are_ids_cached_both_f.
Qed.
End GetSimilarityF.

Section InvariantsF.
Variable user_dict : rating_matrix.
Implicit Types (movie_dict : movie_store) (a b : Z).

Lemma lockstep_raters_f movie_dict movie_dict' :
  raters movie_dict' = raters movie_dict ->
  lockstep movie_dict user_dict -> lockstep movie_dict' user_dict.
Proof.
  intros Hr Hl user movie. rewrite (Hl user movie).
  assert (Hk : users <$> (movie_dict' !! movie) = users <$> (movie_dict !! movie))
    by now rewrite <- !raters_lookup_f, Hr.
  split; intros (m & Hm & Hu).
  - rewrite Hm in Hk. simpl in Hk.
    destruct (movie_dict' !! movie) as [m'|]; [|discriminate].
    injection Hk as Hk. exists m'. split; [reflexivity | now rewrite Hk].
  - rewrite Hm in Hk. simpl in Hk.
    destruct (movie_dict !! movie) as [m'|]; [|discriminate].
    injection Hk as Hk. exists m'. split; [reflexivity | now rewrite <- Hk].
Qed.

Lemma cache_symmetric_cached_both_f movie_dict a b ma mb v :
  keys_are_ids movie_dict -> cache_symmetric movie_dict ->
  movie_dict !! a = Some ma ->
  <[a := set_similarity ma b v]> movie_dict !! b = Some mb ->
  cache_symmetric (cached_both movie_dict a b ma mb v).
Proof.
  intros Hids Hsym Ha Hb. pose proof (Hids _ _ Ha) as Hida.
  unfold cached_both. rewrite Hida.
  destruct (decide (a = b)) as [->|Hab].
  - (* one movie: a single object, written twice *)
    rewrite lookup_insert_eq in Hb. injection Hb as <-.
    rewrite insert_insert_eq.
    intros x y mx w Hx Hw.
    destruct (decide (b = x)) as [<-|Hbx].
    + rewrite lookup_insert_eq in Hx. injection Hx as <-. simpl in Hw.
      destruct (decide (b = y)) as [<-|Hby].
      * rewrite lookup_insert_eq. eexists. split; [reflexivity|exact Hw].
      * rewrite !lookup_insert_ne in Hw by done.
        destruct (Hsym _ _ _ _ Ha Hw) as (my & Hy & Hyw).
        exists my. now rewrite lookup_insert_ne by done.
    + rewrite lookup_insert_ne in Hx by done.
      destruct (Hsym _ _ _ _ Hx Hw) as (my & Hy & Hyw).
      destruct (decide (b = y)) as [<-|Hby].
      * rewrite lookup_insert_eq. eexists. split; [reflexivity|]. simpl.
        rewrite Ha in Hy. injection Hy as <-.
        now rewrite !lookup_insert_ne by done.
      * exists my. now rewrite lookup_insert_ne by done.
  - rewrite lookup_insert_ne in Hb by done.
    intros x y mx w Hx Hw.
    destruct (decide (b = x)) as [<-|Hbx].
    + rewrite lookup_insert_eq in Hx. injection Hx as <-. simpl in Hw.
      destruct (decide (a = y)) as [<-|Hay].
      * rewrite lookup_insert_eq in Hw. injection Hw as <-.
        rewrite lookup_insert_ne, lookup_insert_eq by done.
        eexists. split; [reflexivity|]. simpl. now rewrite lookup_insert_eq.
      * rewrite lookup_insert_ne in Hw by done.
        destruct (Hsym _ _ _ _ Hb Hw) as (my & Hy & Hyw).
        destruct (decide (b = y)) as [<-|Hby].
        -- rewrite lookup_insert_eq. eexists. split; [reflexivity|]. simpl.
           rewrite Hb in Hy. injection Hy as <-.
           now rewrite lookup_insert_ne by done.
        -- exists my. now rewrite !lookup_insert_ne by done.
    + rewrite lookup_insert_ne in Hx by done.
      destruct (decide (a = x)) as [<-|Hax].
      * rewrite lookup_insert_eq in Hx. injection Hx as <-. simpl in Hw.
        destruct (decide (b = y)) as [<-|Hby].
        -- rewrite lookup_insert_eq in Hw. injection Hw as <-.
           rewrite lookup_insert_eq.
           eexists. split; [reflexivity|]. simpl. now rewrite lookup_insert_eq.
        -- rewrite lookup_insert_ne in Hw by done.
           destruct (Hsym _ _ _ _ Ha Hw) as (my & Hy & Hyw).
           rewrite lookup_insert_ne by done.
           destruct (decide (a = y)) as [<-|Hay].
           ++ rewrite lookup_insert_eq. eexists. split; [reflexivity|]. simpl.
              rewrite Ha in Hy. injection Hy as <-.
              now rewrite lookup_insert_ne by done.
           ++ exists my. now rewrite lookup_insert_ne by done.
      * rewrite lookup_insert_ne in Hx by done.
        destruct (Hsym _ _ _ _ Hx Hw) as (my & Hy & Hyw).
        destruct (decide (b = y)) as [<-|Hby].
        -- rewrite lookup_insert_eq. eexists. split; [reflexivity|]. simpl.
           rewrite Hb in Hy. injection Hy as <-.
           now rewrite lookup_insert_ne by done.
        -- rewrite lookup_insert_ne by done.
           destruct (decide (a = y)) as [<-|Hay].
           ++ rewrite lookup_insert_eq. eexists. split; [reflexivity|]. simpl.
              rewrite Ha in Hy. injection Hy as <-.
              now rewrite lookup_insert_ne by done.
           ++ exists my. now rewrite lookup_insert_ne by done.
Qed.

Lemma get_similarity_cache_symmetric_f movie_dict a b :
  keys_are_ids movie_dict -> cache_symmetric movie_dict ->
  cache_symmetric (snd (get_similarity a b user_dict movie_dict)).
Proof.
  intros Hids Hsym.
  destruct (get_similarity_cases_f user_dict movie_dict a b)
    as [->|(ma & mb & v & Ha & Hb & _ & _ & ->)]; [exact Hsym|].
  simpl. now apply cache_symmetric_cached_both_f.
Qed.
End InvariantsF.

Section SimilarityValueF.
Variable user_dict : rating_matrix.
Implicit Types (movie_dict : movie_store) (a b : Z).

(** In a well-formed store [compute_similarity] returns, with the value of
    the closed form. *)
Lemma compute_similarity_wf_f movie_dict a b ma mb :
  keys_are_ids movie_dict -> lockstep movie_dict user_dict ->
  movie_dict !! a = Some ma -> movie_dict !! b = Some mb ->
  let both := users_who_viewed_both (users ma) (users mb) in
  compute_similarity ma b movie_dict user_dict =
  Return (match both with
          | [] => 0
          | _ :: _ =>
              1 - (sum ((fun u => PrimFloat.abs (stored_rating user_dict u a -
                                                 stored_rating user_dict u b))
                          <$> both)
                   / len both) / 4.5
          end).
Proof.
  intros Hids Hl Ha Hb both.
  pose proof (Hids _ _ Ha) as Hida.
  rewrite <- Hida in Ha.
  rewrite (compute_similarity_closed_f movie_dict user_dict ma b ma mb Ha Hb).
  - now rewrite Hida.
  - intros u Hua Hub. rewrite Hida in *. split; apply Hl; eauto.
Qed.

Lemma similarity_outcome_returns_f movie_dict a b :
  keys_are_ids movie_dict -> lockstep movie_dict user_dict ->
  is_Some (movie_dict !! a) -> is_Some (movie_dict !! b) ->
  exists v, similarity_outcome a b user_dict movie_dict = Return (Some v).
Proof.
  intros Hids Hl [ma Ha] [mb Hb]. unfold similarity_outcome.
  rewrite Ha. rewrite decide_True by eauto.
  destruct (similarities ma !! b) as [v|]; [eauto|].
  rewrite (compute_similarity_wf_f movie_dict a b ma mb) by assumption. eauto.
Qed.

(** The answer for [(a, b)] does not change when a call for [(k, o)] with
    [o <> a] fills the cache. *)
Lemma similarity_outcome_stable_f movie_dict k o a b :
  a <> o ->
  similarity_outcome a b user_dict (snd (get_similarity k o user_dict movie_dict)) =
  similarity_outcome a b user_dict movie_dict.
Proof.
  intros Hao.
  destruct (get_similarity_cases_f user_dict movie_dict k o)
    as [->|(mk & mo & v & Hk & Ho & Hmiss & Hv & Heq)]; [reflexivity|].
  assert (Hfst : similarity_outcome k o user_dict movie_dict = Return (Some v))
    by now rewrite <- fst_get_similarity_f, Heq.
  rewrite Heq. simpl.
  pose proof (raters_cached_both_f movie_dict k o mk mo v Hk Ho) as Hr.
  unfold similarity_outcome at 1 2.
  unfold cached_both at 1. rewrite lookup_insert_ne by done.
  destruct (decide (k = a)) as [->|Hka].
  - rewrite lookup_insert_eq, Hk.
    destruct (decide (is_Some (cached_both movie_dict a o mk mo v !! b))) as [Hb|Hb];
      (destruct (decide (is_Some (movie_dict !! b))) as [Hb'|Hb'];
        [|try reflexivity]);
      try (exfalso; apply (raters_is_Some_f _ _ b Hr) in Hb; tauto);
      try (exfalso; apply (raters_is_Some_f _ _ b Hr) in Hb'; tauto).
    simpl. destruct (decide (o = b)) as [<-|Hob].
    + rewrite lookup_insert_eq, Hmiss, Hv. reflexivity.
    + rewrite lookup_insert_ne by done.
      destruct (similarities mk !! b); [reflexivity|].
      now rewrite (compute_similarity_raters_f movie_dict user_dict mk
                     (set_similarity mk o v) b _ eq_refl Hr).
  - rewrite lookup_insert_ne by done.
    destruct (movie_dict !! a) as [ma|]; [|reflexivity].
    destruct (decide (is_Some (cached_both movie_dict k o mk mo v !! b))) as [Hb|Hb];
      (destruct (decide (is_Some (movie_dict !! b))) as [Hb'|Hb'];
        [|try reflexivity]);
      try (exfalso; apply (raters_is_Some_f _ _ b Hr) in Hb; tauto);
      try (exfalso; apply (raters_is_Some_f _ _ b Hr) in Hb'; tauto).
    destruct (similarities ma !! b); [reflexivity|].
    now rewrite (compute_similarity_raters_f movie_dict user_dict ma ma b _ eq_refl Hr).
Qed.
End SimilarityValueF.

(** ** [predict_rating] *)

Section PredictLoopF.
Variables (user_dict : rating_matrix) (user_id movie_id : Z) (rated : PyDict.t f64).
Hypothesis Hrated : user_dict !! user_id = Some rated.

(** The weight [get_similarity] answers for a rated movie in a store. *)
Let w (movie_dict : movie_store) (movie : Z) : f64 :=
  default 0%float (match similarity_outcome movie movie_id user_dict movie_dict with
             | Return v => v
             | Raise _ => None
             end).

Let r (movie : Z) : f64 := default 0%float (PyDict.get rated movie).

(** The loop adds one term to each total per listed movie, in order, with the
    weights [get_similarity] answers in the store the loop starts from. *)
Lemma predict_loop_spec_f (user_rated_movies : list Z) :
  forall (movie_dict : movie_store) (sim_x_rate_total sim_total : f64),
    keys_are_ids movie_dict -> lockstep movie_dict user_dict ->
    is_Some (movie_dict !! movie_id) ->
    (forall movie, movie ∈ user_rated_movies ->
       is_Some (PyDict.get rated movie) /\ movie <> movie_id) ->
    exists movie_dict',
      predict_loop user_id movie_id user_dict user_rated_movies
        sim_x_rate_total sim_total movie_dict =
      (Return
         (fold_left PrimFloat.add ((fun m => w movie_dict m * r m) <$> user_rated_movies)
            sim_x_rate_total,
          fold_left PrimFloat.add (w movie_dict <$> user_rated_movies) sim_total),
       movie_dict') /\
      raters movie_dict' = raters movie_dict /\
      keys_are_ids movie_dict' /\
      (cache_symmetric movie_dict -> cache_symmetric movie_dict').
Proof.
  induction user_rated_movies as [|movie rest IH];
    intros movie_dict acc1 acc2 Hids Hl Htarget Hall.
  - exists movie_dict. simpl. auto.
  - destruct (Hall movie) as [[rt Hrt] Hne]; [apply list_elem_of_here|].
    assert (Hknown : is_Some (movie_dict !! movie)).
    { destruct (proj1 (Hl user_id movie)) as (m & Hm & _); [|eauto].
      unfold rating_of. rewrite Hrated. eauto. }
    destruct (similarity_outcome_returns_f user_dict movie_dict movie movie_id
                Hids Hl Hknown Htarget) as [v Hv].
    set (movie_dict1 :=
           snd (get_similarity movie movie_id user_dict movie_dict)).
    assert (Hcall : get_similarity movie movie_id user_dict movie_dict =
                    (Return (Some v), movie_dict1)).
    { rewrite <- fst_get_similarity_f in Hv. subst movie_dict1.
      destruct (get_similarity movie movie_id user_dict movie_dict) as [o st].
      simpl in *. now rewrite Hv. }
    pose proof (get_similarity_raters_f user_dict movie_dict movie movie_id) as Hr1.
    fold movie_dict1 in Hr1.
    destruct (IH movie_dict1 (acc1 + v * rt) (acc2 + v)) as (md' & Hloop & Hr & Hi & Hs).
    + apply get_similarity_keys_are_ids_f, Hids.
    + exact (lockstep_raters_f user_dict movie_dict movie_dict1 Hr1 Hl).
    + apply (raters_is_Some_f _ _ _ Hr1), Htarget.
    + intros m Hm. apply Hall. now apply list_elem_of_further.
    + exists md'. split; [|split; [|split]].
      * simpl. unfold sbind, lift at 1 2. simpl.
        unfold subscript at 1. rewrite Hrated. simpl.
        unfold subscript_od. rewrite Hrt. simpl.
        rewrite Hcall. simpl. rewrite Hloop.
        assert (Hw : forall m, m ∈ rest -> w movie_dict1 m = w movie_dict m).
        { intros m Hm. unfold w, movie_dict1.
          rewrite similarity_outcome_stable_f; [reflexivity|].
          apply Hall. now apply list_elem_of_further. }
        assert (Hw0 : w movie_dict movie = v) by (unfold w; now rewrite Hv).
        assert (Hr0 : r movie = rt) by (unfold r; now rewrite Hrt).
        rewrite Hw0, Hr0.
        assert (Hl1 : (fun m => w movie_dict1 m * r m) <$> rest =
                      (fun m => w movie_dict m * r m) <$> rest).
        { apply list_fmap_ext. intros _ m Hm%list_elem_of_lookup_2.
          now rewrite Hw. }
        assert (Hl2 : w movie_dict1 <$> rest = w movie_dict <$> rest).
        { apply list_fmap_ext. intros _ m Hm%list_elem_of_lookup_2.
          now apply Hw. }
        now rewrite Hl1, Hl2.
      * now rewrite Hr.
      * exact Hi.
      * intros Hsym. apply Hs.
        apply get_similarity_cache_symmetric_f; assumption.
Qed.
End PredictLoopF.

(** ** What the calls preserve *)

Section PreservationF.
Variable P : movie_store -> Prop.
Variable user_dict0 : rating_matrix.
Hypothesis P_get_similarity :
  forall movie_dict a b,
    P movie_dict -> P (snd (get_similarity a b user_dict0 movie_dict)).

Lemma predict_loop_preserves_f user_id movie_id user_rated_movies :
  forall acc1 acc2 movie_dict,
    P movie_dict ->
    P (snd (predict_loop user_id movie_id user_dict0 user_rated_movies
              acc1 acc2 movie_dict)).
Proof.
  induction user_rated_movies as [|movie rest IH]; intros acc1 acc2 md HP;
    simpl; [exact HP|].
  unfold sbind, lift at 1 2.
  destruct (subscript user_dict0 user_id) as [rated|e]; [|exact HP].
  destruct (subscript_od rated movie) as [rating|e]; [|exact HP].
  pose proof (P_get_similarity md movie movie_id HP) as HP1.
  destruct (get_similarity movie movie_id user_dict0 md) as [[o|e] md1];
    simpl in *; [|exact HP1].
  unfold lift. destruct (float o) as [similarity|e]; [|exact HP1].
  apply IH, HP1.
Qed.

Lemma predict_rating_preserves_f (s : Movie_Recommendations) user_id movie_id :
  user_dict s = user_dict0 -> P (movie_dict s) ->
  user_dict (snd (predict_rating s user_id movie_id)) = user_dict0 /\
  P (movie_dict (snd (predict_rating s user_id movie_id))).
Proof.
  intros Hud HP. unfold predict_rating.
  destruct (decide _); [now split|].
  destruct (movie_dict s !! movie_id) as [movie|]; [|now split].
  destruct (decide (user_id ∈ users movie)); [now split|].
  destruct (user_dict s !! user_id) as [rated|]; [|now split].
  pose proof (predict_loop_preserves_f user_id movie_id (PyDict.keys rated)
                0 0 (movie_dict s) HP) as HP'.
  rewrite Hud.
  destruct (predict_loop user_id movie_id user_dict0 (PyDict.keys rated) 0 0
              (movie_dict s)) as [[[t1 t2]|e] md']; simpl in *; now split.
Qed.

Lemma predict_rows_preserves_f rows :
  forall (s : Movie_Recommendations) tuple_list,
    user_dict s = user_dict0 -> P (movie_dict s) ->
    user_dict (snd (predict_rows s rows tuple_list)) = user_dict0 /\
    P (movie_dict (snd (predict_rows s rows tuple_list))).
Proof.
  induction rows as [|[|userId movieId rating] rest IH]; intros s tl Hud HP;
    simpl; [now split | now apply IH |].
  destruct (subscript (movie_dict s) movieId) as [movie|e]; [|now split].
  destruct (predict_rating_preserves_f s userId movieId Hud HP) as [Hud1 HP1].
  destruct (predict_rating s userId movieId) as [[predicted|e] s1];
    simpl in *; [|now split].
  now apply IH.
Qed.

Lemma predict_ratings_preserves_f (s : Movie_Recommendations) rows :
  user_dict s = user_dict0 -> P (movie_dict s) ->
  user_dict (snd (predict_ratings s rows)) = user_dict0 /\
  P (movie_dict (snd (predict_ratings s rows))).
Proof.
  intros Hud HP. unfold predict_ratings.
  destruct (predict_rows_preserves_f rows s [] Hud HP) as [Hud1 HP1].
  destruct (predict_rows s rows []) as [[tl|e] s1]; simpl in *; [|now split].
  destruct (tl !! 0%nat); now split.
Qed.

Lemma after_preserves_f (s : Movie_Recommendations) (c : call) :
  user_dict s = user_dict0 -> P (movie_dict s) ->
  user_dict (after s c) = user_dict0 /\ P (movie_dict (after s c)).
Proof.
  intros Hud HP. destruct c as [u m|rows|a b|a b|l1 l2]; simpl.
  - now apply predict_rating_preserves_f.
  - now apply predict_ratings_preserves_f.
  - split; [exact Hud|]. rewrite Hud. now apply P_get_similarity.
  - now split.
  - now split.
Qed.
End PreservationF.

(** No call changes the rating matrix or any raters collection. *)
Lemma after_frame_f (s : Movie_Recommendations) (c : call) :
  user_dict (after s c) = user_dict s /\
  raters (movie_dict (after s c)) = raters (movie_dict s).
Proof.
  apply (after_preserves_f (fun md => raters md = raters (movie_dict s))
           (user_dict s)); [|reflexivity..].
  intros md a b Hmd. now rewrite get_similarity_raters_f.
Qed.

Lemma after_wf_f (s : Movie_Recommendations) (c : call) : wf s -> wf (after s c).
Proof.
  intros [Hids Hl Hd Hc].
  destruct (after_frame_f s c) as [Hud Hr].
  destruct (after_preserves_f
              (fun md => keys_are_ids md /\ cache_symmetric md)
              (user_dict s)) with (s := s) (c := c) as [_ [Hids' Hc']];
    [|reflexivity|now split|].
  { intros md a b [H1 H2]. split.
    - now apply get_similarity_keys_are_ids_f.
    - now apply get_similarity_cache_symmetric_f. }
  split; [exact Hids'| |now rewrite Hud|exact Hc'].
  rewrite Hud. exact (lockstep_raters_f _ _ _ Hr Hl).
Qed.

(** ** The constructor *)

Lemma load_movies_fresh_f rows : forall movie_dict,
  keys_are_ids movie_dict -> fresh movie_dict ->
  keys_are_ids (load_movies rows movie_dict) /\ fresh (load_movies rows movie_dict).
Proof.
  induction rows as [|[|movieId t] rest IH]; intros md Hids Hf; simpl;
    [now split | now apply IH |].
  apply IH.
  - intros k m. destruct (decide (movieId = k)) as [<-|Hne].
    + rewrite lookup_insert_eq. now intros [= <-].
    + rewrite lookup_insert_ne by done. apply Hids.
  - intros k m. destruct (decide (movieId = k)) as [<-|Hne].
    + rewrite lookup_insert_eq. now intros [= <-].
    + rewrite lookup_insert_ne by done. apply Hf.
Qed.

Lemma fresh_wf_f movie_dict :
  keys_are_ids movie_dict -> fresh movie_dict ->
  wf {| movie_dict := movie_dict; user_dict := ∅ |}.
Proof.
  intros Hids Hf. split; simpl.
  - exact Hids.
  - intros user movie. unfold rating_of. rewrite lookup_empty. split.
    + intros [? ?]. discriminate.
    + intros (m & Hm & Hu). destruct (Hf _ _ Hm) as [Hnil _].
      rewrite Hnil in Hu. now apply elem_of_nil in Hu.
  - intros user rated. now rewrite lookup_empty.
  - intros a b ma v Ha Hv. destruct (Hf _ _ Ha) as [_ Hempty].
    rewrite Hempty, lookup_empty in Hv. discriminate.
Qed.

(** One training row keeps the rating matrix and the raters in lockstep. *)
Lemma rating_row_wf_f movie_dict user_dict userId movieId rating movie :
  wf {| movie_dict := movie_dict; user_dict := user_dict |} ->
  movie_dict !! movieId = Some movie ->
  wf {| movie_dict := <[movieId := append_user movie userId]> movie_dict;
        user_dict :=
          <[userId := PyDict.set (default PyDict.empty (user_dict !! userId))
                        movieId rating]> user_dict |}.
Proof.
  intros [Hids Hl Hd Hc] Hm. simpl in *. split; simpl.
  - intros k m. destruct (decide (movieId = k)) as [<-|Hne].
    + rewrite lookup_insert_eq. intros [= <-]. simpl. eauto.
    + rewrite lookup_insert_ne by done. apply Hids.
  - intros u m. unfold rating_of.
    destruct (decide (userId = u)) as [<-|Hu].
    + rewrite lookup_insert_eq.
      destruct (decide (movieId = m)) as [<-|Hmm].
      * rewrite get_set_eq, lookup_insert_eq. split; [|eauto].
        intros _. eexists. split; [reflexivity|]. simpl.
        apply elem_of_app. right. apply list_elem_of_here.
      * rewrite get_set_ne, lookup_insert_ne by done.
        rewrite <- (Hl userId m). unfold rating_of.
        destruct (user_dict !! userId); simpl; [reflexivity|].
        split; intros [? ?]; discriminate.
    + rewrite lookup_insert_ne by done.
      change (is_Some (rating_of user_dict u m) <->
              exists m0, <[movieId := append_user movie userId]> movie_dict !! m
                         = Some m0 /\ u ∈ users m0).
      rewrite (Hl u m).
      destruct (decide (movieId = m)) as [<-|Hmm].
      * rewrite lookup_insert_eq. split.
        -- intros (m0 & Hm0 & Hin). rewrite Hm in Hm0. injection Hm0 as <-.
           eexists. split; [reflexivity|]. simpl. apply elem_of_app. now left.
        -- intros (m0 & [= <-] & Hin). simpl in Hin.
           apply elem_of_app in Hin as [Hin|Hin]; [eauto|].
           apply list_elem_of_singleton in Hin. congruence.
      * now rewrite lookup_insert_ne by done.
  - intros u rated. destruct (decide (userId = u)) as [<-|Hu].
    + rewrite lookup_insert_eq. intros [= <-]. apply keys_set_NoDup.
      destruct (user_dict !! userId) as [d|] eqn:Hdu; simpl; [eauto|].
      apply NoDup_nil_2.
    + rewrite lookup_insert_ne by done. apply Hd.
  - intros a b ma v Ha Hv.
    assert (Hold : exists ma0, movie_dict !! a = Some ma0 /\
                               similarities ma0 = similarities ma).
    { destruct (decide (movieId = a)) as [<-|Hne].
      - rewrite lookup_insert_eq in Ha. injection Ha as <-. eauto.
      - rewrite lookup_insert_ne in Ha by done. eauto. }
    destruct Hold as (ma0 & Ha0 & Hsim). rewrite <- Hsim in Hv.
    destruct (Hc _ _ _ _ Ha0 Hv) as (mb & Hb & Hbv).
    destruct (decide (movieId = b)) as [<-|Hne].
    + rewrite lookup_insert_eq. eexists. split; [reflexivity|]. simpl.
      rewrite Hm in Hb. now injection Hb as <-.
    + rewrite lookup_insert_ne by done. eauto.
Qed.

Lemma load_ratings_wf_f rows : forall movie_dict user_dict movie_dict' user_dict',
  wf {| movie_dict := movie_dict; user_dict := user_dict |} ->
  load_ratings rows movie_dict user_dict = Return (movie_dict', user_dict') ->
  wf {| movie_dict := movie_dict'; user_dict := user_dict' |}.
Proof.
  induction rows as [|[|userId movieId rating] rest IH];
    intros md ud md' ud' Hwf; simpl.
  - now intros [= <- <-].
  - now apply IH.
  - unfold subscript. destruct (md !! movieId) as [movie|] eqn:Hm; [|discriminate].
    simpl. pose proof (rating_row_wf_f md ud userId movieId rating movie Hwf Hm) as H1.
    destruct (ud !! userId) as [d|]; simpl in H1; now apply IH.
Qed.

Lemma init_wf_f movie_rows training_rows s :
  init movie_rows training_rows = Return s -> wf s.
Proof.
  unfold init. intros H.
  destruct (load_ratings training_rows (load_movies movie_rows ∅) ∅)
    as [[md ud]|e] eqn:Hload; [|discriminate].
  simpl in H. injection H as <-.
  apply (load_ratings_wf_f _ _ _ _ _) with (2 := Hload).
  destruct (load_movies_fresh_f movie_rows ∅) as [Hids Hf].
  - intros k m. now rewrite lookup_empty.
  - intros k m. now rewrite lookup_empty.
  - now apply fresh_wf_f.
Qed.

(** The stored ratings after one training row. *)
Lemma rating_of_row_f (user_dict : rating_matrix) userId movieId rating u m :
  rating_of (<[userId := PyDict.set (default PyDict.empty (user_dict !! userId))
                           movieId rating]> user_dict) u m =
  if decide (u = userId /\ m = movieId) then Some rating
  else rating_of user_dict u m.
Proof.
  unfold rating_of. destruct (decide (userId = u)) as [<-|Hu].
  - rewrite lookup_insert_eq. destruct (decide (movieId = m)) as [<-|Hm].
    + rewrite get_set_eq. now rewrite decide_True.
    + rewrite get_set_ne by done. rewrite decide_False by (intros [_ ->]; done).
      now destruct (user_dict !! userId).
  - rewrite lookup_insert_ne by done.
    now rewrite decide_False by (intros [-> _]; done).
Qed.

(** A training file without a repeated (user, movie) pair leaves every
    raters list duplicate-free. *)
Lemma load_ratings_NoDup_f rows : forall movie_dict user_dict movie_dict' user_dict',
  wf {| movie_dict := movie_dict; user_dict := user_dict |} ->
  (forall k m, movie_dict !! k = Some m -> NoDup (users m)) ->
  NoDup (rated_pairs rows) ->
  (forall u m, (u, m) ∈ rated_pairs rows -> rating_of user_dict u m = None) ->
  load_ratings rows movie_dict user_dict = Return (movie_dict', user_dict') ->
  forall k m, movie_dict' !! k = Some m -> NoDup (users m).
Proof.
  induction rows as [|[|userId movieId rating] rest IH];
    intros md ud md' ud' Hwf Hnd Hpairs Hfresh; simpl.
  - now intros [= <- <-].
  - now apply IH.
  - unfold subscript. destruct (md !! movieId) as [movie|] eqn:Hm; [|discriminate].
    simpl.
    pose proof (rating_row_wf_f md ud userId movieId rating movie Hwf Hm) as Hwf1.
    unfold rated_pairs in Hpairs, Hfresh. simpl in Hpairs, Hfresh.
    fold (rated_pairs rest) in Hpairs, Hfresh.
    apply NoDup_cons in Hpairs as [Hnew Hpairs].
    assert (Hload :
      load_ratings rest (<[movieId := append_user movie userId]> md)
        (<[userId := PyDict.set (default PyDict.empty (ud !! userId))
                       movieId rating]> ud) = Return (md', ud') ->
      forall k m, md' !! k = Some m -> NoDup (users m)).
    { apply IH; [exact Hwf1| |exact Hpairs|].
      - intros k m. destruct (decide (movieId = k)) as [<-|Hne].
        + rewrite lookup_insert_eq. intros [= <-]. simpl.
          apply NoDup_app. split; [eauto|]. split; [|apply NoDup_singleton].
          intros u Hin ->%list_elem_of_singleton.
          destruct (proj2 (wf_lockstep _ Hwf userId movieId)) as [x Hx];
            [simpl; eauto|].
          simpl in Hx. rewrite Hfresh in Hx by apply list_elem_of_here.
          discriminate.
        + rewrite lookup_insert_ne by done. apply Hnd.
      - intros u m Hin. rewrite rating_of_row_f.
        rewrite decide_False.
        + apply Hfresh. now apply list_elem_of_further.
        + intros [-> ->]. contradiction. }
    destruct (ud !! userId) as [d|]; simpl in Hload; exact Hload.
Qed.

Lemma init_NoDup_f movie_rows training_rows s :
  init movie_rows training_rows = Return s ->
  NoDup (rated_pairs training_rows) ->
  forall k m, movie_dict s !! k = Some m -> NoDup (users m).
Proof.
  unfold init. intros H Hnd.
  destruct (load_ratings training_rows (load_movies movie_rows ∅) ∅)
    as [[md ud]|e] eqn:Hload; [|discriminate].
  simpl in H. injection H as <-. simpl.
  destruct (load_movies_fresh_f movie_rows ∅) as [Hids Hf];
    [intros k m; now rewrite lookup_empty..|].
  apply (load_ratings_NoDup_f training_rows (load_movies movie_rows ∅) ∅ md ud);
    [now apply fresh_wf_f| |exact Hnd| |exact Hload].
  - intros k m Hk. destruct (Hf k m Hk) as [-> _]. apply NoDup_nil_2.
  - intros u m _. unfold rating_of. now rewrite lookup_empty.
Qed.

Lemma reachable_wf_f s : reachable s -> wf s.
Proof.
  induction 1 as [mr tr s Hinit|s c _ IH].
  - exact (init_wf_f mr tr s Hinit).
  - now apply after_wf_f.
Qed.


Lemma similarity_eq_f (s : Movie_Recommendations) a b :
  similarity s a b =
  match similarity_outcome a b (user_dict s) (movie_dict s) with
  | Return v => v
  | Raise _ => None
  end.
Proof. unfold similarity. now rewrite fst_get_similarity_f. Qed.

Lemma no_rating_not_rater_f (s : Movie_Recommendations) user_id movie_id movie :
  lockstep (movie_dict s) (user_dict s) ->
  movie_dict s !! movie_id = Some movie ->
  rating_of (user_dict s) user_id movie_id = None ->
  user_id ∉ users movie.
Proof.
  intros Hl Hm Hnone Hin.
  destruct (proj2 (Hl user_id movie_id)) as [x Hx]; [eauto|]. congruence.
Qed.

(** The totals of the loop, summed over the keys, are the sums of the
    specification over the entries of the dictionary. *)
Lemma sums_over_entries_f (f : Z -> f64) (rated : PyDict.t f64) :
  NoDup (PyDict.keys rated) ->
  (fun m => f m * default 0%float (PyDict.get rated m)) <$> PyDict.keys rated =
  (fun entry => f (fst entry) * snd entry) <$> rated.
Proof.
  intros Hnd. unfold PyDict.keys. rewrite <- list_fmap_compose.
  apply list_fmap_ext. intros i [m rt] Hi%list_elem_of_lookup_2. simpl.
  now rewrite (elem_of_get rated m rt Hnd Hi).
Qed.

(** The keys the loop runs over are rated movies of the catalog, none of
    them the target. *)
Lemma rated_keys_f (s : Movie_Recommendations) user_id movie_id rated :
  lockstep (movie_dict s) (user_dict s) ->
  user_dict s !! user_id = Some rated ->
  PyDict.get rated movie_id = None ->
  forall m, m ∈ PyDict.keys rated ->
    is_Some (PyDict.get rated m) /\ m <> movie_id /\ is_Some (movie_dict s !! m).
Proof.
  intros Hl Hu Hnone m Hin.
  assert (Hsome : is_Some (PyDict.get rated m)) by now apply keys_get_Some.
  split; [exact Hsome|]. split.
  - intros ->. destruct Hsome as [x Hx]. congruence.
  - destruct (proj1 (Hl user_id m)) as (mm & Hmm & _); [|eauto].
    unfold rating_of. now rewrite Hu.
Qed.

(** The value [predict_rating] returns for an item the user has not rated. *)
Lemma predict_rating_unrated_value_f (s : Movie_Recommendations)
    user_id movie_id rated movie :
  wf s ->
  user_dict s !! user_id = Some rated ->
  movie_dict s !! movie_id = Some movie ->
  PyDict.get rated movie_id = None ->
  fst (predict_rating s user_id movie_id) =
  Return (prediction_formula s movie_id rated).
Proof.
  intros [Hids Hl Hd Hc] Hu Hm Hnone.
  pose proof (rated_keys_f s user_id movie_id rated Hl Hu Hnone) as Hkeys.
  unfold predict_rating.
  rewrite decide_False by (rewrite Hu, Hm; intros [?|?]; discriminate).
  rewrite Hm.
  rewrite decide_False.
  2:{ apply (no_rating_not_rater_f s user_id movie_id movie Hl Hm).
      unfold rating_of. now rewrite Hu. }
  rewrite Hu.
  destruct (predict_loop_spec_f (user_dict s) user_id movie_id rated Hu
              (PyDict.keys rated) (movie_dict s) 0 0 Hids Hl
              (ltac:(eauto))) as (md' & Hloop & _).
  { intros m Hin. destruct (Hkeys m Hin) as (? & ? & ?). now split. }
  rewrite Hloop. simpl.
  unfold prediction_formula, weightedSum, weightTotal, weight.
  rewrite (sums_over_entries_f _ rated (Hd _ _ Hu)).
  unfold PyDict.keys. rewrite <- list_fmap_compose.
  assert (Hext1 :
    (fun entry : Z * f64 =>
       default 0 match similarity_outcome (fst entry) movie_id (user_dict s)
                         (movie_dict s) with
                 | Return v => v | Raise _ => None end * snd entry) <$> rated =
    (fun entry => default 0%float (similarity s (fst entry) movie_id) * snd entry)
      <$> rated).
  { apply list_fmap_ext. intros _ e _. now rewrite similarity_eq_f. }
  assert (Hext2 :
    ((fun m => default 0 match similarity_outcome m movie_id (user_dict s)
                               (movie_dict s) with
                         | Return v => v | Raise _ => None end) ∘ fst)
      <$> rated =
    (fun entry => default 0%float (similarity s (fst entry) movie_id)) <$> rated).
  { apply list_fmap_ext. intros _ e _. simpl. now rewrite similarity_eq_f. }
  rewrite Hext1, Hext2. reflexivity.
Qed.


Lemma common_raters_lookup_f (s : Movie_Recommendations) a b ma mb :
  movie_dict s !! a = Some ma -> movie_dict s !! b = Some mb ->
  common_raters s a b = users_who_viewed_both (users ma) (users mb).
Proof.
  intros Ha Hb. unfold common_raters. rewrite !raters_lookup_f, Ha, Hb. reflexivity.
Qed.



(** C1.  For a known user and a known item that the user has no stored
    rating for, [predict_rating] adds, for every item the user rated and in
    the order of the user's dictionary, similarity * rating to one total and
    similarity to the other, with the similarity the operation answers for
    the rated item and the target, whatever its sign; it returns the
    quotient of the totals when the second total is not zero, and 2.5 when
    it is.  Totals, products and the quotient are those of double
    arithmetic. *)
Theorem predict_rating_unrated (s : Movie_Recommendations)
    (user_id movie_id : Z) (rated : PyDict.t f64) (movie : Movie) :
  reachable s ->
  user_dict s !! user_id = Some rated ->
  movie_dict s !! movie_id = Some movie ->
  PyDict.get rated movie_id = None ->
  (forall m rt, (m, rt) ∈ rated -> is_Some (similarity s m movie_id)) /\
  fst (predict_rating s user_id movie_id) =
    Return (prediction_formula s movie_id rated) /\
  (PrimFloat.eqb (weightTotal s movie_id rated) 0 = false ->
   fst (predict_rating s user_id movie_id) =
     Return (weightedSum s movie_id rated / weightTotal s movie_id rated)) /\
  (PrimFloat.eqb (weightTotal s movie_id rated) 0 = true ->
   fst (predict_rating s user_id movie_id) = Return 2.5).
Proof.
  intros Hreach Hu Hm Hnone.
  pose proof (reachable_wf_f s Hreach) as Hwf.
  pose proof (predict_rating_unrated_value_f s user_id movie_id rated movie
                Hwf Hu Hm Hnone) as Hpred.
  destruct Hwf as [Hids Hl Hd Hc].
  split; [|split; [exact Hpred|split]].
  - intros m rt Hin. rewrite similarity_eq_f.
    assert (Hmk : m ∈ PyDict.keys rated)
      by exact (list_elem_of_fmap_2 fst _ _ Hin).
    destruct (rated_keys_f s user_id movie_id rated Hl Hu Hnone m Hmk)
      as (_ & _ & Hknown).
    destruct (similarity_outcome_returns_f (user_dict s) (movie_dict s) m movie_id
                Hids Hl Hknown (ltac:(eauto))) as [v ->]. eauto.
  - intros Hnz. rewrite Hpred. unfold prediction_formula. now rewrite Hnz.
  - intros Hz. rewrite Hpred. unfold prediction_formula. now rewrite Hz.
Qed.




(** ** What every cached similarity is *)

Lemma cache_of_Some_f movie_dict a b v :
  cache_of movie_dict a !! b = Some v <->
  exists ma, movie_dict !! a = Some ma /\ similarities ma !! b = Some v.
Proof.
  unfold cache_of. destruct (movie_dict !! a) as [ma|].
  - split; [eauto|]. now intros (? & [= <-] & ?).
  - rewrite lookup_empty. split; [discriminate|]. now intros (? & ? & ?).
Qed.


Lemma cache_of_cached_both_f movie_dict a b ma mb v x y w :
  movie_dict !! a = Some ma ->
  <[a := set_similarity ma b v]> movie_dict !! b = Some mb ->
  id ma = a ->
  cache_of (cached_both movie_dict a b ma mb v) x !! y = Some w ->
  (x = a /\ y = b /\ w = v) \/ (x = b /\ y = a /\ w = v) \/
  cache_of movie_dict x !! y = Some w.
Proof.
  intros Ha Hb Hid. unfold cached_both, cache_of. rewrite Hid.
  destruct (decide (b = x)) as [<-|Hbx].
  - rewrite lookup_insert_eq. simpl.
    destruct (decide (a = y)) as [<-|Hay].
    + rewrite lookup_insert_eq. intros [= <-]. auto.
    + rewrite lookup_insert_ne by done.
      destruct (decide (a = b)) as [->|Hab].
      * rewrite lookup_insert_eq in Hb. injection Hb as <-. simpl.
        rewrite lookup_insert_ne by done. rewrite Ha. auto.
      * rewrite lookup_insert_ne in Hb by done. rewrite Hb. auto.
  - rewrite lookup_insert_ne by done.
    destruct (decide (a = x)) as [<-|Hax].
    + rewrite lookup_insert_eq. simpl. rewrite Ha.
      destruct (decide (b = y)) as [<-|Hby].
      * rewrite lookup_insert_eq. intros [= <-]. auto.
      * rewrite lookup_insert_ne by done. auto.
    + rewrite lookup_insert_ne by done. auto.
Qed.


Lemma load_ratings_caches_f rows : forall movie_dict user_dict movie_dict' user_dict',
  (forall k m, movie_dict !! k = Some m -> similarities m = ∅) ->
  load_ratings rows movie_dict user_dict = Return (movie_dict', user_dict') ->
  forall k m, movie_dict' !! k = Some m -> similarities m = ∅.
Proof.
  induction rows as [|[|userId movieId rating] rest IH];
    intros md ud md' ud' Hempty; simpl.
  - now intros [= <- <-].
  - now apply IH.
  - unfold subscript. destruct (md !! movieId) as [movie|] eqn:Hm; [|discriminate].
    simpl.
    assert (Hempty' : forall k m,
              <[movieId := append_user movie userId]> md !! k = Some m ->
              similarities m = ∅).
    { intros k m. destruct (decide (movieId = k)) as [<-|Hne].
      - rewrite lookup_insert_eq. intros [= <-]. simpl. eauto.
      - rewrite lookup_insert_ne by done. apply Hempty. }
    destruct (ud !! userId) as [d|]; now apply IH.
Qed.

(** The constructor leaves every cache empty. *)
Lemma init_cache_empty_f movie_rows training_rows s a :
  init movie_rows training_rows = Return s -> cache_of (movie_dict s) a = ∅.
Proof.
  unfold init. intros H.
  destruct (load_ratings training_rows (load_movies movie_rows ∅) ∅)
    as [[md ud]|e] eqn:Hload; [|discriminate].
  simpl in H. injection H as <-. unfold cache_of. simpl.
  destruct (md !! a) as [m|] eqn:Ha; [|reflexivity].
  apply (load_ratings_caches_f training_rows (load_movies movie_rows ∅) ∅ md ud)
    with (k := a); [|exact Hload|exact Ha].
  intros k m0 Hk.
  destruct (load_movies_fresh_f movie_rows ∅) as [_ Hf];
    [intros ? ?; now rewrite lookup_empty..|].
  exact (proj2 (Hf k m0 Hk)).
Qed.

Section CacheValuesF.
Variable R : Movie_Recommendations -> Z -> Z -> f64 -> Prop.
Hypothesis R_frame :
  forall (s s' : Movie_Recommendations) a b v,
    user_dict s' = user_dict s ->
    raters (movie_dict s') = raters (movie_dict s) ->
    R s a b v -> R s' a b v.
Hypothesis R_sym : forall s a b v, R s a b v -> R s b a v.
Hypothesis R_compute :
  forall (s : Movie_Recommendations) a b ma mb v,
    keys_are_ids (movie_dict s) -> lockstep (movie_dict s) (user_dict s) ->
    movie_dict s !! a = Some ma -> movie_dict s !! b = Some mb ->
    compute_similarity ma b (movie_dict s) (user_dict s) = Return v ->
    R s a b v.

Let holds (s : Movie_Recommendations) (md : movie_store) : Prop :=
  raters md = raters (movie_dict s) /\ keys_are_ids md /\
  lockstep md (user_dict s) /\
  forall a b v, cache_of md a !! b = Some v -> R s a b v.

Lemma get_similarity_holds_f (s : Movie_Recommendations) (md : movie_store) a b :
  holds s md -> holds s (snd (get_similarity a b (user_dict s) md)).
Proof.
  intros (Hr & Hids & Hl & HR).
  destruct (get_similarity_cases_f (user_dict s) md a b)
    as [->|(ma & mb & v & Ha & Hb & Hmiss & Hv & ->)];
    [exact (conj Hr (conj Hids (conj Hl HR)))|].
  simpl.
  pose proof (raters_cached_both_f md a b ma mb v Ha Hb) as Hr'.
  split; [now rewrite Hr'|].
  split; [now apply keys_are_ids_cached_both_f|].
  split; [exact (lockstep_raters_f (user_dict s) md _ Hr' Hl)|].
  assert (Hmb0 : is_Some (md !! b)).
  { destruct (decide (a = b)) as [->|Hne]; [eauto|].
    rewrite lookup_insert_ne in Hb by done. eauto. }
  destruct Hmb0 as [mb0 Hmb0].
  assert (HRab : R s a b v).
  { apply (R_frame {| movie_dict := md; user_dict := user_dict s |} s);
      [reflexivity | simpl; now rewrite Hr |].
    now apply (R_compute {| movie_dict := md; user_dict := user_dict s |}
                 a b ma mb0 v). }
  intros x y w Hw.
  apply (cache_of_cached_both_f md a b ma mb v x y w Ha Hb (Hids _ _ Ha)) in Hw
    as [(-> & -> & ->)|[(-> & -> & ->)|Hold]].
  - exact HRab.
  - now apply R_sym.
  - now apply HR.
Qed.

Lemma reachable_cache_values_f (s : Movie_Recommendations) :
  reachable s -> forall a b v, cache_of (movie_dict s) a !! b = Some v -> R s a b v.
Proof.
  induction 1 as [mr tr s Hinit|s c Hreach IH].
  - intros a b v. rewrite (init_cache_empty_f mr tr s a Hinit), lookup_empty.
    discriminate.
  - destruct (reachable_wf_f s Hreach) as [Hids Hl _ _].
    destruct (after_preserves_f (holds s) (user_dict s)
                (get_similarity_holds_f s) s c eq_refl)
      as [Hud (Hr & _ & _ & HR)];
      [exact (conj eq_refl (conj Hids (conj Hl IH)))|].
    intros a b v Hv. apply (R_frame s); [exact Hud|exact Hr|].
    now apply HR.
Qed.

(** What holds of the cached values holds of every answer of the operation. *)
Lemma reachable_similarity_values_f (s : Movie_Recommendations) a b v :
  reachable s -> similarity s a b = Some v -> R s a b v.
Proof.
  intros Hreach. rewrite similarity_eq_f. unfold similarity_outcome.
  destruct (movie_dict s !! a) as [ma|] eqn:Ha; [|discriminate].
  destruct (decide (is_Some (movie_dict s !! b))) as [[mb Hb]|]; [|discriminate].
  destruct (similarities ma !! b) as [w|] eqn:Hhit.
  - intros [= <-]. apply (reachable_cache_values_f s Hreach).
    apply cache_of_Some_f. eauto.
  - destruct (reachable_wf_f s Hreach) as [Hids Hl _ _].
    destruct (compute_similarity ma b (movie_dict s) (user_dict s)) as [w|e] eqn:Hc.
    + intros [= <-]. now apply (R_compute s a b ma mb).
    + now destruct e.
Qed.
End CacheValuesF.


Lemma similarity_formula_frame_f (s s' : Movie_Recommendations) a b :
  user_dict s' = user_dict s ->
  raters (movie_dict s') = raters (movie_dict s) ->
  similarity_formula s' a b = similarity_formula s a b.
Proof.
  intros Hud Hr.
  unfold similarity_formula, similarity_value, common_raters, abs_diff.
  now rewrite Hud, Hr.
Qed.

(** The value [compute_similarity] returns is the value of the formula. *)
Lemma compute_similarity_value_f (s : Movie_Recommendations) a b ma mb v :
  keys_are_ids (movie_dict s) -> lockstep (movie_dict s) (user_dict s) ->
  movie_dict s !! a = Some ma -> movie_dict s !! b = Some mb ->
  compute_similarity ma b (movie_dict s) (user_dict s) = Return v ->
  v = similarity_formula s a b.
Proof.
  intros Hids Hl Ha Hb.
  rewrite (compute_similarity_wf_f (user_dict s) (movie_dict s) a b ma mb Hids Hl Ha Hb).
  intros [= <-]. unfold similarity_formula, similarity_value, abs_diff.
  now rewrite (common_raters_lookup_f s a b ma mb Ha Hb).
Qed.


(** X9.  In every reachable state the value the similarity operation answers
    for a pair, from the cache or freshly computed, is the double that
    [compute_similarity] gives on the ratings as they are, computed from one
    of the two sides of the pair: the cache never serves anything else. *)
Theorem similarity_is_formula (s : Movie_Recommendations) (a b : Z) (v : f64) :
  reachable s -> similarity s a b = Some v ->
  v = similarity_formula s a b \/ v = similarity_formula s b a.
Proof.
  change (reachable s -> similarity s a b = Some v -> formula_value s a b v).
  apply (reachable_similarity_values_f formula_value).
  - intros s0 s' x y w Hud Hr [-> | ->]; [left | right];
      now rewrite (similarity_formula_frame_f s0 s').
  - intros s0 x y w [-> | ->]; [now right | now left].
  - intros s0 x y mx my w Hids Hl Hx Hy Hc. left.
    exact (compute_similarity_value_f s0 x y mx my w Hids Hl Hx Hy Hc).
Qed.

End Float64.

(** The example in which the weights of the two rated movies are
    0.7777777777777778 and -0.7777777777777777: the weight total is about
    1.1e-16, not zero, so the call divides. *)
Lemma predict_rating_unrated_witness :
  fst (predict_rating (builtins := sum_left_to_right) cancel_state 1 3) =
  Return (weightedSum (builtins := sum_left_to_right) cancel_state 3
            [(1%Z, 5); (2%Z, 1)] /
          weightTotal (builtins := sum_left_to_right) cancel_state 3
            [(1%Z, 5); (2%Z, 1)]).
Proof.
  refine (proj1 (proj2 (proj2
            (predict_rating_unrated (builtins := sum_left_to_right)
               cancel_state 1 3 [(1%Z, 5); (2%Z, 1)]
               {| id := 3; title := "C"; users := [2%Z; 3%Z]; similarities := ∅ |}
               _ _ _ _))) _).
  - apply (reachable_init ex_movies cancel_training). reflexivity.
  - reflexivity.
  - reflexivity.
  - reflexivity.
  - vm_compute. reflexivity.
Defined.

Example predict_rating_small_total :
  similarity (builtins := sum_left_to_right) cancel_state 1 3 =
    Some (1 - 1 / 1 / 4.5) /\
  similarity (builtins := sum_left_to_right) cancel_state 2 3 =
    Some (1 - 8 / 1 / 4.5) /\
  PrimFloat.ltb (1 - 8 / 1 / 4.5) 0 = true /\
  PrimFloat.eqb (weightTotal (builtins := sum_left_to_right) cancel_state 3
                   [(1%Z, 5); (2%Z, 1)]) 0 = false /\
  exists p,
    fst (predict_rating (builtins := sum_left_to_right) cancel_state 1 3) =
      Return p /\
    PrimFloat.ltb 1e16 p = true.
Proof.
  split; [vm_compute; reflexivity|].
  split; [vm_compute; reflexivity|].
  split; [vm_compute; reflexivity|].
  split; [vm_compute; reflexivity|].
  eexists. split; vm_compute; reflexivity.
Qed.

(** The end-to-end example: user 1 is predicted to rate movie 3 at 3.0. *)
Example predict_rating_example :
  fst (predict_rating (builtins := sum_left_to_right) ex_state 1 3) = Return 3.
Proof. vm_compute. reflexivity. Qed.



(** Nothing is clamped: one common rater with equal ratings gives exactly
    1.0, one who differs by 5 points gives 1 - 5 / 4.5, which is negative. *)
Example compute_similarity_not_clamped :
  similarity (builtins := sum_left_to_right) ex_state 1 1 = Some 1 /\
  similarity (builtins := sum_left_to_right) far_state 1 2 =
    Some (1 - 5 / 1 / 4.5) /\
  PrimFloat.ltb (1 - 5 / 1 / 4.5) 0 = true.
Proof. repeat split; vm_compute; reflexivity. Qed.

(** After movies 2 and 1 were asked for, the call for movies 1 and 2 returns
    the value computed from the side of movie 2. *)
Lemma similarity_is_formula_witness :
  1 - (1 + 0) / 2 / 4.5 =
    similarity_formula (builtins := sum_left_to_right)
      (after (builtins := sum_left_to_right) dup_state (call_get_similarity 2 1)) 1 2 \/
  1 - (1 + 0) / 2 / 4.5 =
    similarity_formula (builtins := sum_left_to_right)
      (after (builtins := sum_left_to_right) dup_state (call_get_similarity 2 1)) 2 1.
Proof.
  apply (similarity_is_formula (builtins := sum_left_to_right)).
  - apply reachable_call, (reachable_init dup_movies dup_training). reflexivity.
  - vm_compute. reflexivity.
Defined.

End F64Facts.

(** * Further properties *)

(** ** What the constructor builds *)

Lemma load_movies_lookup rows : forall (movie_dict : movie_store) k,
  load_movies rows movie_dict !! k =
  match last_title rows k with
  | Some t => Some (new_Movie k t)
  | None => movie_dict !! k
  end.
Proof.
  induction rows as [|[|movieId t] rest IH]; intros md k; simpl.
  - reflexivity.
  - rewrite IH. now destruct (last_title rest k).
  - rewrite IH. destruct (last_title rest k); [reflexivity|].
    destruct (decide (movieId = k)) as [->|Hne].
    + now rewrite lookup_insert_eq.
    + now rewrite lookup_insert_ne.
Qed.

Lemma add_raters_nil (m : Movie) : add_raters [] m = m.
Proof. destruct m. unfold add_raters. simpl. now rewrite app_nil_r. Qed.

Lemma add_raters_append (m : Movie) u us :
  add_raters us (append_user m u) = add_raters (u :: us) m.
Proof. unfold add_raters, append_user. simpl. now rewrite <- app_assoc. Qed.

(** The two dictionaries after the training rows, row by row. *)
Lemma load_ratings_spec rows : forall movie_dict user_dict movie_dict' user_dict',
  load_ratings rows movie_dict user_dict = Return (movie_dict', user_dict') ->
  (forall k, movie_dict' !! k = add_raters (file_raters rows k) <$> movie_dict !! k) /\
  (forall u m, rating_of user_dict' u m =
               match last_rating rows u m with
               | Some r => Some r
               | None => rating_of user_dict u m
               end).
Proof.
  induction rows as [|[|userId movieId rating] rest IH]; intros md ud md' ud'; simpl.
  - intros [= <- <-]. split; [|reflexivity].
    intros k. destruct (md !! k) as [m|]; simpl; [|reflexivity].
    now rewrite add_raters_nil.
  - intros Hload. destruct (IH _ _ _ _ Hload) as [Hmd Hud].
    split; [exact Hmd|].
    intros u m. rewrite Hud. now destruct (last_rating rest u m).
  - unfold subscript. destruct (md !! movieId) as [movie|] eqn:Hm; [|discriminate].
    simpl. intros Hload.
    assert (Hload' :
      load_ratings rest (<[movieId := append_user movie userId]> md)
        (<[userId := PyDict.set (default PyDict.empty (ud !! userId))
                       movieId rating]> ud) = Return (md', ud'))
      by (destruct (ud !! userId); exact Hload).
    destruct (IH _ _ _ _ Hload') as [Hmd Hud]. split.
    + intros k. rewrite Hmd. unfold file_raters. simpl.
      fold (file_raters rest k).
      destruct (decide (movieId = k)) as [<-|Hne].
      * rewrite lookup_insert_eq, Hm. simpl. now rewrite add_raters_append.
      * now rewrite lookup_insert_ne.
    + intros u m. rewrite Hud, rating_of_row.
      destruct (last_rating rest u m); [reflexivity|].
      destruct (decide (userId = u /\ movieId = m)) as [[-> ->]|Hne].
      * now rewrite decide_True.
      * rewrite decide_False; [reflexivity|]. intros [-> ->]. now apply Hne.
Qed.

(** The training rows are read to the end exactly when each of them names a
    movie of the catalog; the only failure is a [KeyError]. *)
Lemma load_ratings_outcome rows : forall (movie_dict : movie_store) user_dict,
  (Forall (fun p => is_Some (movie_dict !! snd p)) (rated_pairs rows) /\
   exists dicts, load_ratings rows movie_dict user_dict = Return dicts) \/
  (~ Forall (fun p => is_Some (movie_dict !! snd p)) (rated_pairs rows) /\
   load_ratings rows movie_dict user_dict = Raise KeyError).
Proof.
  induction rows as [|[|userId movieId rating] rest IH]; intros md ud; simpl.
  - left. split; [constructor | eauto].
  - apply IH.
  - unfold rated_pairs. simpl. fold (rated_pairs rest).
    unfold subscript. destruct (md !! movieId) as [movie|] eqn:Hm; simpl.
    + assert (Hkeys : forall k,
                is_Some (<[movieId := append_user movie userId]> md !! k) <->
                is_Some (md !! k)).
      { intros k. destruct (decide (movieId = k)) as [<-|Hne].
        - rewrite lookup_insert_eq, Hm. split; eauto.
        - now rewrite lookup_insert_ne. }
      assert (Hall : Forall (fun p => is_Some (md !! snd p)) (rated_pairs rest) <->
                     Forall (fun p => is_Some
                       (<[movieId := append_user movie userId]> md !! snd p))
                       (rated_pairs rest)).
      { rewrite !Forall_forall. split; intros H p Hp; apply Hkeys, H, Hp. }
      destruct (IH (<[movieId := append_user movie userId]> md)
                   (<[userId := PyDict.set (default PyDict.empty (ud !! userId))
                                  movieId rating]> ud))
        as [[Hok [dicts Hd]]|[Hbad Hd]].
      * left. split.
        -- constructor; [simpl; rewrite Hm; eauto | now apply Hall].
        -- exists dicts. destruct (ud !! userId); exact Hd.
      * right. split.
        -- intros Hf. apply Hbad, Hall. now inversion Hf.
        -- destruct (ud !! userId); exact Hd.
    + right. split; [|reflexivity].
      intros Hf. inversion Hf as [|? ? [x Hx] _]. simpl in Hx. congruence.
Qed.

Lemma init_unfold movie_rows training_rows s :
  init movie_rows training_rows = Return s ->
  load_ratings training_rows (load_movies movie_rows ∅) ∅ =
  Return (movie_dict s, user_dict s).
Proof.
  unfold init. intros H.
  destruct (load_ratings training_rows (load_movies movie_rows ∅) ∅)
    as [[md ud]|e]; [|discriminate].
  simpl in H. now injection H as <-.
Qed.

Lemma catalog_is_Some movie_rows k :
  is_Some (load_movies movie_rows ∅ !! k) <-> is_Some (last_title movie_rows k).
Proof.
  rewrite load_movies_lookup. destruct (last_title movie_rows k).
  - split; eauto.
  - rewrite lookup_empty. split; intros [? ?]; discriminate.
Qed.

(** *** The constructor on the rows of the files *)

Section ConstructorLines.
Variables (str_to_int : string -> option Z) (str_to_float : string -> option Q).

Local Abbreviation parse_movie := (parse_movie_line str_to_int).
Local Abbreviation parse_rating := (parse_rating_line str_to_int str_to_float).

(** One row of the movie file. *)
Lemma load_movie_lines_cons line rest movie_dict :
  match parse_movie line with
  | Some MovieHeader =>
      load_movie_lines str_to_int (line :: rest) movie_dict =
      load_movie_lines str_to_int rest movie_dict
  | Some (MovieRow movieId t) =>
      load_movie_lines str_to_int (line :: rest) movie_dict =
      load_movie_lines str_to_int rest (<[movieId := new_Movie movieId t]> movie_dict)
  | None =>
      exists e, load_movie_lines str_to_int (line :: rest) movie_dict = Raise e /\
                (e = IndexError \/ e = ValueError)
  end.
Proof.
  unfold parse_movie_line.
  destruct (line !! 0%nat) as [line0|] eqn:H0.
  2:{ simpl. unfold item. rewrite H0. simpl. eauto. }
  destruct (decide (line0 = "movieId")) as [Hh|Hh].
  { simpl. unfold item. rewrite H0. simpl. now rewrite decide_True. }
  destruct (str_to_int line0) as [movieId|] eqn:Hi.
  2:{ simpl. unfold item, int_of. rewrite H0. simpl.
      rewrite decide_False, Hi by done. simpl. eauto. }
  destruct (line !! 1%nat) as [t|] eqn:H1.
  - simpl. unfold item, int_of. rewrite H0. simpl.
    rewrite decide_False, Hi by done. simpl. now rewrite H1.
  - simpl. unfold item, int_of. rewrite H0. simpl.
    rewrite decide_False, Hi by done. simpl. rewrite H1. simpl. eauto.
Qed.

Lemma load_movie_lines_parsed lines : forall movie_dict,
  match mapM parse_movie lines with
  | Some rows =>
      load_movie_lines str_to_int lines movie_dict =
      Return (load_movies rows movie_dict)
  | None =>
      exists e, load_movie_lines str_to_int lines movie_dict = Raise e /\
                (e = IndexError \/ e = ValueError)
  end.
Proof.
  induction lines as [|line rest IH]; intros md; [reflexivity|].
  pose proof (load_movie_lines_cons line rest md) as Hstep.
  cbn [mapM].
  destruct (parse_movie line) as [[|movieId t]|]; [| |exact Hstep].
  - rewrite Hstep. specialize (IH md).
    destruct (mapM parse_movie rest); simpl; exact IH.
  - rewrite Hstep. specialize (IH (<[movieId := new_Movie movieId t]> md)).
    destruct (mapM parse_movie rest); simpl; exact IH.
Qed.

(** One row of the training file. *)
Lemma load_rating_lines_cons line rest movie_dict user_dict :
  match parse_rating line with
  | Some row =>
      load_rating_lines str_to_int str_to_float (line :: rest) movie_dict user_dict =
      match row with
      | RatingHeader =>
          load_rating_lines str_to_int str_to_float rest movie_dict user_dict
      | RatingRow userId movieId rating =>
          let? movie := subscript movie_dict movieId in
          load_rating_lines str_to_int str_to_float rest
            (<[movieId := append_user movie userId]> movie_dict)
            (<[userId := PyDict.set (default PyDict.empty (user_dict !! userId))
                           movieId rating]> user_dict)
      end
  | None =>
      exists e,
        load_rating_lines str_to_int str_to_float (line :: rest) movie_dict user_dict =
        Raise e /\
        (e = IndexError \/ e = ValueError \/ e = KeyError)
  end.
Proof.
  unfold parse_rating_line.
  destruct (line !! 0%nat) as [line0|] eqn:H0.
  2:{ simpl. unfold item. rewrite H0. simpl. eauto. }
  destruct (decide (line0 = "userId")) as [Hh|Hh].
  { simpl. unfold item. rewrite H0. simpl. now rewrite decide_True. }
  assert (Hstart :
    load_rating_lines str_to_int str_to_float (line :: rest) movie_dict user_dict =
    let? line1 := item line 1 in
    let? movieId := int_of str_to_int line1 in
    let? movie := subscript movie_dict movieId in
    let? userId := int_of str_to_int line0 in
    let? line2 := item line 2 in
    let? rating := float_of str_to_float line2 in
    load_rating_lines str_to_int str_to_float rest
      (<[movieId := append_user movie userId]> movie_dict)
      (<[userId := PyDict.set (default PyDict.empty (user_dict !! userId))
                     movieId rating]> user_dict)).
  { simpl. unfold item at 1. rewrite H0. simpl. rewrite decide_False by done.
    destruct (item line 1) as [line1|]; simpl; [|reflexivity].
    destruct (int_of str_to_int line1) as [movieId|]; simpl; [|reflexivity].
    destruct (subscript movie_dict movieId) as [movie|]; simpl; [|reflexivity].
    destruct (int_of str_to_int line0) as [userId|]; simpl; [|reflexivity].
    destruct (item line 2) as [line2|]; simpl; [|reflexivity].
    destruct (float_of str_to_float line2) as [rating|]; simpl; [|reflexivity].
    now destruct (user_dict !! userId). }
  unfold item, int_of, float_of in Hstart. rewrite Hstart. clear Hstart.
  destruct (str_to_int line0) as [userId|]; simpl.
  - destruct (line !! 1%nat) as [line1|]; simpl; [|eauto].
    destruct (str_to_int line1) as [movieId|]; simpl; [|eauto 6].
    destruct (line !! 2%nat) as [line2|]; simpl.
    + destruct (str_to_float line2) as [rating|]; simpl; [reflexivity|].
      unfold subscript. destruct (movie_dict !! movieId); simpl; eauto 6.
    + unfold subscript. destruct (movie_dict !! movieId); simpl; eauto 6.
  - destruct (line !! 1%nat) as [line1|]; simpl; [|eauto].
    destruct (str_to_int line1) as [movieId|]; simpl; [|eauto 6].
    unfold subscript. destruct (movie_dict !! movieId); simpl; eauto 6.
Qed.

Lemma load_ratings_raises rows : forall (movie_dict : movie_store) user_dict e,
  load_ratings rows movie_dict user_dict = Raise e -> e = KeyError.
Proof.
  intros md ud e H.
  destruct (load_ratings_outcome rows md ud) as [[_ [d Hd]]|[_ Hd]];
    rewrite Hd in H; [discriminate | now injection H as <-].
Qed.

Lemma load_rating_lines_parsed lines : forall movie_dict user_dict,
  match mapM parse_rating lines with
  | Some rows =>
      load_rating_lines str_to_int str_to_float lines movie_dict user_dict =
      load_ratings rows movie_dict user_dict
  | None =>
      exists e,
        load_rating_lines str_to_int str_to_float lines movie_dict user_dict =
        Raise e /\
        (e = IndexError \/ e = ValueError \/ e = KeyError)
  end.
Proof.
  induction lines as [|line rest IH]; intros md ud; [reflexivity|].
  pose proof (load_rating_lines_cons line rest md ud) as Hstep.
  cbn [mapM].
  destruct (parse_rating line) as [[|userId movieId rating]|]; [| |exact Hstep].
  - rewrite Hstep. specialize (IH md ud).
    destruct (mapM parse_rating rest); simpl; exact IH.
  - rewrite Hstep. unfold subscript.
    destruct (md !! movieId) as [movie|] eqn:Hm; simpl.
    + specialize (IH (<[movieId := append_user movie userId]> md)
                     (<[userId := PyDict.set (default PyDict.empty (ud !! userId))
                                    movieId rating]> ud)).
      destruct (mapM parse_rating rest); simpl.
      * unfold subscript. rewrite Hm. simpl. rewrite IH.
        now destruct (ud !! userId).
      * exact IH.
    + destruct (mapM parse_rating rest); simpl; [|eauto 6].
      unfold subscript. now rewrite Hm.
Qed.

(** X1.  The constructor returns an object exactly when every row of both
    files has its fields (a first field, and for a data row an id that
    [int] accepts, a second field and so on) and every data row of the
    training file names a movie of the movie file; the object is then the one
    [init] builds from the parsed rows.  Otherwise the constructor ends with
    [IndexError] (a field is missing, as in a blank line), [ValueError] (a
    field is no number) or [KeyError] (a movie id that is not in the movie
    file, from [self.movie_dict[...]] on line 56), and with no other
    exception. *)
Theorem init_lines_outcome (movie_lines training_lines : list (list string)) :
  ((exists s, init_lines str_to_int str_to_float movie_lines training_lines = Return s)
   <->
   exists movie_rows training_rows,
     mapM parse_movie movie_lines = Some movie_rows /\
     mapM parse_rating training_lines = Some training_rows /\
     Forall (fun p => is_Some (last_title movie_rows (snd p)))
       (rated_pairs training_rows)) /\
  (forall movie_rows training_rows,
     mapM parse_movie movie_lines = Some movie_rows ->
     mapM parse_rating training_lines = Some training_rows ->
     init_lines str_to_int str_to_float movie_lines training_lines =
     init movie_rows training_rows) /\
  (forall e,
     init_lines str_to_int str_to_float movie_lines training_lines = Raise e ->
     e = IndexError \/ e = ValueError \/ e = KeyError).
Proof.
  assert (Hparsed : forall movie_rows training_rows,
     mapM parse_movie movie_lines = Some movie_rows ->
     mapM parse_rating training_lines = Some training_rows ->
     init_lines str_to_int str_to_float movie_lines training_lines =
     init movie_rows training_rows).
  { intros mr tr Hm Ht. unfold init_lines, init.
    pose proof (load_movie_lines_parsed movie_lines ∅) as H1.
    rewrite Hm in H1. rewrite H1. simpl.
    pose proof (load_rating_lines_parsed training_lines (load_movies mr ∅) ∅) as H2.
    rewrite Ht in H2. now rewrite H2. }
  assert (Hall : forall movie_rows training_rows,
     Forall (fun p => is_Some (last_title movie_rows (snd p)))
       (rated_pairs training_rows) <->
     Forall (fun p => is_Some (load_movies movie_rows ∅ !! snd p))
       (rated_pairs training_rows)).
  { intros mr tr. rewrite !Forall_forall.
    split; intros H p Hp; apply catalog_is_Some, H, Hp. }
  split; [|split; [exact Hparsed|]].
  - split.
    + intros [s Hs]. unfold init_lines in Hs.
      pose proof (load_movie_lines_parsed movie_lines ∅) as H1.
      destruct (mapM parse_movie movie_lines) as [mr|].
      2:{ destruct H1 as (e & He & _). rewrite He in Hs. discriminate. }
      rewrite H1 in Hs. simpl in Hs.
      pose proof (load_rating_lines_parsed training_lines (load_movies mr ∅) ∅) as H2.
      destruct (mapM parse_rating training_lines) as [tr|].
      2:{ destruct H2 as (e & He & _). rewrite He in Hs. discriminate. }
      exists mr, tr. split; [reflexivity|]. split; [reflexivity|].
      apply Hall. rewrite H2 in Hs.
      destruct (load_ratings_outcome tr (load_movies mr ∅) ∅)
        as [[Hok _]|[_ Hd]]; [exact Hok|].
      rewrite Hd in Hs. discriminate.
    + intros (mr & tr & Hm & Ht & Hok).
      rewrite (Hparsed mr tr Hm Ht). unfold init.
      destruct (load_ratings_outcome tr (load_movies mr ∅) ∅)
        as [[_ [dicts Hd]]|[Hbad _]].
      * rewrite Hd. simpl. eauto.
      * exfalso. now apply Hbad, Hall.
  - intros e He. unfold init_lines in He.
    pose proof (load_movie_lines_parsed movie_lines ∅) as H1.
    destruct (mapM parse_movie movie_lines) as [mr|].
    2:{ destruct H1 as (e' & He' & Hk). rewrite He' in He.
        injection He as <-. tauto. }
    rewrite H1 in He. simpl in He.
    pose proof (load_rating_lines_parsed training_lines (load_movies mr ∅) ∅) as H2.
    destruct (mapM parse_rating training_lines) as [tr|].
    2:{ destruct H2 as (e' & He' & Hk). rewrite He' in He.
        injection He as <-. exact Hk. }
    rewrite H2 in He.
    destruct (load_ratings tr (load_movies mr ∅) ∅) as [d|e'] eqn:Hl;
      [discriminate|].
    simpl in He. injection He as <-.
    right. right. exact (load_ratings_raises _ _ _ _ Hl).
Qed.

End ConstructorLines.

(** X2.  After construction the catalog holds exactly the ids of the movie
    file, each movie under its own id with the title of the last row for that
    id, with the users of its training rows as raters, in file order and as
    often as they occur, and with an empty similarity cache. *)
Theorem init_movie_dict (movie_rows : list movie_row)
    (training_rows : list rating_row) (s : Movie_Recommendations) :
  init movie_rows training_rows = Return s ->
  forall k,
    movie_dict s !! k =
    (fun t => {| id := k; title := t; users := file_raters training_rows k;
                 similarities := ∅ |}) <$> last_title movie_rows k.
Proof.
  intros Hinit k. apply init_unfold in Hinit.
  destruct (load_ratings_spec _ _ _ _ _ Hinit) as [Hmd _].
  rewrite Hmd, load_movies_lookup.
  destruct (last_title movie_rows k); simpl; [|now rewrite lookup_empty].
  reflexivity.
Qed.

Lemma init_movie_dict_witness :
  movie_dict ex_state !! 1%Z =
  (fun t => {| id := 1; title := t; users := file_raters ex_training 1;
               similarities := ∅ |}) <$> last_title ex_movies 1.
Proof.
  apply (init_movie_dict ex_movies ex_training ex_state). reflexivity.
Defined.

Lemma init_rating_of movie_rows training_rows s u m :
  init movie_rows training_rows = Return s ->
  rating_of (user_dict s) u m = last_rating training_rows u m.
Proof.
  intros Hinit. apply init_unfold in Hinit.
  destruct (load_ratings_spec _ _ _ _ _ Hinit) as [_ Hud].
  rewrite Hud. destruct (last_rating training_rows u m); [reflexivity|].
  unfold rating_of. now rewrite lookup_empty.
Qed.

Lemma last_rating_is_Some rows u m :
  is_Some (last_rating rows u m) <-> (u, m) ∈ rated_pairs rows.
Proof.
  induction rows as [|[|userId movieId rating] rest IH]; simpl.
  - split; [intros [? ?]; discriminate | intros H; now apply elem_of_nil in H].
  - unfold rated_pairs. simpl. fold (rated_pairs rest). rewrite <- IH.
    destruct (last_rating rest u m); [reflexivity|].
    split; intros [? ?]; discriminate.
  - unfold rated_pairs. simpl. fold (rated_pairs rest).
    rewrite elem_of_cons, <- IH.
    destruct (last_rating rest u m) as [r|].
    + split; eauto.
    + destruct (decide (userId = u /\ movieId = m)) as [[-> ->]|Hne].
      * split; eauto.
      * split; [intros [? ?]; discriminate|].
        intros [[= -> ->]|[? ?]]; [now exfalso; apply Hne | discriminate].
Qed.

(** X3.  After construction the rating matrix holds, for each (user, movie)
    pair, the rating of the last training row for that pair, and it holds a
    rating exactly for the pairs that have a row. *)
Theorem init_user_dict (movie_rows : list movie_row)
    (training_rows : list rating_row) (s : Movie_Recommendations) :
  init movie_rows training_rows = Return s ->
  forall u m,
    rating_of (user_dict s) u m = last_rating training_rows u m /\
    (is_Some (rating_of (user_dict s) u m) <-> (u, m) ∈ rated_pairs training_rows).
Proof.
  intros Hinit u m.
  pose proof (init_rating_of movie_rows training_rows s u m Hinit) as Hr.
  split; [exact Hr|]. rewrite Hr. apply last_rating_is_Some.
Qed.

Lemma init_user_dict_witness :
  rating_of (user_dict dup_state) 1 1 =
  last_rating [RatingRow 1 1 5; RatingRow 1 1 4; RatingRow 1 2 3;
               RatingRow 2 1 1; RatingRow 2 2 1] 1 1.
Proof.
  refine (proj1 (init_user_dict [MovieRow 1 "A"; MovieRow 2 "B"] _ dup_state _
                   1 1)).
  reflexivity.
Defined.

Lemma set_nonempty {V} (d : PyDict.t V) k v : PyDict.set d k v <> [].
Proof. destruct d as [|[k' v'] d]; simpl; [|destruct (decide (k' = k))]; discriminate. Qed.

Lemma load_ratings_nonempty rows : forall movie_dict user_dict movie_dict' user_dict',
  (forall u d, user_dict !! u = Some d -> d <> []) ->
  load_ratings rows movie_dict user_dict = Return (movie_dict', user_dict') ->
  forall u d, user_dict' !! u = Some d -> d <> [].
Proof.
  induction rows as [|[|userId movieId rating] rest IH];
    intros md ud md' ud' Hne; simpl.
  - intros [= <- <-]. exact Hne.
  - now apply IH.
  - unfold subscript. destruct (md !! movieId) as [movie|]; [|discriminate].
    simpl. destruct (ud !! userId) as [d0|]; apply IH; intros u d;
      (destruct (decide (userId = u)) as [<-|Hu];
        [rewrite lookup_insert_eq; intros [= <-];
         first [apply set_nonempty | discriminate]
        |rewrite lookup_insert_ne by done; apply Hne]).
Qed.

Lemma reachable_nonempty (s : Movie_Recommendations) :
  reachable s -> forall u d, user_dict s !! u = Some d -> d <> [].
Proof.
  induction 1 as [mr tr s Hinit|s c _ IH].
  - apply init_unfold in Hinit.
    apply (load_ratings_nonempty _ _ _ _ _) with (2 := Hinit).
    intros u d. now rewrite lookup_empty.
  - intros u d. rewrite (proj1 (after_frame s c)). apply IH.
Qed.

(** X4.  In every reachable state a user of the rating store has at least one
    rating, and each of the user's ratings is for a movie of the catalog whose
    raters list names the user: the constructor creates a user's dictionary
    only together with its first entry, and nothing removes entries. *)
Theorem known_user_has_rated (s : Movie_Recommendations) (u : Z)
    (rated : PyDict.t Q) :
  reachable s -> user_dict s !! u = Some rated ->
  rated <> [] /\
  forall m, m ∈ PyDict.keys rated ->
    exists movie, movie_dict s !! m = Some movie /\ u ∈ users movie.
Proof.
  intros Hreach Hu. split.
  - exact (reachable_nonempty s Hreach u rated Hu).
  - intros m Hm. apply (wf_lockstep s (reachable_wf s Hreach) u m).
    unfold rating_of. rewrite Hu. now apply keys_get_Some.
Qed.

Lemma known_user_has_rated_witness :
  [(1%Z, 5); (2%Z, 1)] <> [] /\
  forall m, m ∈ PyDict.keys [(1%Z, 5); (2%Z, 1)] ->
    exists movie, movie_dict ex_state !! m = Some movie /\ 1%Z ∈ users movie.
Proof.
  apply (known_user_has_rated ex_state 1 [(1%Z, 5); (2%Z, 1)]).
  - apply (reachable_init ex_movies ex_training). reflexivity.
  - reflexivity.
Defined.

(** ** Batches of predictions *)

(** Apart from the caches every movie object stays as it is. *)
Lemma identity_cached_both movie_dict a b ma mb v :
  movie_dict !! a = Some ma ->
  <[a := set_similarity ma b v]> movie_dict !! b = Some mb ->
  identity_of <$> cached_both movie_dict a b ma mb v = identity_of <$> movie_dict.
Proof.
  intros Ha Hb. unfold cached_both. apply map_eq. intros k.
  rewrite !lookup_fmap.
  destruct (decide (b = k)) as [<-|Hbk].
  - rewrite lookup_insert_eq. simpl.
    destruct (decide (a = b)) as [->|Hab].
    + rewrite lookup_insert_eq in Hb. injection Hb as <-. now rewrite Ha.
    + rewrite lookup_insert_ne in Hb by done. now rewrite Hb.
  - rewrite lookup_insert_ne by done.
    destruct (decide (a = k)) as [<-|Hak].
    + rewrite lookup_insert_eq. now rewrite Ha.
    + now rewrite lookup_insert_ne by done.
Qed.

Lemma get_similarity_identity user_dict movie_dict a b :
  identity_of <$> snd (get_similarity a b user_dict movie_dict) =
  identity_of <$> movie_dict.
Proof.
  destruct (get_similarity_cases user_dict movie_dict a b)
    as [->|(ma & mb & v & Ha & Hb & _ & _ & ->)]; [reflexivity|].
  simpl. now apply identity_cached_both.
Qed.

Lemma get_similarity_identity_step (s : Movie_Recommendations) :
  forall (md : movie_store) a b,
    identity_of <$> md = identity_of <$> movie_dict s ->
    identity_of <$> snd (get_similarity a b (user_dict s) md) =
    identity_of <$> movie_dict s.
Proof. intros md a b H. now rewrite get_similarity_identity. Qed.

Lemma identity_lookup (movie_dict movie_dict' : movie_store) k :
  identity_of <$> movie_dict' = identity_of <$> movie_dict ->
  identity_of <$> (movie_dict' !! k) = identity_of <$> (movie_dict !! k).
Proof. intros H. now rewrite <- !lookup_fmap, H. Qed.

Lemma identity_title (s s' : Movie_Recommendations) k :
  identity_of <$> movie_dict s' = identity_of <$> movie_dict s ->
  title_of s' k = title_of s k /\
  (movie_dict s' !! k = None <-> movie_dict s !! k = None).
Proof.
  intros H. apply (identity_lookup _ _ k) in H. unfold title_of.
  destruct (movie_dict s' !! k) as [m'|], (movie_dict s !! k) as [m|];
    simpl in *; try discriminate.
  - injection H as _ Ht _. rewrite Ht. split; [reflexivity|]. split; discriminate.
  - split; reflexivity.
Qed.

(** Reading a file in two parts is reading it at once: the second part
    starts from the list and the object the first part left. *)
Lemma predict_rows_app rows1 rows2 : forall (s : Movie_Recommendations) tuple_list,
  predict_rows s (rows1 ++ rows2) tuple_list =
  match predict_rows s rows1 tuple_list with
  | (Return tl, s1) => predict_rows s1 rows2 tl
  | (Raise e, s1) => (Raise e, s1)
  end.
Proof.
  induction rows1 as [|[|u m rt] rest IH]; intros s tl; simpl.
  - reflexivity.
  - apply IH.
  - destruct (subscript (movie_dict s) m) as [movie|e]; [|reflexivity].
    destruct (predict_rating s u m) as [[p|e] s1]; [apply IH | reflexivity].
Qed.

Lemma predict_rows_shape rows : forall (s : Movie_Recommendations) tuple_list tl s',
  predict_rows s rows tuple_list = (Return tl, s') ->
  exists new,
    tl = tuple_list ++ new /\
    (fun t : prediction => (fst (fst (fst t)), snd (fst (fst t)), snd t)) <$> new =
    (fun d : Z * Z * Q => (fst (fst d), title_of s (snd (fst d)), snd d))
      <$> data_rows rows.
Proof.
  induction rows as [|[|u m rt] rest IH]; intros s acc tl s'; simpl.
  - intros [= <- <-]. exists []. now rewrite app_nil_r.
  - apply IH.
  - unfold subscript. destruct (movie_dict s !! m) as [movie|] eqn:Hm;
      [|discriminate].
    destruct (predict_rating_preserves
                (fun md => identity_of <$> md = identity_of <$> movie_dict s)
                (user_dict s) (get_similarity_identity_step s) s u m
                eq_refl eq_refl) as [_ Hid].
    destruct (predict_rating s u m) as [[p|e] s1]; [|discriminate].
    simpl in Hid. intros Hrest.
    destruct (IH _ _ _ _ Hrest) as (new & -> & Hnew).
    exists ((u, title movie, p, rt) :: new). split.
    + now rewrite <- app_assoc.
    + unfold data_rows. simpl. fold (data_rows rest).
      f_equal.
      * unfold title_of. now rewrite Hm.
      * etrans; [exact Hnew|]. apply list_fmap_ext. intros _ d _.
        now rewrite (proj1 (identity_title s s1 (snd (fst d)) Hid)).
Qed.

Lemma predict_rows_acc rows : forall (s : Movie_Recommendations) tuple_list,
  predict_rows s rows tuple_list =
  match predict_rows s rows [] with
  | (Return tl, s') => (Return (tuple_list ++ tl), s')
  | (Raise e, s') => (Raise e, s')
  end.
Proof.
  induction rows as [|[|u m rt] rest IH]; intros s acc; simpl.
  - now rewrite app_nil_r.
  - apply IH.
  - destruct (subscript (movie_dict s) m) as [movie|e]; [|reflexivity].
    destruct (predict_rating s u m) as [[p|e] s1]; [|reflexivity].
    rewrite (IH s1 (acc ++ [(u, title movie, p, rt)])),
            (IH s1 [(u, title movie, p, rt)]).
    destruct (predict_rows s1 rest []) as [[tl|e] s2]; [|reflexivity].
    now rewrite <- app_assoc.
Qed.

Lemma predict_ratings_rows (s : Movie_Recommendations) rows tl s' :
  predict_ratings s rows = (Return tl, s') ->
  predict_rows s rows [] = (Return tl, s') /\ tl <> [].
Proof.
  unfold predict_ratings.
  destruct (predict_rows s rows []) as [[tl0|e] s0]; [|discriminate].
  destruct tl0 as [|t tl0]; simpl; [discriminate|].
  intros [= <- <-]. split; [reflexivity | discriminate].
Qed.

(** X5.  When [predict_ratings] returns, the list has one tuple per data row
    of the test file, in file order (so it is not empty), and each tuple
    carries the row's user id and actual rating and the title the catalog
    holds for the row's movie. *)
Theorem predict_ratings_shape (s s' : Movie_Recommendations)
    (rows : list rating_row) (tl : list prediction) :
  predict_ratings s rows = (Return tl, s') ->
  (fun t : prediction => (fst (fst (fst t)), snd (fst (fst t)), snd t)) <$> tl =
  (fun d : Z * Z * Q => (fst (fst d), title_of s (snd (fst d)), snd d))
    <$> data_rows rows /\
  length tl = length (data_rows rows) /\
  tl <> [].
Proof.
  intros Hcall. apply predict_ratings_rows in Hcall as [Hrows Hne].
  destruct (predict_rows_shape rows s [] tl s' Hrows) as (new & -> & Hnew).
  simpl in *. split; [exact Hnew|]. split; [|exact Hne].
  apply (f_equal length) in Hnew. now rewrite !length_fmap in Hnew.
Qed.

Lemma predict_ratings_shape_witness :
  (fun t : prediction => (fst (fst (fst t)), snd (fst (fst t)), snd t))
    <$> [(1%Z, "C", 30618 # 10206, 4)] =
  (fun d : Z * Z * Q => (fst (fst d), title_of ex_state (snd (fst d)), snd d))
    <$> data_rows [RatingHeader; RatingRow 1 3 4] /\
  length [(1%Z, "C", 30618 # 10206, 4)] =
    length (data_rows [RatingHeader; RatingRow 1 3 4]) /\
  [(1%Z, "C", 30618 # 10206, 4)] <> [].
Proof.
  apply (predict_ratings_shape ex_state
           (snd (predict_ratings ex_state [RatingHeader; RatingRow 1 3 4]))).
  vm_compute. reflexivity.
Defined.

(** X6.  A batch stops at its first bad row, and the exception tells which id
    was bad: when the rows before it were predicted, a row with a movie id
    that is not in the catalog ends [predict_ratings] with [KeyError] (raised
    by the title lookup on line 131, before [predict_rating] is called), and a
    row with a catalog movie but an unknown user ends it with
    [BadInputError]; the caches filled so far are kept. *)
Theorem predict_ratings_bad_row (s s1 : Movie_Recommendations)
    (before rest : list rating_row) (tl : list prediction) (u m : Z) (rt : Q) :
  predict_rows s before [] = (Return tl, s1) ->
  (movie_dict s !! m = None ->
   predict_ratings s (before ++ RatingRow u m rt :: rest) = (Raise KeyError, s1)) /\
  (is_Some (movie_dict s !! m) -> user_dict s !! u = None ->
   predict_ratings s (before ++ RatingRow u m rt :: rest) =
     (Raise BadInputError, s1)).
Proof.
  intros Hbefore.
  destruct (predict_rows_preserves
              (fun md => identity_of <$> md = identity_of <$> movie_dict s)
              (user_dict s) (get_similarity_identity_step s) before s []
              eq_refl eq_refl) as [Hud Hid].
  rewrite Hbefore in Hud, Hid. simpl in Hud, Hid.
  pose proof (proj2 (identity_title s s1 m Hid)) as Hm.
  unfold predict_ratings. rewrite predict_rows_app, Hbefore. simpl. split.
  - intros Hnone. apply Hm in Hnone. unfold subscript. now rewrite Hnone.
  - intros [movie Hsome] Hu. unfold subscript.
    destruct (movie_dict s1 !! m) as [movie1|] eqn:Hm1.
    + unfold predict_rating. rewrite Hud, Hu.
      rewrite decide_True by now left. reflexivity.
    + pose proof (proj1 Hm eq_refl) as Hnone. congruence.
Qed.

Lemma predict_ratings_bad_row_witness :
  predict_ratings ex_state ([RatingRow 1 3 4] ++ RatingRow 1 999 2 :: []) =
    (Raise KeyError, snd (predict_rating ex_state 1 3)) /\
  predict_ratings ex_state ([RatingRow 1 3 4] ++ RatingRow 999 1 2 :: []) =
    (Raise BadInputError, snd (predict_rating ex_state 1 3)).
Proof.
  split.
  - refine (proj1 (predict_ratings_bad_row ex_state _ [RatingRow 1 3 4] []
                     [(1%Z, "C"%string, 30618 # 10206, 4)] 1 999 2 _) _);
      reflexivity.
  - refine (proj2 (predict_ratings_bad_row ex_state _ [RatingRow 1 3 4] []
                     [(1%Z, "C"%string, 30618 # 10206, 4)] 999 1 2 _) _ _).
    + reflexivity.
    + vm_compute. eauto.
    + reflexivity.
Defined.

(** X7.  Predicting a test file in two batches, the second on the object the
    first left, gives the two halves of what one batch over the whole file
    gives, and leaves the same object. *)
Theorem predict_ratings_two_batches (s s1 s2 : Movie_Recommendations)
    (rows1 rows2 : list rating_row) (tl1 tl2 : list prediction) :
  predict_ratings s rows1 = (Return tl1, s1) ->
  predict_ratings s1 rows2 = (Return tl2, s2) ->
  predict_ratings s (rows1 ++ rows2) = (Return (tl1 ++ tl2), s2).
Proof.
  intros [H1 Hne1]%predict_ratings_rows [H2 _]%predict_ratings_rows.
  unfold predict_ratings. rewrite predict_rows_app, H1, predict_rows_acc, H2.
  destruct tl1 as [|t tl1]; [contradiction|]. reflexivity.
Qed.

Lemma predict_ratings_two_batches_witness :
  predict_ratings ex_state ([RatingRow 1 3 4] ++ [RatingRow 2 3 1]) =
  (Return ([(1%Z, "C"%string, 30618 # 10206, 4)] ++ [(2%Z, "C"%string, 3, 1)]),
   snd (predict_rating ex_state 1 3)).
Proof.
  apply (predict_ratings_two_batches ex_state (snd (predict_rating ex_state 1 3)));
    vm_compute; reflexivity.
Defined.

(** ** What every cached similarity satisfies *)

Lemma cache_of_cached_both movie_dict a b ma mb v x y w :
  movie_dict !! a = Some ma ->
  <[a := set_similarity ma b v]> movie_dict !! b = Some mb ->
  id ma = a ->
  cache_of (cached_both movie_dict a b ma mb v) x !! y = Some w ->
  (x = a /\ y = b /\ w = v) \/ (x = b /\ y = a /\ w = v) \/
  cache_of movie_dict x !! y = Some w.
Proof.
  intros Ha Hb Hid. unfold cached_both, cache_of. rewrite Hid.
  destruct (decide (b = x)) as [<-|Hbx].
  - rewrite lookup_insert_eq. simpl.
    destruct (decide (a = y)) as [<-|Hay].
    + rewrite lookup_insert_eq. intros [= <-]. auto.
    + rewrite lookup_insert_ne by done.
      destruct (decide (a = b)) as [->|Hab].
      * rewrite lookup_insert_eq in Hb. injection Hb as <-. simpl.
        rewrite lookup_insert_ne by done. rewrite Ha. auto.
      * rewrite lookup_insert_ne in Hb by done. rewrite Hb. auto.
  - rewrite lookup_insert_ne by done.
    destruct (decide (a = x)) as [<-|Hax].
    + rewrite lookup_insert_eq. simpl. rewrite Ha.
      destruct (decide (b = y)) as [<-|Hby].
      * rewrite lookup_insert_eq. intros [= <-]. auto.
      * rewrite lookup_insert_ne by done. auto.
    + rewrite lookup_insert_ne by done. auto.
Qed.

Lemma init_cache_empty movie_rows training_rows s a :
  init movie_rows training_rows = Return s -> cache_of (movie_dict s) a = ∅.
Proof.
  intros Hinit. apply init_unfold in Hinit.
  destruct (load_ratings_spec _ _ _ _ _ Hinit) as [Hmd _].
  unfold cache_of. rewrite Hmd, load_movies_lookup.
  destruct (last_title movie_rows a); simpl; [reflexivity|].
  now rewrite lookup_empty.
Qed.

Section CacheValues.
Variable R : Movie_Recommendations -> Z -> Z -> Q -> Prop.
Hypothesis R_frame :
  forall (s s' : Movie_Recommendations) a b v,
    user_dict s' = user_dict s ->
    raters (movie_dict s') = raters (movie_dict s) ->
    R s a b v -> R s' a b v.
Hypothesis R_sym : forall s a b v, R s a b v -> R s b a v.
Hypothesis R_compute :
  forall (s : Movie_Recommendations) a b ma mb v,
    keys_are_ids (movie_dict s) -> lockstep (movie_dict s) (user_dict s) ->
    movie_dict s !! a = Some ma -> movie_dict s !! b = Some mb ->
    compute_similarity ma b (movie_dict s) (user_dict s) = Return v ->
    R s a b v.

Let holds (s : Movie_Recommendations) (md : movie_store) : Prop :=
  raters md = raters (movie_dict s) /\ keys_are_ids md /\
  lockstep md (user_dict s) /\
  forall a b v, cache_of md a !! b = Some v -> R s a b v.

Lemma get_similarity_holds (s : Movie_Recommendations) (md : movie_store) a b :
  holds s md -> holds s (snd (get_similarity a b (user_dict s) md)).
Proof.
  intros (Hr & Hids & Hl & HR).
  destruct (get_similarity_cases (user_dict s) md a b)
    as [->|(ma & mb & v & Ha & Hb & Hmiss & Hv & ->)];
    [exact (conj Hr (conj Hids (conj Hl HR)))|].
  simpl.
  pose proof (raters_cached_both md a b ma mb v Ha Hb) as Hr'.
  split; [now rewrite Hr'|].
  split; [now apply keys_are_ids_cached_both|].
  split; [exact (lockstep_raters (user_dict s) md _ Hr' Hl)|].
  assert (Hmb0 : is_Some (md !! b)).
  { destruct (decide (a = b)) as [->|Hne]; [eauto|].
    rewrite lookup_insert_ne in Hb by done. eauto. }
  destruct Hmb0 as [mb0 Hmb0].
  assert (HRab : R s a b v).
  { apply (R_frame {| movie_dict := md; user_dict := user_dict s |} s);
      [reflexivity | simpl; now rewrite Hr |].
    now apply (R_compute {| movie_dict := md; user_dict := user_dict s |}
                 a b ma mb0 v). }
  intros x y w Hw.
  apply (cache_of_cached_both md a b ma mb v x y w Ha Hb (Hids _ _ Ha)) in Hw
    as [(-> & -> & ->)|[(-> & -> & ->)|Hold]].
  - exact HRab.
  - now apply R_sym.
  - now apply HR.
Qed.

Lemma reachable_cache_values (s : Movie_Recommendations) :
  reachable s -> forall a b v, cache_of (movie_dict s) a !! b = Some v -> R s a b v.
Proof.
  induction 1 as [mr tr s Hinit|s c Hreach IH].
  - intros a b v. rewrite (init_cache_empty mr tr s a Hinit), lookup_empty.
    discriminate.
  - destruct (reachable_wf s Hreach) as [Hids Hl _ _].
    destruct (after_preserves (holds s) (user_dict s)
                (get_similarity_holds s) s c eq_refl)
      as [Hud (Hr & _ & _ & HR)];
      [exact (conj eq_refl (conj Hids (conj Hl IH)))|].
    intros a b v Hv. apply (R_frame s); [exact Hud|exact Hr|].
    now apply HR.
Qed.

(** What holds of the cached values holds of every answer of the operation. *)
Lemma reachable_similarity_values (s : Movie_Recommendations) a b v :
  reachable s -> similarity s a b = Some v -> R s a b v.
Proof.
  intros Hreach. rewrite similarity_eq. unfold similarity_outcome.
  destruct (movie_dict s !! a) as [ma|] eqn:Ha; [|discriminate].
  destruct (decide (is_Some (movie_dict s !! b))) as [[mb Hb]|]; [|discriminate].
  destruct (similarities ma !! b) as [w|] eqn:Hhit.
  - intros [= <-]. apply (reachable_cache_values s Hreach).
    apply cache_of_Some. eauto.
  - destruct (reachable_wf s Hreach) as [Hids Hl _ _].
    destruct (compute_similarity ma b (movie_dict s) (user_dict s)) as [w|e] eqn:Hc.
    + intros [= <-]. now apply (R_compute s a b ma mb).
    + now destruct e.
Qed.
End CacheValues.

(** ** Bounds on similarities *)









Lemma similarity_formula_frame (s s' : Movie_Recommendations) a b :
  user_dict s' = user_dict s ->
  raters (movie_dict s') = raters (movie_dict s) ->
  similarity_formula s' a b = similarity_formula s a b.
Proof.
  intros Hud Hr.
  unfold similarity_formula, mean_abs_diff, common_raters, abs_diff.
  now rewrite Hud, Hr.
Qed.

(** The value [compute_similarity] returns is the value of the formula. *)
Lemma compute_similarity_value (s : Movie_Recommendations) a b ma mb v :
  keys_are_ids (movie_dict s) -> lockstep (movie_dict s) (user_dict s) ->
  movie_dict s !! a = Some ma -> movie_dict s !! b = Some mb ->
  compute_similarity ma b (movie_dict s) (user_dict s) = Return v ->
  v = similarity_formula s a b.
Proof.
  intros Hids Hl Ha Hb.
  rewrite (compute_similarity_wf (user_dict s) (movie_dict s) a b ma mb Hids Hl Ha Hb).
  intros [= <-]. unfold similarity_formula, mean_abs_diff.
  now rewrite (common_raters_lookup s a b ma mb Ha Hb).
Qed.






(** ** The cache holds values of the formula and never loses one *)

Lemma reachable_formula_value (s : Movie_Recommendations) a b v :
  reachable s -> similarity s a b = Some v -> formula_value s a b v.
Proof.
  apply (reachable_similarity_values formula_value).
  - intros s0 s' x y w Hud Hr [-> | ->]; [left | right];
      now rewrite (similarity_formula_frame s0 s').
  - intros s0 x y w [-> | ->]; [now right | now left].
  - intros s0 x y mx my w Hids Hl Hx Hy Hc. left.
    exact (compute_similarity_value s0 x y mx my w Hids Hl Hx Hy Hc).
Qed.

Lemma cached_both_keeps movie_dict a b ma mb v x y w :
  keys_are_ids movie_dict -> cache_symmetric movie_dict ->
  movie_dict !! a = Some ma ->
  <[a := set_similarity ma b v]> movie_dict !! b = Some mb ->
  similarities ma !! b = None ->
  cache_of movie_dict x !! y = Some w ->
  cache_of (cached_both movie_dict a b ma mb v) x !! y = Some w.
Proof.
  intros Hids Hsym Ha Hb Hmiss Hw.
  assert (Hxy : ~ (x = a /\ y = b)).
  { intros [-> ->]. apply cache_of_Some in Hw as (ma' & Ha' & Hw).
    congruence. }
  assert (Hyx : ~ (x = b /\ y = a)).
  { intros [-> ->]. rewrite <- (cache_symmetric_lookup _ a b Hsym) in Hw.
    apply cache_of_Some in Hw as (ma' & Ha' & Hw). congruence. }
  pose proof (Hids _ _ Ha) as Hida.
  unfold cached_both, cache_of in *. rewrite Hida.
  destruct (decide (b = x)) as [<-|Hbx].
  - rewrite lookup_insert_eq. simpl.
    rewrite lookup_insert_ne by (intros <-; now apply Hyx).
    destruct (decide (a = b)) as [->|Hab].
    + rewrite lookup_insert_eq in Hb. injection Hb as <-. simpl.
      rewrite lookup_insert_ne by (intros <-; now apply Hyx).
      now rewrite Ha in Hw.
    + rewrite lookup_insert_ne in Hb by done. now rewrite Hb in Hw.
  - rewrite lookup_insert_ne by done.
    destruct (decide (a = x)) as [<-|Hax].
    + rewrite lookup_insert_eq. simpl. rewrite Ha in Hw.
      now rewrite lookup_insert_ne by (intros <-; now apply Hxy).
    + now rewrite lookup_insert_ne by done.
Qed.

Lemma get_similarity_keeps user_dict movie_dict a b x y w :
  keys_are_ids movie_dict -> cache_symmetric movie_dict ->
  cache_of movie_dict x !! y = Some w ->
  cache_of (snd (get_similarity a b user_dict movie_dict)) x !! y = Some w.
Proof.
  intros Hids Hsym Hw.
  destruct (get_similarity_cases user_dict movie_dict a b)
    as [->|(ma & mb & v & Ha & Hb & Hmiss & _ & ->)]; [exact Hw|].
  simpl. now apply cached_both_keeps.
Qed.

(** X10.  A cached similarity is never removed or overwritten: whatever call
    is made on a well-formed object, every entry of every cache is still
    there afterwards with the same value. *)
Theorem cache_entries_kept (s : Movie_Recommendations) (c : call) (a b : Z) (v : Q) :
  wf s ->
  cache_of (movie_dict s) a !! b = Some v ->
  cache_of (movie_dict (after s c)) a !! b = Some v.
Proof.
  intros [Hids _ _ Hsym] Hv.
  destruct (after_preserves
              (fun md => keys_are_ids md /\ cache_symmetric md /\
                         cache_of md a !! b = Some v)
              (user_dict s)) with (s := s) (c := c) as [_ (_ & _ & Hkept)];
    [|reflexivity|now repeat split|exact Hkept].
  intros md x y (H1 & H2 & H3). split; [|split].
  - now apply get_similarity_keys_are_ids.
  - now apply get_similarity_cache_symmetric.
  - now apply get_similarity_keeps.
Qed.

Lemma cache_entries_kept_witness :
  cache_of (movie_dict (after (after ex_state (call_get_similarity 1 3))
                          (call_predict_rating 1 3))) 1 !! 3%Z = Some (7 # 9).
Proof.
  apply (cache_entries_kept (after ex_state (call_get_similarity 1 3))).
  - apply reachable_wf, reachable_call,
      (reachable_init ex_movies ex_training). reflexivity.
  - reflexivity.
Defined.

(** ** Predictions without evidence, and bounds on predictions *)

Lemma common_raters_nil_sym (s : Movie_Recommendations) a b :
  common_raters s a b = [] -> common_raters s b a = [].
Proof.
  unfold common_raters. intros Hnil. apply elem_of_nil_inv. intros u Hu.
  apply list_elem_of_filter in Hu as [Ha Hb].
  assert (Hin : u ∈ filter (fun u => u ∈ default [] (raters (movie_dict s) !! b))
                       (default [] (raters (movie_dict s) !! a)))
    by (apply list_elem_of_filter; now split).
  rewrite Hnil in Hin. now apply elem_of_nil in Hin.
Qed.

Lemma formula_no_common (s : Movie_Recommendations) a b :
  common_raters s a b = [] -> similarity_formula s a b = 0.
Proof. unfold similarity_formula. now intros ->. Qed.

Lemma weight_no_common (s : Movie_Recommendations) target m :
  reachable s ->
  common_raters s m target = [] ->
  weight s target m = 0.
Proof.
  intros Hreach Hnil. unfold weight.
  destruct (similarity s m target) as [v|] eqn:Hv; [|reflexivity]. simpl.
  destruct (reachable_formula_value s m target v Hreach Hv) as [-> | ->].
  - now apply formula_no_common.
  - now apply formula_no_common, common_raters_nil_sym.
Qed.

Lemma rated_is_common (s : Movie_Recommendations) u m movie rated :
  lockstep (movie_dict s) (user_dict s) ->
  user_dict s !! u = Some rated -> movie_dict s !! m = Some movie ->
  is_Some (PyDict.get rated m) -> u ∈ common_raters s m m.
Proof.
  intros Hl Hu Hm Hr. unfold common_raters. rewrite raters_lookup, Hm. simpl.
  assert (Hin : u ∈ users movie).
  { destruct (proj1 (Hl u m)) as (m' & Hm' & Hin).
    - unfold rating_of. now rewrite Hu.
    - congruence. }
  apply list_elem_of_filter. now split.
Qed.

(** X11.  Without evidence the prediction is the fallback: in a reachable
    state, when no movie the user rated shares a rater with the target movie,
    [predict_rating] returns 2.5; in particular it returns 2.5 for every
    known user when nobody has rated the target movie. *)
Theorem predict_rating_no_evidence (s : Movie_Recommendations)
    (user_id movie_id : Z) (rated : PyDict.t Q) (movie : Movie) :
  reachable s ->
  user_dict s !! user_id = Some rated ->
  movie_dict s !! movie_id = Some movie ->
  ((forall m, m ∈ PyDict.keys rated -> common_raters s m movie_id = []) ->
   fst (predict_rating s user_id movie_id) = Return (5 # 2)) /\
  (users movie = [] ->
   fst (predict_rating s user_id movie_id) = Return (5 # 2)).
Proof.
  intros Hreach Hu Hm.
  pose proof (reachable_wf s Hreach) as Hwf.
  assert (Hmain : (forall m, m ∈ PyDict.keys rated ->
                     common_raters s m movie_id = []) ->
                  fst (predict_rating s user_id movie_id) = Return (5 # 2)).
  { intros Hnone.
    assert (Hunrated : PyDict.get rated movie_id = None).
    { destruct (PyDict.get rated movie_id) as [r|] eqn:Hr; [|reflexivity].
      exfalso.
      pose proof (rated_is_common s user_id movie_id movie rated
                    (wf_lockstep s Hwf) Hu Hm (mk_is_Some _ _ Hr)) as Hin.
      rewrite (Hnone movie_id (get_Some_keys rated movie_id r Hr)) in Hin.
      now apply elem_of_nil in Hin. }
    rewrite (predict_rating_unrated_value s user_id movie_id rated movie
               Hwf Hu Hm Hunrated).
    unfold prediction_formula.
    assert (Hzero : weightTotal s movie_id rated == 0).
    { unfold weightTotal. apply sum_all_zero, Forall_fmap, Forall_forall.
      intros [m rt] Hin. simpl.
      rewrite (weight_no_common s movie_id m Hreach); [reflexivity|].
      apply Hnone. exact (list_elem_of_fmap_2 fst _ _ Hin). }
    apply Qeq_bool_iff in Hzero. now rewrite Hzero. }
  split; [exact Hmain|].
  intros Hnobody. apply Hmain. intros m _.
  unfold common_raters. rewrite (raters_lookup _ movie_id), Hm. simpl.
  rewrite Hnobody. apply elem_of_nil_inv. intros u Hin.
  apply list_elem_of_filter in Hin as [Hin _]. now apply elem_of_nil in Hin.
Qed.

Lemma predict_rating_no_evidence_witness :
  fst (predict_rating cold_state 1 2) = Return (5 # 2).
Proof.
  refine (proj2 (predict_rating_no_evidence cold_state 1 2 [(1%Z, 4)]
                   {| id := 2; title := "B"; users := []; similarities := ∅ |}
                   _ _ _) _).
  - apply (reachable_init [MovieRow 1 "A"; MovieRow 2 "B"] [RatingRow 1 1 4]).
    reflexivity.
  - reflexivity.
  - reflexivity.
  - reflexivity.
Defined.



(** ** Asking for the same prediction again *)

Section RepeatPrediction.
Variables (user_dict0 : rating_matrix) (user_id movie_id : Z) (rated : PyDict.t Q).
Hypothesis Hrated : user_dict0 !! user_id = Some rated.

Let w (md : movie_store) (movie : Z) : Q :=
  default 0 (match similarity_outcome movie movie_id user_dict0 md with
             | Return v => v
             | Raise _ => None
             end).

(** The loop leaves, for each movie it ran over, the weight it used in the
    cache of that movie, and keeps every entry that was cached before. *)
Lemma predict_loop_fills (user_rated_movies : list Z) :
  forall (md : movie_store) (acc1 acc2 : Q),
    wf {| movie_dict := md; user_dict := user_dict0 |} ->
    is_Some (md !! movie_id) ->
    (forall m, m ∈ user_rated_movies ->
       is_Some (PyDict.get rated m) /\ m <> movie_id) ->
    let md' := snd (predict_loop user_id movie_id user_dict0 user_rated_movies
                      acc1 acc2 md) in
    wf {| movie_dict := md'; user_dict := user_dict0 |} /\
    (forall m, m ∈ user_rated_movies ->
       cache_of md' m !! movie_id = Some (w md m)) /\
    (forall x y v, cache_of md x !! y = Some v -> cache_of md' x !! y = Some v).
Proof.
  induction user_rated_movies as [|movie rest IH];
    intros md acc1 acc2 Hwf Htarget Hall; cbv zeta.
  - simpl. split; [exact Hwf|]. split; [|auto].
    intros m Hm. now apply elem_of_nil in Hm.
  - destruct (Hall movie) as [[rt Hrt] Hne]; [apply list_elem_of_here|].
    assert (Hknown : is_Some (md !! movie)).
    { destruct (proj1 (wf_lockstep _ Hwf user_id movie)) as (m & Hm & _);
        [|simpl in Hm; eauto].
      simpl. unfold rating_of. rewrite Hrated. eauto. }
    destruct (get_similarity_first_call
                {| movie_dict := md; user_dict := user_dict0 |} movie movie_id
                Hwf Hknown Htarget)
      as (v & md1 & Hcall & Hcached & _ & _ & Htarget1 & _).
    simpl in Hcall.
    assert (Hv : w md movie = v).
    { unfold w. rewrite <- fst_get_similarity, Hcall. reflexivity. }
    assert (Hwf1 : wf {| movie_dict := md1; user_dict := user_dict0 |}).
    { pose proof (after_wf _ (call_get_similarity movie movie_id) Hwf) as H.
      simpl in H. now rewrite Hcall in H. }
    assert (Hkeep1 : forall x y u, cache_of md x !! y = Some u ->
                                    cache_of md1 x !! y = Some u).
    { intros x y u Hu.
      pose proof (get_similarity_keeps user_dict0 md movie movie_id x y u
                    (wf_ids _ Hwf) (wf_cache _ Hwf) Hu) as H.
      now rewrite Hcall in H. }
    assert (Hstep :
      predict_loop user_id movie_id user_dict0 (movie :: rest) acc1 acc2 md =
      predict_loop user_id movie_id user_dict0 rest
        (acc1 + v * rt) (acc2 + v) md1).
    { simpl. unfold sbind, lift at 1 2. simpl.
      unfold subscript at 1. rewrite Hrated. simpl.
      unfold subscript_od. rewrite Hrt. simpl.
      rewrite Hcall. reflexivity. }
    rewrite Hstep.
    destruct (IH md1 (acc1 + v * rt) (acc2 + v) Hwf1 Htarget1)
      as (Hwf' & Hfilled & Hkeep).
    { intros m Hm. apply Hall. now apply list_elem_of_further. }
    split; [exact Hwf'|]. split.
    + intros m Hm. apply elem_of_cons in Hm as [->|Hm].
      * rewrite Hv. now apply Hkeep.
      * rewrite (Hfilled m Hm). f_equal. unfold w.
        pose proof (similarity_outcome_stable user_dict0 md movie movie_id
                      m movie_id) as Hst.
        rewrite Hcall in Hst. simpl in Hst. rewrite Hst; [reflexivity|].
        apply Hall. now apply list_elem_of_further.
    + intros x y u Hu. now apply Hkeep, Hkeep1.
Qed.

(** When every needed similarity is cached the loop writes nothing. *)
Lemma predict_loop_unchanged (user_rated_movies : list Z) :
  forall (md : movie_store) (acc1 acc2 : Q),
    is_Some (md !! movie_id) ->
    (forall m, m ∈ user_rated_movies -> is_Some (cache_of md m !! movie_id)) ->
    snd (predict_loop user_id movie_id user_dict0 user_rated_movies
           acc1 acc2 md) = md.
Proof.
  induction user_rated_movies as [|movie rest IH];
    intros md acc1 acc2 Htarget Hall; simpl; [reflexivity|].
  unfold sbind, lift at 1 2.
  destruct (subscript user_dict0 user_id) as [d|e]; [|reflexivity].
  destruct (subscript_od d movie) as [rating|e]; [|reflexivity].
  destruct (Hall movie (list_elem_of_here _ _)) as [v Hv].
  apply cache_of_Some in Hv as (ma & Hma & Hv).
  rewrite (get_similarity_cached user_dict0 md movie movie_id ma v Hma Htarget Hv).
  simpl. apply IH; [exact Htarget|].
  intros m Hm. apply Hall. now apply list_elem_of_further.
Qed.
End RepeatPrediction.

Lemma similarity_outcome_cached user_dict (md : movie_store) a b v :
  cache_of md a !! b = Some v -> is_Some (md !! b) ->
  similarity_outcome a b user_dict md = Return (Some v).
Proof.
  intros (ma & Ha & Hv)%cache_of_Some Hb. unfold similarity_outcome.
  rewrite Ha. rewrite decide_True by exact Hb. now rewrite Hv.
Qed.

(** X14.  A prediction can be asked for again: in a well-formed state, after
    [predict_rating] has answered for a known user and a catalog movie, the
    same call on the object it left returns the identical value and writes
    nothing (every similarity it needs is in the cache). *)
Theorem predict_rating_repeat (s : Movie_Recommendations) (user_id movie_id : Z) :
  wf s ->
  is_Some (user_dict s !! user_id) -> is_Some (movie_dict s !! movie_id) ->
  exists p s1,
    predict_rating s user_id movie_id = (Return p, s1) /\
    predict_rating s1 user_id movie_id = (Return p, s1).
Proof.
  destruct s as [md ud]. simpl. intros Hwf [rated Hu] [movie Hm].
  destruct (PyDict.get rated movie_id) as [rating|] eqn:Hr.
  - exists rating, {| movie_dict := md; user_dict := ud |}.
    pose proof (predict_rating_rated_value {| movie_dict := md; user_dict := ud |}
                  user_id movie_id rated rating (wf_lockstep _ Hwf) Hu Hr) as H.
    now split.
  - pose proof (rated_keys {| movie_dict := md; user_dict := ud |}
                  user_id movie_id rated (wf_lockstep _ Hwf) Hu Hr) as Hkeys.
    assert (Hkeys' : forall m, m ∈ PyDict.keys rated ->
                       is_Some (PyDict.get rated m) /\ m <> movie_id).
    { intros m Hin. destruct (Hkeys m Hin) as (? & ? & ?). now split. }
    destruct (predict_loop_spec ud user_id movie_id rated Hu (PyDict.keys rated)
                md 0 0 (wf_ids _ Hwf) (wf_lockstep _ Hwf) (mk_is_Some _ _ Hm)
                Hkeys') as (md1 & Hloop & Hr1 & _).
    destruct (predict_loop_fills ud user_id movie_id rated Hu (PyDict.keys rated)
                md 0 0 Hwf (mk_is_Some _ _ Hm) Hkeys')
      as (Hwf1 & Hfilled & _).
    rewrite Hloop in Hwf1, Hfilled. simpl in Hwf1, Hfilled.
    assert (Htarget1 : is_Some (md1 !! movie_id))
      by (apply (raters_is_Some _ _ _ Hr1); eauto).
    destruct Htarget1 as [movie1 Hm1].
    assert (Hnot : forall (st : movie_store) mv,
              lockstep st ud -> st !! movie_id = Some mv -> user_id ∉ users mv).
    { intros st mv Hl Hmv.
      apply (no_rating_not_rater {| movie_dict := st; user_dict := ud |}
               user_id movie_id mv Hl Hmv).
      simpl. unfold rating_of. now rewrite Hu. }
    set (p := if Qeq_bool
                   (fold_left Qplus
                      ((fun movie0 : Z =>
                          default 0
                            match similarity_outcome movie0 movie_id ud md with
                            | Return v => v
                            | Raise _ => None
                            end) <$> PyDict.keys rated) 0) 0
              then 5 # 2
              else fold_left Qplus
                     ((fun m : Z =>
                         default 0
                           match similarity_outcome m movie_id ud md with
                           | Return v => v
                           | Raise _ => None
                           end * default 0 (PyDict.get rated m))
                        <$> PyDict.keys rated) 0 /
                   fold_left Qplus
                     ((fun movie0 : Z =>
                         default 0
                           match similarity_outcome movie0 movie_id ud md with
                           | Return v => v
                           | Raise _ => None
                           end) <$> PyDict.keys rated) 0).
    exists p, {| movie_dict := md1; user_dict := ud |}. split.
    + unfold predict_rating. simpl.
      rewrite decide_False by (rewrite Hu, Hm; intros [?|?]; discriminate).
      rewrite Hm.
      rewrite decide_False by exact (Hnot md movie (wf_lockstep _ Hwf) Hm).
      rewrite Hu, Hloop. reflexivity.
    + destruct (predict_loop_spec ud user_id movie_id rated Hu (PyDict.keys rated)
                  md1 0 0 (wf_ids _ Hwf1) (wf_lockstep _ Hwf1)
                  (mk_is_Some _ _ Hm1) Hkeys') as (md2 & Hloop2 & _).
      assert (Hsame : md2 = md1).
      { pose proof (predict_loop_unchanged ud user_id movie_id
                      (PyDict.keys rated) md1 0 0 (mk_is_Some _ _ Hm1)) as H.
        rewrite Hloop2 in H. simpl in H. apply H.
        intros m Hin. rewrite (Hfilled m Hin). eauto. }
      subst md2.
      assert (Hw : forall m, m ∈ PyDict.keys rated ->
                similarity_outcome m movie_id ud md1 =
                Return (Some (default 0
                                match similarity_outcome m movie_id ud md with
                                | Return v => v
                                | Raise _ => None
                                end))).
      { intros m Hin. apply similarity_outcome_cached; [|eauto].
        exact (Hfilled m Hin). }
      assert (Hl1 :
        (fun m : Z =>
           default 0 match similarity_outcome m movie_id ud md1 with
                     | Return v => v | Raise _ => None end *
           default 0 (PyDict.get rated m)) <$> PyDict.keys rated =
        (fun m : Z =>
           default 0 match similarity_outcome m movie_id ud md with
                     | Return v => v | Raise _ => None end *
           default 0 (PyDict.get rated m)) <$> PyDict.keys rated).
      { apply list_fmap_ext. intros _ m Hin%list_elem_of_lookup_2.
        now rewrite (Hw m Hin). }
      assert (Hl2 :
        (fun m : Z =>
           default 0 match similarity_outcome m movie_id ud md1 with
                     | Return v => v | Raise _ => None end)
          <$> PyDict.keys rated =
        (fun m : Z =>
           default 0 match similarity_outcome m movie_id ud md with
                     | Return v => v | Raise _ => None end)
          <$> PyDict.keys rated).
      { apply list_fmap_ext. intros _ m Hin%list_elem_of_lookup_2.
        now rewrite (Hw m Hin). }
      rewrite Hl1, Hl2 in Hloop2.
      unfold predict_rating. simpl.
      rewrite decide_False by (rewrite Hu, Hm1; intros [?|?]; discriminate).
      rewrite Hm1.
      rewrite decide_False by exact (Hnot md1 movie1 (wf_lockstep _ Hwf1) Hm1).
      rewrite Hu, Hloop2. reflexivity.
Qed.

Lemma predict_rating_repeat_witness :
  exists p s1,
    predict_rating ex_state 1 3 = (Return p, s1) /\
    predict_rating s1 1 3 = (Return p, s1).
Proof.
  apply (predict_rating_repeat ex_state 1 3).
  - apply reachable_wf, (reachable_init ex_movies ex_training). reflexivity.
  - vm_compute. eauto.
  - vm_compute. eauto.
Defined.

(** ** The script *)

(** X15.  When the script reaches [correlation], the two lists it passes have
    the same length, one entry per data row of the test file and at least
    one, and the list of actual ratings is the rating column of the test file
    in file order; so [pearsonr] is never called by the script with lists of
    different lengths or with empty lists. *)
Theorem main_lists_shape (movie_rows : list movie_row)
    (training_rows test_rows : list rating_row) (predicted actual : list Q) :
  main_lists movie_rows training_rows test_rows = Return (predicted, actual) ->
  length predicted = length actual /\
  length actual = length (data_rows test_rows) /\
  actual = snd <$> data_rows test_rows /\
  predicted <> [] /\
  forall pearsonr,
    main pearsonr movie_rows training_rows test_rows =
    correlation pearsonr predicted actual.
Proof.
  unfold main_lists. intros Hmain.
  destruct (init movie_rows training_rows) as [s|e] eqn:Hinit; [|discriminate].
  simpl in Hmain.
  destruct (predict_ratings s test_rows) as [[tl|e] s'] eqn:Hcall;
    [|discriminate].
  simpl in Hmain. injection Hmain as <- <-.
  apply predict_ratings_rows in Hcall as [Hrows Hne].
  destruct (predict_rows_shape test_rows s [] tl s' Hrows) as (new & -> & Hnew).
  simpl in *.
  assert (Hactual : (fun rating : prediction => snd rating) <$> new =
                    snd <$> data_rows test_rows).
  { apply (f_equal (fmap snd)) in Hnew.
    rewrite <- !list_fmap_compose in Hnew. exact Hnew. }
  split; [now rewrite !length_fmap|].
  split; [now rewrite Hactual, !length_fmap|].
  split; [exact Hactual|].
  split.
  - destruct new; [contradiction | discriminate].
  - intros pearsonr. unfold main, main_lists. rewrite Hinit. simpl.
    unfold predict_ratings. rewrite Hrows.
    destruct new; [contradiction|]. reflexivity.
Qed.

Lemma main_lists_shape_witness :
  length [30618 # 10206] = length [4] /\
  length [4] = length (data_rows [RatingHeader; RatingRow 1 3 4]) /\
  [4] = snd <$> data_rows [RatingHeader; RatingRow 1 3 4] /\
  [30618 # 10206] <> [] /\
  forall pearsonr,
    main pearsonr ex_movies ex_training [RatingHeader; RatingRow 1 3 4] =
    correlation pearsonr [30618 # 10206] [4].
Proof.
  apply (main_lists_shape ex_movies ex_training [RatingHeader; RatingRow 1 3 4]).
  vm_compute. reflexivity.
Defined.

(** ** When a batch succeeds *)

Lemma row_known_frame (s s' : Movie_Recommendations) d :
  user_dict s' = user_dict s -> raters (movie_dict s') = raters (movie_dict s) ->
  row_known s' d <-> row_known s d.
Proof.
  intros Hud Hr. unfold row_known. rewrite Hud.
  now rewrite (raters_is_Some _ _ (snd (fst d)) Hr).
Qed.

Lemma predict_rows_outcome rows : forall (s : Movie_Recommendations) tuple_list,
  wf s ->
  (Forall (row_known s) (data_rows rows) /\
   exists tl s', predict_rows s rows tuple_list = (Return tl, s')) \/
  (~ Forall (row_known s) (data_rows rows) /\
   exists e s', predict_rows s rows tuple_list = (Raise e, s')).
Proof.
  induction rows as [|[|u m rt] rest IH]; intros s acc Hwf; simpl.
  - left. split; [constructor | eauto].
  - now apply IH.
  - unfold data_rows. simpl. fold (data_rows rest).
    unfold subscript. destruct (movie_dict s !! m) as [movie|] eqn:Hm.
    + destruct (user_dict s !! u) as [rated|] eqn:Hu.
      * destruct (predict_rating_returns s u m Hwf (mk_is_Some _ _ Hu)
                    (mk_is_Some _ _ Hm)) as [p Hp].
        pose proof (after_wf s (call_predict_rating u m) Hwf) as Hwf1.
        destruct (after_frame s (call_predict_rating u m)) as [Hud Hr].
        simpl in Hwf1, Hud, Hr.
        destruct (predict_rating s u m) as [o s1]. simpl in *. subst o.
        assert (Hall : Forall (row_known s1) (data_rows rest) <->
                       Forall (row_known s) (data_rows rest)).
        { rewrite !Forall_forall. split; intros H d Hd;
            apply (row_known_frame s s1 d Hud Hr), H, Hd. }
        destruct (IH s1 (acc ++ [(u, title movie, p, rt)]) Hwf1)
          as [[Hok Hret]|[Hbad Hraise]].
        -- left. split; [|exact Hret].
           constructor; [|now apply Hall].
           unfold row_known. simpl. rewrite Hu, Hm. eauto.
        -- right. split; [|exact Hraise].
           intros Hf. apply Hbad, Hall. now inversion Hf.
      * right. split.
        -- intros Hf. inversion Hf as [|? ? [[x Hx] _] _]. simpl in Hx. congruence.
        -- unfold predict_rating. rewrite Hu.
           rewrite decide_True by now left. eauto.
    + right. split; [|eauto].
      intros Hf. inversion Hf as [|? ? [_ [x Hx]] _]. simpl in Hx. congruence.
Qed.

(** *** The rows of the test file *)

Section BatchLines.
Variables (str_to_int : string -> option Z) (str_to_float : string -> option Q).

Local Abbreviation parse_rating := (parse_rating_line str_to_int str_to_float).

(** One row of the test file. *)
Lemma predict_lines_cons (s : Movie_Recommendations) line rest tuple_list :
  match parse_rating line with
  | Some row =>
      predict_lines str_to_int str_to_float s (line :: rest) tuple_list =
      match row with
      | RatingHeader => predict_lines str_to_int str_to_float s rest tuple_list
      | RatingRow userId movieId rating =>
          match subscript (movie_dict s) movieId with
          | Raise e => (Raise e, s)
          | Return movie =>
              match predict_rating s userId movieId with
              | (Raise e, s') => (Raise e, s')
              | (Return predicted, s') =>
                  predict_lines str_to_int str_to_float s' rest
                    (tuple_list ++ [(userId, title movie, predicted, rating)])
              end
          end
      end
  | None =>
      exists e s',
        predict_lines str_to_int str_to_float s (line :: rest) tuple_list =
        (Raise e, s')
  end.
Proof.
  unfold parse_rating_line.
  destruct (line !! 0%nat) as [line0|] eqn:H0.
  2:{ simpl. unfold item. rewrite H0. eauto. }
  destruct (decide (line0 = "userId")) as [Hh|Hh].
  { simpl. unfold item. rewrite H0. now rewrite decide_True. }
  assert (Hstart :
    predict_lines str_to_int str_to_float s (line :: rest) tuple_list =
    match tuple_head str_to_int s line line0 with
    | Raise e => (Raise e, s)
    | Return head =>
        match predict_rating s (fst (fst head)) (snd (fst head)) with
        | (Raise e, s') => (Raise e, s')
        | (Return predicted, s') =>
            match (let? line2 := item line 2 in float_of str_to_float line2) with
            | Raise e => (Raise e, s')
            | Return rating =>
                predict_lines str_to_int str_to_float s' rest
                  (tuple_list ++
                   [(fst (fst head), title (snd head), predicted, rating)])
            end
        end
    end).
  { simpl. unfold item at 1. rewrite H0. now rewrite decide_False by done. }
  rewrite Hstart. clear Hstart. unfold tuple_head, item, int_of, float_of.
  destruct (str_to_int line0) as [userId|]; simpl.
  - destruct (line !! 1%nat) as [line1|]; simpl; [|eauto].
    destruct (str_to_int line1) as [movieId|]; simpl; [|eauto].
    destruct (line !! 2%nat) as [line2|]; simpl.
    + destruct (str_to_float line2) as [rating|]; simpl.
      * destruct (subscript (movie_dict s) movieId) as [movie|e]; simpl;
          [|reflexivity].
        now destruct (predict_rating s userId movieId) as [[p|e] s'].
      * destruct (subscript (movie_dict s) movieId) as [movie|e]; simpl; [|eauto].
        destruct (predict_rating s userId movieId) as [[p|e] s']; eauto.
    + destruct (subscript (movie_dict s) movieId) as [movie|e]; simpl; [|eauto].
      destruct (predict_rating s userId movieId) as [[p|e] s']; eauto.
  - destruct (line !! 1%nat) as [line1|]; simpl; [|eauto].
    destruct (str_to_int line1) as [movieId|]; simpl; eauto.
Qed.

Lemma predict_lines_parsed lines : forall (s : Movie_Recommendations) tuple_list,
  match mapM parse_rating lines with
  | Some rows =>
      predict_lines str_to_int str_to_float s lines tuple_list =
      predict_rows s rows tuple_list
  | None =>
      exists e s',
        predict_lines str_to_int str_to_float s lines tuple_list = (Raise e, s')
  end.
Proof.
  induction lines as [|line rest IH]; intros s acc; [reflexivity|].
  pose proof (predict_lines_cons s line rest acc) as Hstep.
  cbn [mapM].
  destruct (parse_rating line) as [[|userId movieId rating]|]; [| |exact Hstep].
  - rewrite Hstep. specialize (IH s acc).
    destruct (mapM parse_rating rest); simpl; exact IH.
  - rewrite Hstep.
    destruct (subscript (movie_dict s) movieId) as [movie|e] eqn:Hm.
    2:{ destruct (mapM parse_rating rest); simpl; [now rewrite Hm | eauto]. }
    destruct (predict_rating s userId movieId) as [[p|e] s'] eqn:Hp.
    2:{ destruct (mapM parse_rating rest); simpl; [now rewrite Hm, Hp | eauto]. }
    specialize (IH s' (acc ++ [(userId, title movie, p, rating)])).
    destruct (mapM parse_rating rest); simpl; [now rewrite Hm, Hp | exact IH].
Qed.

(** The two outcomes of [predict_ratings] on parsed rows. *)
Lemma predict_ratings_outcome (s : Movie_Recommendations) rows :
  wf s ->
  (data_rows rows <> [] /\ Forall (row_known s) (data_rows rows) /\
   exists tl s', predict_ratings s rows = (Return tl, s')) \/
  (~ (data_rows rows <> [] /\ Forall (row_known s) (data_rows rows)) /\
   exists e s', predict_ratings s rows = (Raise e, s')).
Proof.
  intros Hwf. unfold predict_ratings.
  destruct (predict_rows_outcome rows s [] Hwf)
    as [[Hok (tl & s' & Hret)]|[Hbad (e & s' & Hraise)]].
  - rewrite Hret.
    destruct (predict_rows_shape rows s [] tl s' Hret) as (new & -> & Hnew).
    simpl in *. apply (f_equal length) in Hnew. rewrite !length_fmap in Hnew.
    destruct new as [|t new]; simpl in *.
    + right. split; [|eauto].
      intros [Hne _]. apply Hne. now destruct (data_rows rows).
    + left. split; [|split; [exact Hok|eauto]].
      now destruct (data_rows rows).
  - rewrite Hraise. right. split; [|eauto]. now intros [_ Hok].
Qed.

(** X16.  In a well-formed state [predict_ratings] returns its list exactly
    when every row of the test file has its fields, the file has at least one
    data row, and every data row names a known user and a catalog movie; the
    list is then the one computed from the parsed rows.  In every other case
    the call raises. *)
Theorem predict_ratings_lines_outcome (s : Movie_Recommendations)
    (lines : list (list string)) :
  wf s ->
  ((exists tl s',
      predict_ratings_lines str_to_int str_to_float s lines = (Return tl, s')) <->
   exists rows,
     mapM parse_rating lines = Some rows /\
     data_rows rows <> [] /\ Forall (row_known s) (data_rows rows)) /\
  (forall rows,
     mapM parse_rating lines = Some rows ->
     predict_ratings_lines str_to_int str_to_float s lines =
     predict_ratings s rows) /\
  ((exists e s',
      predict_ratings_lines str_to_int str_to_float s lines = (Raise e, s')) <->
   ~ exists rows,
       mapM parse_rating lines = Some rows /\
       data_rows rows <> [] /\ Forall (row_known s) (data_rows rows)).
Proof.
  intros Hwf.
  assert (Hparsed : forall rows,
     mapM parse_rating lines = Some rows ->
     predict_ratings_lines str_to_int str_to_float s lines =
     predict_ratings s rows).
  { intros rows Hrows. unfold predict_ratings_lines, predict_ratings.
    pose proof (predict_lines_parsed lines s []) as H.
    rewrite Hrows in H. now rewrite H. }
  assert (Hcases :
    (exists rows, mapM parse_rating lines = Some rows /\
       data_rows rows <> [] /\ Forall (row_known s) (data_rows rows)) /\
    (exists tl s',
       predict_ratings_lines str_to_int str_to_float s lines = (Return tl, s'))
    \/
    (~ exists rows, mapM parse_rating lines = Some rows /\
         data_rows rows <> [] /\ Forall (row_known s) (data_rows rows)) /\
    (exists e s',
       predict_ratings_lines str_to_int str_to_float s lines = (Raise e, s'))).
  { destruct (mapM parse_rating lines) as [rows|] eqn:Hrows.
    - rewrite (Hparsed rows eq_refl).
      destruct (predict_ratings_outcome s rows Hwf)
        as [(Hne & Hok & Hret)|[Hbad Hraise]].
      + left. split; [|exact Hret]. exists rows. auto.
      + right. split; [|exact Hraise].
        intros (rows' & [= <-] & Hne & Hok). apply Hbad. now split.
    - right. split; [now intros (rows & Hr & _)|].
      unfold predict_ratings_lines.
      pose proof (predict_lines_parsed lines s []) as H. rewrite Hrows in H.
      destruct H as (e & s' & ->). eauto. }
  split; [|split; [exact Hparsed|]]; split.
  - intros (tl & s' & Hret).
    destruct Hcases as [[Hgood _]|[_ (e & s1 & Hraise)]]; [exact Hgood|].
    rewrite Hret in Hraise. discriminate.
  - intros Hgood.
    destruct Hcases as [[_ Hret]|[Hbad _]]; [exact Hret | contradiction].
  - intros (e & s' & Hraise).
    destruct Hcases as [[_ (tl & s1 & Hret)]|[Hbad _]]; [|exact Hbad].
    rewrite Hret in Hraise. discriminate.
  - intros Hbad.
    destruct Hcases as [[Hgood _]|[_ Hraise]]; [contradiction | exact Hraise].
Qed.

End BatchLines.

Lemma predict_ratings_lines_outcome_witness :
  predict_ratings_lines ex_int ex_float ex_state
    [["userId"; "movieId"; "rating"]; ["1"; "3"; "4.0"]] =
  predict_ratings ex_state [RatingHeader; RatingRow 1 3 4].
Proof.
  refine (proj1 (proj2 (predict_ratings_lines_outcome ex_int ex_float ex_state
                          [["userId"; "movieId"; "rating"]; ["1"; "3"; "4.0"]] _))
            _ _).
  - apply reachable_wf, (reachable_init ex_movies ex_training). reflexivity.
  - reflexivity.
Defined.

(** A blank line of the training file ends the constructor with
    [IndexError], a rating that is no number with [ValueError]; a test file
    with such a row ends [predict_ratings] the same way. *)
Example init_lines_bad_rows :
  init_lines ex_int ex_float [["1"; "A"]] [[]] = Raise IndexError /\
  init_lines ex_int ex_float [["1"; "A"]] [["1"; "1"; "abc"]] = Raise ValueError /\
  init_lines ex_int ex_float [["1"; "A"]] [["1"; "2"; "4.0"]] = Raise KeyError /\
  fst (predict_ratings_lines ex_int ex_float ex_state [["1"; "3"; "abc"]]) =
    Raise ValueError /\
  fst (predict_ratings_lines ex_int ex_float ex_state [[]]) = Raise IndexError.
Proof. repeat split; reflexivity. Qed.

(** ** A training file without repeated rows *)

Lemma reachable_from_frame (s0 s : Movie_Recommendations) :
  reachable_from s0 s ->
  user_dict s = user_dict s0 /\ raters (movie_dict s) = raters (movie_dict s0).
Proof.
  induction 1 as [|s c _ [IHu IHr]]; [now split|].
  destruct (after_frame s c) as [Hud Hr]. split; congruence.
Qed.

Lemma common_raters_Permutation (s : Movie_Recommendations) a b :
  (forall k m, movie_dict s !! k = Some m -> NoDup (users m)) ->
  NoDup (common_raters s a b) /\ common_raters s a b ≡ₚ common_raters s b a.
Proof.
  intros Hnodup.
  assert (Hnd : forall k, NoDup (default [] (raters (movie_dict s) !! k))).
  { intros k. rewrite raters_lookup.
    destruct (movie_dict s !! k) as [m|] eqn:Hk; simpl; [eauto | apply NoDup_nil_2]. }
  unfold common_raters. split.
  - apply NoDup_filter, Hnd.
  - apply NoDup_Permutation; [apply NoDup_filter, Hnd..|].
    intros u. rewrite !list_elem_of_filter. tauto.
Qed.

(** X17.  With a training file in which no (user, movie) pair occurs twice,
    in every state reached from the constructed object every raters list is
    duplicate-free; the common raters of two movies are then the same users
    from whichever side they are listed, each of them once. *)
Theorem clean_training_raters (movie_rows : list movie_row)
    (training_rows : list rating_row) (s0 s : Movie_Recommendations) :
  init movie_rows training_rows = Return s0 ->
  NoDup (rated_pairs training_rows) ->
  reachable_from s0 s ->
  (forall k m, movie_dict s !! k = Some m -> NoDup (users m)) /\
  (forall a b,
     NoDup (common_raters s a b) /\
     common_raters s a b ≡ₚ common_raters s b a).
Proof.
  intros Hinit Hnd Hfrom.
  destruct (reachable_from_frame s0 s Hfrom) as [_ Hr].
  assert (Hnodup : forall k m, movie_dict s !! k = Some m -> NoDup (users m)).
  { intros k m Hk.
    assert (Hl : users <$> (movie_dict s0 !! k) = Some (users m))
      by now rewrite <- raters_lookup, <- Hr, raters_lookup, Hk.
    destruct (movie_dict s0 !! k) as [m0|] eqn:Hk0; [|discriminate].
    injection Hl as <-.
    exact (init_NoDup movie_rows training_rows s0 Hinit Hnd k m0 Hk0). }
  split; [exact Hnodup|].
  intros a b. now apply common_raters_Permutation.
Qed.

Lemma clean_training_raters_witness :
  (forall k m, movie_dict (after ex_state (call_predict_rating 1 3)) !! k = Some m ->
     NoDup (users m)) /\
  (forall a b,
     NoDup (common_raters (after ex_state (call_predict_rating 1 3)) a b) /\
     common_raters (after ex_state (call_predict_rating 1 3)) a b ≡ₚ
     common_raters (after ex_state (call_predict_rating 1 3)) b a).
Proof.
  apply (clean_training_raters ex_movies ex_training ex_state).
  - reflexivity.
  - apply (bool_decide_unpack _). vm_compute. exact I.
  - apply from_call, from_here.
Defined.
